(** * A shallow embedding of [src/pipeline_runner.py]

    The stage execution engine of the offline pipeline runner: the
    idempotency fingerprint, the offline import guard, the audit hash
    chain, the per-stage file lock, the attempt loop of [run_stage], the
    run driver [run_pipeline] and the CLI entry point [main].

    Conventions of the model.
    - Python text is a [string] of code points U+0000..U+00FF, one
      [ascii] each; a byte string is a [string] of bytes. Text goes to a
      file as UTF-8 ([utf8_encode]).
    - A Python dict is an association list in insertion order
      ([list (string * json)]); [dict_set] is [d[k] = v].
    - SHA-256 is the function [sha256_hex] (bytes to 64-hex digest), a
      variable of the section: every fact below holds for any such function,
      in particular the real one.
    - The effects of the engine (files written, audit lines appended,
      subprocesses spawned) are threaded through a [World] record by a small
      state-and-exception monad; the engine's own writes are also recorded,
      in order, in the trace [w_trace]. *)

From Stdlib Require Import String Ascii List ZArith QArith Bool Lia.
From Stdlib Require Import DecimalString Sorted Permutation.
From Stdlib Require Decimal DecimalPos DecimalFacts DecimalZ.
Import ListNotations.
Open Scope string_scope.
Open Scope Z_scope.
Set Warnings "-register-all".

(** ** JSON values and [json.dumps] *)

(** JSON values as the runner stores them (numbers are integers). *)
Inductive json : Type :=
| JNull
| JBool (b : bool)
| JInt (z : Z)
| JStr (s : string)
| JArr (l : list json)
| JObj (kv : list (string * json)).

Definition dict := list (string * json).

(** [d.get(k)] *)
Fixpoint dict_get (d : dict) (k : string) : option json :=
  match d with
  | [] => None
  | (k', v) :: d' => if String.eqb k k' then Some v else dict_get d' k
  end.

(** [d[k] = v]: replaces the value in place, or appends a new key. *)
Fixpoint dict_set (d : dict) (k : string) (v : json) : dict :=
  match d with
  | [] => [(k, v)]
  | (k', v') :: d' =>
      if String.eqb k k' then (k', v) :: d' else (k', v') :: dict_set d' k v
  end.

(** [d.update(extra)] *)
Definition dict_update (d extra : dict) : dict :=
  fold_left (fun acc kv => dict_set acc (fst kv) (snd kv)) extra d.

(** [str(z)] for a Python int. *)
Definition str_of_Z (z : Z) : string :=
  NilEmpty.string_of_int (Z.to_int z).

Definition hex_digit (n : nat) : ascii :=
  if Nat.ltb n 10 then ascii_of_nat (48 + n) else ascii_of_nat (87 + n).

(** The double quote character. *)
Definition dquote : ascii := ascii_of_nat 34.

(** Escaping of one character by [json.dumps]. With [ensure_ascii=True]
    (the default) every character outside the printable ASCII range
    [' '..'~'] is written as an escape; with [ensure_ascii=False] only the
    quote, the backslash and the control characters below U+0020 are. *)
Definition json_escape_char_with (ensure_ascii : bool) (c : ascii) : string :=
  let n := nat_of_ascii c in
  if Ascii.eqb c dquote then String "\" (String dquote EmptyString)
  else if Ascii.eqb c "\" then String "\" (String "\" EmptyString)
  else if Nat.eqb n 10 then "\n"
  else if Nat.eqb n 13 then "\r"
  else if Nat.eqb n 9 then "\t"
  else if Nat.eqb n 8 then "\b"
  else if Nat.eqb n 12 then "\f"
  else if Nat.ltb n 32 || (ensure_ascii && Nat.leb 127 n) then
    "\u00" ++ String (hex_digit (n / 16)%nat) (String (hex_digit (n mod 16)%nat) EmptyString)
  else String c EmptyString.

Fixpoint json_escape_with (ensure_ascii : bool) (s : string) : string :=
  match s with
  | EmptyString => EmptyString
  | String c s' => json_escape_char_with ensure_ascii c ++ json_escape_with ensure_ascii s'
  end.

Definition json_string_with (ensure_ascii : bool) (s : string) : string :=
  String dquote (json_escape_with ensure_ascii s ++ String dquote EmptyString).

(** Insertion sort of the keys, as [sort_keys=True] does. *)
Fixpoint insert_kv (kv : string * json) (l : dict) : dict :=
  match l with
  | [] => [kv]
  | kv' :: l' =>
      match String.compare (fst kv) (fst kv') with
      | Gt => kv' :: insert_kv kv l'
      | _ => kv :: l
      end
  end.

Definition sort_dict (d : dict) : dict := fold_right insert_kv [] d.

(** [json.dumps(v, ensure_ascii=...)] with the default separators [", "]
    and [": "]. *)
Fixpoint json_dumps_with (ensure_ascii : bool) (v : json) : string :=
  match v with
  | JNull => "null"
  | JBool true => "true"
  | JBool false => "false"
  | JInt z => str_of_Z z
  | JStr s => json_string_with ensure_ascii s
  | JArr l =>
      let fix items (l : list json) : list string :=
        match l with [] => [] | x :: l' => json_dumps_with ensure_ascii x :: items l' end in
      "[" ++ String.concat ", " (items l) ++ "]"
  | JObj kv =>
      let fix members (kv : list (string * json)) : list string :=
        match kv with
        | [] => []
        | (k, x) :: kv' =>
            (json_string_with ensure_ascii k ++ ": " ++ json_dumps_with ensure_ascii x)
              :: members kv'
        end in
      "{" ++ String.concat ", " (members kv) ++ "}"
  end.

(** [json.dumps(v)]: [ensure_ascii=True]. *)
Definition json_dumps (v : json) : string := json_dumps_with true v.

(** [sort_keys=True]: every object's keys are emitted in sorted order. *)
Fixpoint sort_keys (v : json) : json :=
  match v with
  | JArr l =>
      let fix items (l : list json) : list json :=
        match l with [] => [] | x :: l' => sort_keys x :: items l' end in
      JArr (items l)
  | JObj kv =>
      let fix members (kv : list (string * json)) : dict :=
        match kv with
        | [] => []
        | (k, x) :: kv' => (k, sort_keys x) :: members kv'
        end in
      JObj (sort_dict (members kv))
  | _ => v
  end.

(** [json.dumps(d, sort_keys=True)] of a dict. *)
Definition dumps_sorted (d : dict) : string := json_dumps (sort_keys (JObj d)).

(** [json.dumps(entry, ensure_ascii=False)]: the text of an audit line. *)
Definition audit_line_text (d : dict) : string := json_dumps_with false (JObj d).

(** ** UTF-8 *)

(** The newline character. *)
Definition nl : ascii := ascii_of_nat 10.

(** [s.encode("utf-8")] for a text of code points below U+0100: one byte
    below U+0080, two bytes otherwise. *)
Fixpoint utf8_encode (s : string) : string :=
  match s with
  | EmptyString => EmptyString
  | String c s' =>
      let n := nat_of_ascii c in
      if Nat.ltb n 128 then String c (utf8_encode s')
      else String (ascii_of_nat (192 + n / 64)%nat)
             (String (ascii_of_nat (128 + n mod 64)%nat) (utf8_encode s'))
  end.

(** [b.decode("utf-8", errors="ignore")] on bytes cut from UTF-8 text of
    code points below U+0100: an ASCII byte is a character, a lead byte
    [0xC2] or [0xC3] followed by a continuation byte is one character, and
    any other byte (a continuation byte whose lead was cut off, or a lead
    byte without its continuation) is dropped. *)
Fixpoint utf8_decode (b : string) : string :=
  match b with
  | EmptyString => EmptyString
  | String c b' =>
      let n := nat_of_ascii c in
      if Nat.ltb n 128 then String c (utf8_decode b')
      else if Nat.leb 194 n && Nat.leb n 195 then
        match b' with
        | String c2 b'' =>
            let m := nat_of_ascii c2 in
            if Nat.leb 128 m && Nat.ltb m 192
            then String (ascii_of_nat ((n - 192) * 64 + (m - 128))%nat) (utf8_decode b'')
            else utf8_decode b'
        | EmptyString => EmptyString
        end
      else utf8_decode b'
  end.

(** [b[n:]] *)
Fixpoint str_drop (n : nat) (s : string) : string :=
  match n, s with
  | O, _ => s
  | S n', String _ s' => str_drop n' s'
  | S _, EmptyString => EmptyString
  end.

(** ** [str.strip] and [str.splitlines] *)

(** [c.isspace()] for a code point below U+0100. *)
Definition py_isspace (c : ascii) : bool :=
  let n := nat_of_ascii c in
  (Nat.leb 9 n && Nat.leb n 13) || (Nat.leb 28 n && Nat.leb n 32) ||
  Nat.eqb n 133 || Nat.eqb n 160.

Fixpoint lstrip (s : string) : string :=
  match s with
  | EmptyString => EmptyString
  | String c s' => if py_isspace c then lstrip s' else s
  end.

Fixpoint rstrip (s : string) : string :=
  match s with
  | EmptyString => EmptyString
  | String c s' =>
      match rstrip s' with
      | EmptyString => if py_isspace c then EmptyString else String c EmptyString
      | r => String c r
      end
  end.

(** [s.strip()] *)
Definition py_strip (s : string) : string := lstrip (rstrip s).

(** The line boundaries of [str.splitlines] below U+0100: [\n], [\v],
    [\f], [\r], [\x1c], [\x1d], [\x1e] and [\x85] ([\r\n] counts as one). *)
Definition is_line_break (c : ascii) : bool :=
  let n := nat_of_ascii c in
  (Nat.leb 10 n && Nat.leb n 13) || (Nat.leb 28 n && Nat.leb n 30) || Nat.eqb n 133.

Definition no_line_break (s : string) : bool :=
  negb (existsb is_line_break (list_ascii_of_string s)).

(** [s.splitlines()] *)
Fixpoint splitlines (s : string) : list string :=
  match s with
  | EmptyString => []
  | String c s' =>
      if is_line_break c then
        if Nat.eqb (nat_of_ascii c) 13 then
          match s' with
          | String c2 s'' =>
              if Nat.eqb (nat_of_ascii c2) 10 then EmptyString :: splitlines s''
              else EmptyString :: splitlines s'
          | EmptyString => [EmptyString]
          end
        else EmptyString :: splitlines s'
      else
        match splitlines s' with
        | [] => [String c EmptyString]
        | p :: ps => String c p :: ps
        end
  end.

(** [*_, last = l]: [None] when [l] is empty ([ValueError]). *)
Fixpoint last_opt {A : Type} (l : list A) : option A :=
  match l with
  | [] => None
  | [x] => Some x
  | _ :: l' => last_opt l'
  end.

(** ** [json.loads] *)

(** The values [json.loads] builds for the text the engine writes: objects,
    arrays, strings, integers, [true], [false] and [null]. The model has no
    floats: a number with a fraction or an exponent, [NaN] and [Infinity]
    are not parsed, and neither is a [\uXXXX] escape above U+00FF; the
    engine's lines contain none of these. *)

Definition is_json_ws (c : ascii) : bool :=
  let n := nat_of_ascii c in
  Nat.eqb n 32 || Nat.eqb n 9 || Nat.eqb n 10 || Nat.eqb n 13.

Fixpoint skip_ws (s : string) : string :=
  match s with
  | EmptyString => EmptyString
  | String c s' => if is_json_ws c then skip_ws s' else s
  end.

Definition hex_val (c : ascii) : option nat :=
  let n := nat_of_ascii c in
  if Nat.leb 48 n && Nat.leb n 57 then Some (n - 48)%nat
  else if Nat.leb 97 n && Nat.leb n 102 then Some (n - 87)%nat
  else if Nat.leb 65 n && Nat.leb n 70 then Some (n - 55)%nat
  else None.

(** The one-character escapes: backslash followed by a double quote, [\\], [\/], [\b], [\f], [\n], [\r],
    [\t]. *)
Definition simple_escape (e : ascii) : option ascii :=
  if Ascii.eqb e dquote then Some dquote
  else if Ascii.eqb e "\" then Some "\"%char
  else if Ascii.eqb e "/" then Some "/"%char
  else if Ascii.eqb e "b" then Some (ascii_of_nat 8)
  else if Ascii.eqb e "f" then Some (ascii_of_nat 12)
  else if Ascii.eqb e "n" then Some (ascii_of_nat 10)
  else if Ascii.eqb e "r" then Some (ascii_of_nat 13)
  else if Ascii.eqb e "t" then Some (ascii_of_nat 9)
  else None.

Definition cons_fst (c : ascii) (o : option (string * string)) : option (string * string) :=
  match o with Some (b, r) => Some (String c b, r) | None => None end.

(** [scanstring]: the rest of a JSON string after its opening quote; the
    string and what follows its closing quote. A raw control character is
    an error ([strict=True]). *)
Fixpoint parse_string_body (s : string) : option (string * string) :=
  match s with
  | EmptyString => None
  | String c s' =>
      if Ascii.eqb c dquote then Some (EmptyString, s')
      else if Ascii.eqb c "\" then
        match s' with
        | EmptyString => None
        | String e s'' =>
            match simple_escape e with
            | Some ch => cons_fst ch (parse_string_body s'')
            | None =>
                if Ascii.eqb e "u" then
                  match s'' with
                  | String h1 (String h2 (String h3 (String h4 r))) =>
                      match hex_val h1, hex_val h2, hex_val h3, hex_val h4 with
                      | Some a, Some b, Some c3, Some d =>
                          let v := (((a * 16 + b) * 16 + c3) * 16 + d)%nat in
                          if Nat.ltb v 256 then cons_fst (ascii_of_nat v) (parse_string_body r)
                          else None
                      | _, _, _, _ => None
                      end
                  | _ => None
                  end
                else None
            end
        end
      else if Nat.ltb (nat_of_ascii c) 32 then None
      else cons_fst c (parse_string_body s')
  end.

Definition is_digit (c : ascii) : bool :=
  let n := nat_of_ascii c in Nat.leb 48 n && Nat.leb n 57.

Fixpoint span_digits (s : string) : string * string :=
  match s with
  | EmptyString => (EmptyString, EmptyString)
  | String c s' =>
      if is_digit c then let (d, r) := span_digits s' in (String c d, r)
      else (EmptyString, s)
  end.

(** A fraction [.d] or an exponent [e[+-]d] follows the integer part: the
    number is a float. *)
Definition float_follows (s : string) : bool :=
  match s with
  | String c r =>
      if Ascii.eqb c "." then
        match r with String d _ => is_digit d | EmptyString => false end
      else if Ascii.eqb c "e" || Ascii.eqb c "E" then
        match r with
        | String sg r' =>
            if Ascii.eqb sg "+" || Ascii.eqb sg "-" then
              match r' with String d _ => is_digit d | EmptyString => false end
            else is_digit sg
        | EmptyString => false
        end
      else false
  | EmptyString => false
  end.

(** The integer part starts with [0] and goes on with another digit. *)
Definition leading_zero (ds : string) : bool :=
  match ds with
  | String c (String _ _) => Ascii.eqb c "0"
  | _ => false
  end.

(** An integer: an optional minus sign, then [0] or digits not starting
    with [0]. A [0] followed by a digit is an error wherever the number
    stands (the next character must end the value). *)
Definition parse_int (s : string) : option (json * string) :=
  let '(sign, s1) :=
    match s with
    | String c r => if Ascii.eqb c "-" then (String c EmptyString, r) else (EmptyString, s)
    | EmptyString => (EmptyString, EmptyString)
    end in
  let '(ds, rest) := span_digits s1 in
  match ds with
  | EmptyString => None
  | _ =>
      if leading_zero ds || float_follows rest then None
      else match NilEmpty.int_of_string (sign ++ ds) with
           | Some i => Some (JInt (Z.of_int i), rest)
           | None => None
           end
  end.

(** [scan_once], [JSONObject] and [JSONArray]; [fuel] bounds the number of
    nested calls. *)
Fixpoint parse_value (fuel : nat) (s : string) {struct fuel} : option (json * string) :=
  match fuel with
  | O => None
  | S f =>
      match skip_ws s with
      | EmptyString => None
      | String c r =>
          if Ascii.eqb c dquote then
            match parse_string_body r with Some (t, r') => Some (JStr t, r') | None => None end
          else if Ascii.eqb c "{" then
            match skip_ws r with
            | String c' r' => if Ascii.eqb c' "}" then Some (JObj [], r')
                              else parse_members f (String c' r') []
            | EmptyString => None
            end
          else if Ascii.eqb c "[" then
            match skip_ws r with
            | String c' r' => if Ascii.eqb c' "]" then Some (JArr [], r')
                              else parse_elements f (String c' r') []
            | EmptyString => None
            end
          else
            match String c r with
            | String "n" (String "u" (String "l" (String "l" r'))) => Some (JNull, r')
            | String "t" (String "r" (String "u" (String "e" r'))) => Some (JBool true, r')
            | String "f" (String "a" (String "l" (String "s" (String "e" r')))) =>
                Some (JBool false, r')
            | s' => parse_int s'
            end
      end
  end
with parse_members (fuel : nat) (s : string) (acc : dict) {struct fuel}
    : option (json * string) :=
  match fuel with
  | O => None
  | S f =>
      match s with
      | String c r =>
          if Ascii.eqb c dquote then
            match parse_string_body r with
            | Some (k, r1) =>
                match skip_ws r1 with
                | String c1 r2 =>
                    if Ascii.eqb c1 ":" then
                      match parse_value f r2 with
                      | Some (v, r3) =>
                          match skip_ws r3 with
                          | String c3 r4 =>
                              if Ascii.eqb c3 "}" then Some (JObj (app acc [(k, v)]), r4)
                              else if Ascii.eqb c3 "," then
                                parse_members f (skip_ws r4) (app acc [(k, v)])
                              else None
                          | EmptyString => None
                          end
                      | None => None
                      end
                    else None
                | EmptyString => None
                end
            | None => None
            end
          else None
      | EmptyString => None
      end
  end
with parse_elements (fuel : nat) (s : string) (acc : list json) {struct fuel}
    : option (json * string) :=
  match fuel with
  | O => None
  | S f =>
      match parse_value f s with
      | Some (v, r1) =>
          match skip_ws r1 with
          | String c1 r2 =>
              if Ascii.eqb c1 "]" then Some (JArr (app acc [v]), r2)
              else if Ascii.eqb c1 "," then parse_elements f r2 (app acc [v])
              else None
          | EmptyString => None
          end
      | None => None
      end
  end.

(** [json.loads(s)]: one value, with only whitespace around it. *)
Definition json_loads (s : string) : option json :=
  match parse_value (S (String.length s)) s with
  | Some (v, r) => match skip_ws r with EmptyString => Some v | _ => None end
  | None => None
  end.

(** [dict(pairs).get(k)]: for a repeated key the last value wins. *)
Definition dict_get_rev (d : dict) (k : string) : option json := dict_get (rev d) k.


(** ** Offline guard: the import scan *)

(** The statements of a parsed Python module, as far as [ast.walk] and the
    import scan see them. [Import names] is [import a.b as c, d] (the
    [alias.name]s in order); [ImportFrom module names] is
    [from m import x] ([module] is [None] for [from . import x]); [Block
    body] is any node with nested statements (def, class, if, for, while,
    try, with, an except handler) holding them in source order; [Stmt] is
    any other statement. Expression nodes cannot contain statements and are
    left out. *)
Inductive stmt : Type :=
| Import (names : list string)
| ImportFrom (module : option string) (names : list string)
| Block (body : list stmt)
| Stmt.

(** [ast.iter_child_nodes], restricted to statements. *)
Definition children (s : stmt) : list stmt :=
  match s with Block b => b | _ => [] end.

Fixpoint stmt_size (s : stmt) : nat :=
  match s with
  | Block b =>
      let fix go (l : list stmt) : nat :=
        match l with [] => 0%nat | x :: l' => (stmt_size x + go l')%nat end in
      S (go b)
  | _ => 1%nat
  end.

Definition list_size (l : list stmt) : nat :=
  fold_right (fun x n => (stmt_size x + n)%nat) 0%nat l.

(** [ast.walk]: breadth first, a queue of nodes still to visit ([todo]);
    [fuel] bounds the number of nodes. *)
Fixpoint walk (fuel : nat) (todo : list stmt) : list stmt :=
  match fuel with
  | O => []
  | S f =>
      match todo with
      | [] => []
      | n :: todo' => n :: walk f (todo' ++ children n)
      end
  end.

(** [ast.walk(tree)] for a module with body [body] (the [Module] node itself
    is not an import and is left out). *)
Definition ast_walk (body : list stmt) : list stmt := walk (list_size body) body.

(** [BANNED_MODULE_PREFIXES] *)
Definition BANNED_MODULE_PREFIXES : list string :=
  ["requests"; "socket"; "http.client"; "urllib"; "urllib3"; "httpx"; "aiohttp";
   "asyncio"].

(** [mod.startswith(BANNED_MODULE_PREFIXES)] *)
Definition startswith_banned (m : string) : bool :=
  existsb (fun pre => String.prefix pre m) BANNED_MODULE_PREFIXES.

(** The banned names one node contributes. *)
Definition banned_of_node (n : stmt) : list string :=
  match n with
  | Import names => filter startswith_banned names
  | ImportFrom module _ =>
      let m := match module with Some m => m | None => "" end in
      if startswith_banned m then [m] else []
  | _ => []
  end.

(** [scan_for_banned_imports(path)] on the parsed module. *)
Definition scan_for_banned_imports (body : list stmt) : list string :=
  flat_map banned_of_node (ast_walk body).

(** ** Files and the filesystem *)

(** A regular file: its bytes and its modification time ([os.path.getmtime],
    a float, here a rational). The filesystem maps a path to the regular
    file there, [None] when nothing exists at the path. *)
Record file : Type := mkFile { f_contents : string; f_mtime : Q }.

Definition fs := string -> option file.

(** [os.path.join(a, b)] *)
Definition path_join (a b : string) : string :=
  match b with
  | String "/" _ => b
  | _ =>
      if String.eqb a "" then b
      else if String.eqb (substring (String.length a - 1)%nat 1 a) "/" then a ++ b
      else a ++ "/" ++ b
  end.

(** [int(x)] for a float truncates toward zero. *)
Definition int_of_Q (q : Q) : Z := Z.quot (Qnum q) (Zpos (Qden q)).

(** ** Pipeline specification *)

(** One stage of the pipeline spec, with its required fields and the
    optional ones as present in the JSON ([None]: key absent).
    [st_idempotency] is the [idempotency] dict and its [enabled] key;
    [st_checkpoint] the [checkpoint] dict with [enabled] and [lineInterval];
    [st_retry] the [retry] dict with [maxAttempts] and
    [retryableExitCodes]. Backoff delays, jitter and the seed only shape the
    length of the sleeps, which the model records as events. *)
Record Stage : Type := mkStage {
  st_name : string;
  st_processor : string;
  st_outputDir : string;
  st_inputs : option (list string);
  st_params : option dict;
  st_idempotency : option (option bool);
  st_checkpoint : option (option bool * option Z);
  st_retry : option (option Z * list Z);
  st_offlineGuard : option bool;
  st_useLock : option bool
}.

Definition with_default {A} (o : option A) (d : A) : A :=
  match o with Some x => x | None => d end.

(** The [setdefault] calls of [validate_pipeline_spec] for one stage. *)
Definition validate_stage (s : Stage) : Stage :=
  mkStage (st_name s) (st_processor s) (st_outputDir s)
    (Some (with_default (st_inputs s) []))
    (Some (with_default (st_params s) []))
    (Some (with_default (st_idempotency s) (Some true)))
    (Some (with_default (st_checkpoint s) (Some false, Some 0)))
    (Some (with_default (st_retry s) (Some 1, [])))
    (Some (with_default (st_offlineGuard s) true))
    (Some (with_default (st_useLock s) true)).

(** The lookups at the top of [run_stage]. *)
Definition stage_inputs (s : Stage) : list string := with_default (st_inputs s) [].
Definition stage_params (s : Stage) : dict := with_default (st_params s) [].
Definition idem_enabled (s : Stage) : bool :=
  match st_idempotency s with Some e => with_default e false | None => false end.
Definition checkpoint_enabled (s : Stage) : bool :=
  match st_checkpoint s with Some (e, _) => with_default e false | None => false end.
Definition max_attempts (s : Stage) : Z :=
  match st_retry s with Some (m, _) => with_default m 1 | None => 1 end.
Definition retryable_exit_codes (s : Stage) : list Z :=
  match st_retry s with Some (_, c) => c | None => [] end.
Definition offline_guard (s : Stage) : bool := with_default (st_offlineGuard s) true.
Definition use_lock (s : Stage) : bool := with_default (st_useLock s) true.

(** A pipeline spec after [load_pipeline]; [p_name] is [pipeline['name']]. *)
Record Pipeline : Type := mkPipeline { p_name : option string; p_stages : list Stage }.

(** ** [validate_pipeline_spec] *)

(** The values [json.load] returns for the pipeline file. *)
Inductive pyval : Type :=
| PyNone
| PyBool (b : bool)
| PyInt (z : Z)
| PyFloat (q : Q)
| PyStr (s : string)
| PyList (l : list pyval)
| PyDict (kv : list (string * pyval)).

Definition pydict := list (string * pyval).

(** [k in d] and [d[k]] *)
Fixpoint pd_get (d : pydict) (k : string) : option pyval :=
  match d with
  | [] => None
  | (k', v) :: d' => if String.eqb k k' then Some v else pd_get d' k
  end.

(** [d[k] = v] *)
Fixpoint pd_set (d : pydict) (k : string) (v : pyval) : pydict :=
  match d with
  | [] => [(k, v)]
  | (k', v') :: d' =>
      if String.eqb k k' then (k', v) :: d' else (k', v') :: pd_set d' k v
  end.

(** [d.setdefault(k, v)] *)
Definition setdefault (d : pydict) (k : string) (v : pyval) : pydict :=
  match pd_get d k with Some _ => d | None => (d ++ [(k, v)])%list end.

(** The [stage.setdefault] calls of [validate_pipeline_spec], in order. *)
Definition stage_defaults : pydict :=
  [("inputs", PyList []);
   ("idempotency", PyDict [("enabled", PyBool true)]);
   ("checkpoint", PyDict [("enabled", PyBool false); ("lineInterval", PyInt 0)]);
   ("retry", PyDict [("maxAttempts", PyInt 1); ("baseDelaySeconds", PyFloat (Qmake 1 1));
                     ("maxDelaySeconds", PyFloat (Qmake 30 1));
                     ("jitterSeconds", PyFloat (Qmake 1 2))]);
   ("resources", PyDict [("cpuCores", PyNone); ("memoryMB", PyNone);
                         ("ioConcurrency", PyNone)]);
   ("params", PyDict []);
   ("offlineGuard", PyBool true);
   ("useLock", PyBool true)].

Definition set_stage_defaults (d : pydict) : pydict :=
  fold_left (fun d kv => setdefault d (fst kv) (snd kv)) stage_defaults d.

Definition REQUIRED_FIELDS : list string := ["name"; "processor"; "outputDir"].

(** The first of [name], [processor], [outputDir] missing from a stage. *)
Definition missing_field (d : pydict) : option string :=
  find (fun r => match pd_get d r with Some _ => false | None => true end) REQUIRED_FIELDS.

(** The [for stage in spec["stages"]] loop: the stages with their defaults
    set, or the [ValueError] message of the first bad stage. *)
Fixpoint validate_stages (l : list pyval) : string + list pyval :=
  match l with
  | [] => inr []
  | PyDict d :: l' =>
      match missing_field d with
      | Some r => inl ("Stage missing required field: " ++ r)
      | None =>
          match validate_stages l' with
          | inl e => inl e
          | inr l'' => inr (PyDict (set_stage_defaults d) :: l'')
          end
      end
  | _ :: _ => inl "Each stage must be an object"
  end.

(** [validate_pipeline_spec(spec)]: the spec it leaves behind (the stages
    are updated in place), or the message of the [ValueError] it raises. *)
Definition validate_pipeline_spec (spec : pyval) : string + pyval :=
  match spec with
  | PyDict d =>
      match pd_get d "stages" with
      | Some (PyList l) =>
          match validate_stages l with
          | inl e => inl e
          | inr l' => inr (PyDict (pd_set d "stages" (PyList l')))
          end
      | _ => inl "Pipeline spec must contain a 'stages' list"
      end
  | _ => inl "Pipeline spec must be a JSON object"
  end.

(** A stage a valid spec may hold: an object with the three required keys. *)
Definition stage_shape_ok (s : pyval) : Prop :=
  exists sd, s = PyDict sd /\
             forall r, In r ["name"; "processor"; "outputDir"] -> pd_get sd r <> None.

(** ** Persistent state *)

(** One [attempt_info] dict of the stage history. *)
Record AttemptInfo : Type := mkAttempt {
  ai_attempt : Z;
  ai_startedAt : string;
  ai_stdout : option string;
  ai_stderr : option string;
  ai_status : option string;
  ai_error : option string;
  ai_exitCode : option Z;
  ai_endedAt : option string
}.

Definition attempt_start (k : Z) (ts : string) : AttemptInfo :=
  mkAttempt k ts None None None None None None.

(** The StageState dict [state/stage_{name}.json]; [None] fields are absent
    keys. *)
Record StageState : Type := mkStageState {
  ss_history : option (list AttemptInfo);
  ss_lastDurationSec : option Z;
  ss_lastStatus : option string;
  ss_attempts : option Z;
  ss_idempotencyKey : option string
}.

Definition empty_stage_state : StageState := mkStageState None None None None None.

(** What one run of a processor subprocess does: its exit code and
    (stripped) output, the [lineOffset] it writes to its progress file
    [state/progress_{name}.json], if any, and the files it writes. *)
Record ProcResult : Type := mkProcResult {
  pr_returncode : Z;
  pr_stdout : string;
  pr_stderr : string;
  pr_progress : option Z;
  pr_writes : list (string * file)
}.

(** Who else holds a lock file: nobody, another process that releases it
    after [t] seconds, or one that never releases it. *)
Inductive holder : Type := Free | HeldFor (t : nat) | HeldForever.

(** The engine's own effects on the outside world, in order. *)
Inductive event : Type :=
| EMkdir (d : string)
| EWriteStageState (name : string)
| EWriteCheckpoint (name : string)
| EWriteMarker (path : string)
| EOpenLock (path : string)
| ESpawn (processor : string) (returncode : Z)
| ESleep (attempt : Z)
| EAudit (run_id : string) (stage : option string) (ev : string)
| EWriteRunState (run_id : string) (state : string)
| EWriteMetrics (run_id : string).

(** What does not change during a run: the parsed processor sources (read
    by the offline guard; [None] when the file cannot be opened), what the
    n-th spawned subprocess does, the clock's ISO timestamp, and whether
    the interpreter runs on Windows ([os.name == "nt"]). *)
Record Env : Type := mkEnv {
  e_src : string -> option (list stmt);
  e_behaviour : nat -> ProcResult;
  e_now : string;
  e_os_nt : bool
}.

(** The content of a checkpoint file [state/progress_{name}.json]: an
    integer [lineOffset], a JSON object without that key, or anything that
    [json.load] or [int] rejects. *)
Inductive progress_file : Type := PInt (n : Z) | PNoKey | PCorrupt.

(** The working tree. [w_progress name] is the checkpoint file
    [state/progress_{name}.json] ([None] when absent). [w_markers] are the paths of the existing
    completion markers. [w_audit run_id] are the lines of
    [state/audit_{run_id}.jsonl]. *)
Record World : Type := mkWorld {
  w_fs : fs;
  w_dirs : list string;
  w_stage_states : string -> option StageState;
  w_progress : string -> option progress_file;
  w_markers : list string;
  w_run_states : string -> option string;
  w_audit : string -> list dict;
  w_locks : string -> holder;
  w_spawned : nat;
  w_clock : nat;
  w_trace : list event
}.

Definition upd {A} (f : string -> A) (k : string) (v : A) : string -> A :=
  fun k' => if String.eqb k' k then v else f k'.

(** Field updates of a world. *)
Definition set_w_fs (w : World) (v : fs) : World :=
  mkWorld v (w_dirs w) (w_stage_states w) (w_progress w) (w_markers w) (w_run_states w) (w_audit w) (w_locks w) (w_spawned w) (w_clock w) (w_trace w).
Definition set_w_dirs (w : World) (v : list string) : World :=
  mkWorld (w_fs w) v (w_stage_states w) (w_progress w) (w_markers w) (w_run_states w) (w_audit w) (w_locks w) (w_spawned w) (w_clock w) (w_trace w).
Definition set_w_stage_states (w : World) (v : string -> option StageState) : World :=
  mkWorld (w_fs w) (w_dirs w) v (w_progress w) (w_markers w) (w_run_states w) (w_audit w) (w_locks w) (w_spawned w) (w_clock w) (w_trace w).
Definition set_w_progress (w : World) (v : string -> option progress_file) : World :=
  mkWorld (w_fs w) (w_dirs w) (w_stage_states w) v (w_markers w) (w_run_states w) (w_audit w) (w_locks w) (w_spawned w) (w_clock w) (w_trace w).
Definition set_w_markers (w : World) (v : list string) : World :=
  mkWorld (w_fs w) (w_dirs w) (w_stage_states w) (w_progress w) v (w_run_states w) (w_audit w) (w_locks w) (w_spawned w) (w_clock w) (w_trace w).
Definition set_w_run_states (w : World) (v : string -> option string) : World :=
  mkWorld (w_fs w) (w_dirs w) (w_stage_states w) (w_progress w) (w_markers w) v (w_audit w) (w_locks w) (w_spawned w) (w_clock w) (w_trace w).
Definition set_w_audit (w : World) (v : string -> list dict) : World :=
  mkWorld (w_fs w) (w_dirs w) (w_stage_states w) (w_progress w) (w_markers w) (w_run_states w) v (w_locks w) (w_spawned w) (w_clock w) (w_trace w).
Definition set_w_locks (w : World) (v : string -> holder) : World :=
  mkWorld (w_fs w) (w_dirs w) (w_stage_states w) (w_progress w) (w_markers w) (w_run_states w) (w_audit w) v (w_spawned w) (w_clock w) (w_trace w).
Definition set_w_spawned (w : World) (v : nat) : World :=
  mkWorld (w_fs w) (w_dirs w) (w_stage_states w) (w_progress w) (w_markers w) (w_run_states w) (w_audit w) (w_locks w) v (w_clock w) (w_trace w).
Definition set_w_clock (w : World) (v : nat) : World :=
  mkWorld (w_fs w) (w_dirs w) (w_stage_states w) (w_progress w) (w_markers w) (w_run_states w) (w_audit w) (w_locks w) (w_spawned w) v (w_trace w).
Definition set_w_trace (w : World) (v : list event) : World :=
  mkWorld (w_fs w) (w_dirs w) (w_stage_states w) (w_progress w) (w_markers w) (w_run_states w) (w_audit w) (w_locks w) (w_spawned w) (w_clock w) v.

(** Appends an event to the trace. *)
Definition emit (e : event) (w : World) : World := set_w_trace w (w_trace w ++ [e])%list.

(** ** The state and exception monad *)

(** Python exceptions the engine raises or lets through. *)
Inductive exn : Type :=
| RuntimeError (msg : string)
| FileNotFoundError (msg : string)
| FileExistsError (msg : string)
| NotADirectoryError (msg : string)
| OSError (msg : string)
| TypeError (msg : string)
| KeyError (key : string).

(** A computation returns, raises, or stays blocked forever in a system
    call (here: [flock] on a lock nobody releases). *)
Inductive outcome (A : Type) : Type :=
| Ret (a : A)
| Raise (e : exn)
| Blocked.
Arguments Ret {A} a.
Arguments Raise {A} e.
Arguments Blocked {A}.

Definition M (A : Type) : Type := Env -> World -> outcome A * World.

Definition ret {A} (a : A) : M A := fun _ w => (Ret a, w).
Definition raise {A} (e : exn) : M A := fun _ w => (Raise e, w).
Definition bind {A B} (m : M A) (f : A -> M B) : M B :=
  fun E w =>
    match m E w with
    | (Ret a, w') => f a E w'
    | (Raise e, w') => (Raise e, w')
    | (Blocked, w') => (Blocked, w')
    end.
Definition modify (f : World -> World) : M unit := fun _ w => (Ret tt, f w).
Definition gets {A} (f : World -> A) : M A := fun _ w => (Ret (f w), w).
Definition env {A} (f : Env -> A) : M A := fun E w => (Ret (f E), w).

Notation "x <- m ;; k" := (bind m (fun x => k))
  (at level 61, m at next level, right associativity).
Notation "m ;; k" := (bind m (fun _ : unit => k))
  (at level 61, right associativity).

(** ** Sample configurations *)

(** A stand-in digest: the engine is run on concrete inputs with it. *)
Definition toy_sha (s : string) : string := "sha(" ++ s ++ ")".

(** A working tree with two processors and one input file. *)
Definition sample_fs : fs := fun p =>
  if String.eqb p "bin/proc.py" then Some (mkFile "import os" (Qmake 7 1))
  else if String.eqb p "bin/net.py" then Some (mkFile "import socket" (Qmake 7 1))
  else if String.eqb p "data/in.txt" then Some (mkFile "a,b" (Qmake 3 1))
  else None.

(** The same working tree after [data/in.txt] was edited. *)
Definition sample_fs_edited : fs := fun p =>
  if String.eqb p "data/in.txt" then Some (mkFile "a,b,c" (Qmake 9 1)) else sample_fs p.

(** The parsed sources: [bin/net.py] imports [socket] inside a block. *)
Definition sample_src (p : string) : option (list stmt) :=
  if String.eqb p "bin/proc.py" then Some [Import ["os"]; Stmt]
  else if String.eqb p "bin/net.py" then Some [Block [Import ["socket"]]]
  else None.

Definition proc_ok : ProcResult := mkProcResult 0 "done" "" (Some 5) [].
Definition proc_fail : ProcResult := mkProcResult 1 "" "boom" (Some 3) [].

Definition sample_env (b : nat -> ProcResult) : Env :=
  mkEnv sample_src b "2026-01-01T00:00:00" false.

(** The same, on Windows. *)
Definition sample_env_nt (b : nat -> ProcResult) : Env :=
  mkEnv sample_src b "2026-01-01T00:00:00" true.

(** A fresh working tree, with the given holders of the lock files. *)
Definition sample_world (locks : string -> holder) : World :=
  mkWorld sample_fs [] (fun _ => None) (fun _ => None) [] (fun _ => None)
    (fun _ => []) locks 0 0 [].

(** A working tree after a successful run of stage [name]: its StageState
    holds [key], the marker [marker] exists, and so do the directories
    [dirs]. *)
Definition done_world (name key marker : string) (dirs : list string) : World :=
  mkWorld sample_fs dirs
    (fun n => if String.eqb n name
              then Some (mkStageState (Some []) (Some 0) (Some "ok") (Some 1) (Some key))
              else None)
    (fun _ => None) [marker] (fun _ => None) (fun _ => []) (fun _ => Free) 0 0 [].

(** A stage with every option set: one input, idempotency and checkpoints
    on, two attempts, the offline guard and the lock on. *)
Definition sample_stage (name processor : string) : Stage :=
  mkStage name processor "out" (Some ["data/in.txt"]) (Some [("mode", JStr "fast")])
    (Some (Some true)) (Some (Some true, Some 10)) (Some (Some 2, [])) (Some true) (Some true).

Definition sample_pipeline (stages : list Stage) : Pipeline := mkPipeline (Some "demo") stages.

(** A pipeline file as [json.load] returns it: one stage that sets only
    its required fields and [retry.maxAttempts]. *)
Definition sample_spec : pyval :=
  PyDict [("name", PyStr "demo");
          ("stages", PyList [PyDict [("name", PyStr "extract");
                                     ("processor", PyStr "bin/proc.py");
                                     ("outputDir", PyStr "out");
                                     ("retry", PyDict [("maxAttempts", PyInt 3)])]])].

(** [sample_spec] after [validate_pipeline_spec]. *)
Definition sample_spec_validated : pyval :=
  Eval vm_compute in
    match validate_pipeline_spec sample_spec with inr s => s | inl _ => PyNone end.

Section Engine.

(** SHA-256 of a byte string, as a lowercase 64-hex string. *)
Variable sha256_hex : string -> string.

(** ** Fingerprint *)

(** [sha256_file(path)]: the digest of the file's bytes. *)
Definition sha256_file (f : file) : string := sha256_hex (f_contents f).

(** [get_processor_version(processor_path)] *)
Definition get_processor_version (w : fs) (processor_path : string) : string :=
  match w processor_path with
  | Some f => "v" ++ str_of_Z (int_of_Q (f_mtime f))
  | None => "v0"
  end.

(** [compute_idempotency_key(inputs, processor_path, params)] *)
Definition compute_idempotency_key (w : fs) (inputs : list string)
    (processor_path : string) (params : dict) : string :=
  let parts :=
    map (fun p => match w p with Some f => sha256_file f | None => "missing" end) inputs in
  let parts := (parts ++ [get_processor_version w processor_path])%list in
  let parts :=
    match params with
    | [] => parts
    | _ => (parts ++ [dumps_sorted params])%list
    end in
  let raw := String.concat "|" parts in
  sha256_hex raw.

(** ** Audit log *)

Definition cr : ascii := ascii_of_nat 13.

(** The line terminator [f.write] produces in text mode: [\r\n] on Windows
    ([os.name == "nt"]), [\n] elsewhere. *)
Definition line_end (nt : bool) : string :=
  if nt then String cr (String nl EmptyString) else String nl EmptyString.

(** The bytes of [state/audit_{run_id}.jsonl]: each line is
    [json.dumps(entry, ensure_ascii=False) + "\n"], written as UTF-8. *)
Fixpoint audit_file_bytes (nt : bool) (lines : list dict) : string :=
  match lines with
  | [] => EmptyString
  | d :: ls => utf8_encode (audit_line_text d) ++ line_end nt ++ audit_file_bytes nt ls
  end.

(** [f.seek(max(0, size - 4096)); f.read().decode("utf-8", errors="ignore")] *)
Definition audit_tail (b : string) : string :=
  utf8_decode (str_drop (String.length b - 4096) b).

(** The [prev_hash] that [audit_log] reads: [*_, last_line =
    tail.strip().splitlines()], then [json.loads(last_line).get("hash", "")];
    an exception inside the [try] ([ValueError] for no line, a JSON error,
    [AttributeError] when the value is not a dict) gives [""]. The value
    is whatever JSON value the key holds. An empty file gives no line. *)
Definition audit_prev_hash (nt : bool) (lines : list dict) : json :=
  match last_opt (splitlines (py_strip (audit_tail (audit_file_bytes nt lines)))) with
  | None => JStr EmptyString
  | Some line =>
      match json_loads line with
      | Some (JObj kv) => with_default (dict_get_rev kv "hash") (JStr EmptyString)
      | _ => JStr EmptyString
      end
  end.

(** [prev_hash] is a string: [prev_hash + json.dumps(...)] does not raise. *)
Definition audit_readable (nt : bool) (lines : list dict) : bool :=
  match audit_prev_hash nt lines with JStr _ => true | _ => false end.

(** The message of the [TypeError] of [prev_hash + "..."] when [prev_hash]
    is not a string. *)
Definition concat_type_error (v : json) : string :=
  match v with
  | JArr _ => "can only concatenate list (not " ++ String dquote ("str" ++ String dquote ") to list")
  | _ =>
      "unsupported operand type(s) for +: '" ++
      match v with
      | JNull => "NoneType" | JBool _ => "bool" | JInt _ => "int" | JObj _ => "dict"
      | _ => "str"
      end ++ "' and 'str'"
  end.

(** The [entry] dict before hashing. *)
Definition audit_entry (ts : string) (stage : option string) (ev message : string)
    (extra : dict) : dict :=
  let entry :=
    [("ts", JStr ts);
     ("stage", match stage with Some n => JStr n | None => JNull end);
     ("event", JStr ev);
     ("message", JStr message)] in
  match extra with [] => entry | _ => dict_update entry extra end.

(** [hashlib.sha256((prev_hash + json.dumps(entry, sort_keys=True)).encode("utf-8"))] *)
Definition chain_hash (prev_hash : string) (entry : dict) : string :=
  sha256_hex (utf8_encode (prev_hash ++ dumps_sorted entry)).

(** The line [audit_log] appends: the entry with [hash], then [prevHash]. *)
Definition audit_stored (prev_hash : string) (entry : dict) : dict :=
  dict_set (dict_set entry "hash" (JStr (chain_hash prev_hash entry)))
    "prevHash" (JStr prev_hash).

(** [audit_log(run_id, stage, event, message, extra)] *)
Definition audit_log (run_id : string) (stage : option string) (ev message : string)
    (extra : dict) : M unit :=
  fun E w =>
    let lines := w_audit w run_id in
    match audit_prev_hash (e_os_nt E) lines with
    | JStr prev_hash =>
        let stored := audit_stored prev_hash (audit_entry (e_now E) stage ev message extra) in
        (Ret tt, emit (EAudit run_id stage ev)
                   (set_w_audit w (upd (w_audit w) run_id (lines ++ [stored])%list)))
    | v => (Raise (TypeError (concat_type_error v)), w)
    end.

(** ** Files of the engine *)

Definition STATE_DIR : string := "state".
Definition LOCKS_DIR : string := "locks".

(** The prefixes of a path that end before a slash, shortest first:
    ["a/b/c"] gives ["a"] and ["a/b"]. *)
Fixpoint slash_prefixes (s : string) : list string :=
  match s with
  | EmptyString => []
  | String c s' =>
      let rest := map (String c) (slash_prefixes s') in
      match s' with
      | String c2 _ => if Ascii.eqb c2 "/" then String c EmptyString :: rest else rest
      | EmptyString => rest
      end
  end.

(** The exception of [os.makedirs(d, exist_ok=True)] (for a path without a
    trailing or doubled slash): none when [d] is a directory already;
    [FileNotFoundError] for [""]; when [d] or one of its parents is a
    regular file, [FileExistsError] for [d] itself and [NotADirectoryError]
    naming the path below that file otherwise. *)
Definition makedirs_error (d : string) (w : World) : option exn :=
  if existsb (String.eqb d) (w_dirs w) then None
  else if String.eqb d EmptyString then
    Some (FileNotFoundError "[Errno 2] No such file or directory: ''")
  else
    let fix first_file (cs : list string) : option exn :=
      match cs with
      | [] => None
      | c :: cs' =>
          match w_fs w c with
          | Some _ =>
              match cs' with
              | [] => Some (FileExistsError ("[Errno 17] File exists: '" ++ c ++ "'"))
              | c' :: _ => Some (NotADirectoryError ("[Errno 20] Not a directory: '" ++ c' ++ "'"))
              end
          | None => first_file cs'
          end
      end in
    first_file (slash_prefixes d ++ [d])%list.

(** The world after [os.makedirs(output_dir, exist_ok=True)] succeeds. *)
Definition makedirs_world (d : string) (w : World) : World :=
  if existsb (String.eqb d) (w_dirs w) then w
  else emit (EMkdir d) (set_w_dirs w (w_dirs w ++ [d])%list).

(** [os.makedirs(d, exist_ok=True)] *)
Definition makedirs (d : string) : M unit :=
  fun _ w =>
    match makedirs_error d w with
    | Some e => (Raise e, w)
    | None => (Ret tt, makedirs_world d w)
    end.

(** [load_stage_state(name)] *)
Definition load_stage_state (name : string) : M StageState :=
  gets (fun w => with_default (w_stage_states w name) empty_stage_state).

(** [save_stage_state(name, data)] *)
Definition save_stage_state (name : string) (ss : StageState) : M unit :=
  modify (fun w =>
    emit (EWriteStageState name)
      (set_w_stage_states w (upd (w_stage_states w) name (Some ss)))).

(** [read_checkpoint(name)] *)
Definition read_checkpoint (name : string) : M Z :=
  gets (fun w => match w_progress w name with Some (PInt n) => n | _ => 0 end).

(** [write_checkpoint(name, line_offset)] *)
Definition write_checkpoint (name : string) (line_offset : Z) : M unit :=
  modify (fun w =>
    emit (EWriteCheckpoint name)
      (set_w_progress w (upd (w_progress w) name (Some (PInt line_offset))))).

(** [os.path.exists(output_marker)] *)
Definition marker_exists (path : string) : M bool :=
  gets (fun w => existsb (String.eqb path) (w_markers w)).

(** [atomic_write_text(output_marker, timestamp)] *)
Definition write_marker (path : string) : M unit :=
  modify (fun w =>
    let ms := if existsb (String.eqb path) (w_markers w) then w_markers w
              else (w_markers w ++ [path])%list in
    emit (EWriteMarker path) (set_w_markers w ms)).

(** [save_run_state(run_id, data)] *)
Definition save_run_state (run_id state : string) : M unit :=
  modify (fun w =>
    emit (EWriteRunState run_id state)
      (set_w_run_states w (upd (w_run_states w) run_id (Some state)))).

(** [msvcrt.locking(fd, LK_LOCK, 1)] makes 10 attempts one second apart
    and then raises [OSError] with [EDEADLOCK]. *)
Definition LK_LOCK_TRIES : nat := 10.
Definition EDEADLOCK_MSG : string := "[Errno 36] Resource deadlock avoided".

(** [FileLock.acquire]: [open(path, "a+")], then
    - elsewhere than on Windows, a blocking [fcntl.flock(LOCK_EX)] (no
      timeout): it returns once the other holder has released the lock, and
      never returns when nobody does;
    - on Windows, [msvcrt.locking(LK_LOCK)]: it returns when the lock is
      released within the retries, and raises [OSError] otherwise (the
      [except] block closes the file and re-raises). *)
Definition FileLock_acquire (path : string) : M unit :=
  fun E w =>
    let w := emit (EOpenLock path) w in
    if e_os_nt E then
      match w_locks w path with
      | Free => (Ret tt, w)
      | HeldFor t =>
          if Nat.ltb t LK_LOCK_TRIES then
            (Ret tt, set_w_locks (set_w_clock w (w_clock w + t)%nat) (upd (w_locks w) path Free))
          else
            (Raise (OSError EDEADLOCK_MSG),
             set_w_locks (set_w_clock w (w_clock w + (LK_LOCK_TRIES - 1))%nat)
               (upd (w_locks w) path (HeldFor (t - (LK_LOCK_TRIES - 1)))))
      | HeldForever =>
          (Raise (OSError EDEADLOCK_MSG), set_w_clock w (w_clock w + (LK_LOCK_TRIES - 1))%nat)
      end
    else
      match w_locks w path with
      | Free => (Ret tt, w)
      | HeldFor t =>
          (Ret tt, set_w_locks (set_w_clock w (w_clock w + t)%nat) (upd (w_locks w) path Free))
      | HeldForever => (Blocked, w)
      end.

(** [subprocess.run([sys.executable, processor] + inputs, ...)]: the next
    subprocess's behaviour; it may write its progress file and other files. *)
Definition spawn (processor name : string) : M ProcResult :=
  fun E w =>
    let r := e_behaviour E (w_spawned w) in
    let w := set_w_spawned w (S (w_spawned w)) in
    let w := match pr_progress r with
             | Some n => set_w_progress w (upd (w_progress w) name (Some (PInt n)))
             | None => w
             end in
    let w := set_w_fs w (fold_left (fun f pf => fun q =>
                                      if String.eqb q (fst pf) then Some (snd pf) else f q)
                                   (pr_writes r) (w_fs w)) in
    (Ret r, emit (ESpawn processor (pr_returncode r)) w).

(** [time.sleep(delay)] before attempt [k + 1]. *)
Definition sleep (k : Z) : M unit := modify (emit (ESleep k)).


(** ** The stage executor *)

(** [repr] of a list of strings. *)
Definition py_list_repr (l : list string) : string :=
  "[" ++ String.concat ", " (map (fun m => "'" ++ m ++ "'") l) ++ "]".

(** [enforce_offline_guard(processor_path)]: scanning opens the file. *)
Definition enforce_offline_guard (processor_path : string) : M unit :=
  fun E w =>
    match e_src E processor_path with
    | None =>
        (Raise (FileNotFoundError
                  ("[Errno 2] No such file or directory: '" ++ processor_path ++ "'")), w)
    | Some body =>
        match scan_for_banned_imports body with
        | [] => (Ret tt, w)
        | banned =>
            (Raise (RuntimeError ("Offline guard violation: " ++ processor_path
                                  ++ " imports banned modules: " ++ py_list_repr banned)), w)
        end
    end.

(** The locals of [run_stage] that the retry loop updates. *)
Record LoopState : Type := mkLoop {
  ls_attempts : Z;
  ls_status : string;
  ls_last_error : option string;
  ls_state : StageState
}.

(** [should_retry(exit_code)], with [attempts] the current attempt. *)
Definition should_retry (stage : Stage) (attempts exit_code : Z) : bool :=
  if attempts >=? max_attempts stage then false
  else match retryable_exit_codes stage with
       | [] => true
       | codes => existsb (Z.eqb exit_code) codes
       end.

(** [try: body finally: on_exit]: [on_exit] sees the body's result, or
    [None] when the body raised; an exception of the body is re-raised after
    it. *)
Definition try_finally {A B} (body : M A) (on_exit : option A -> M B) : M (A * B) :=
  fun E w =>
    match body E w with
    | (Ret a, w1) =>
        match on_exit (Some a) E w1 with
        | (Ret b, w2) => (Ret (a, b), w2)
        | (Raise e, w2) => (Raise e, w2)
        | (Blocked, w2) => (Blocked, w2)
        end
    | (Raise e, w1) =>
        match on_exit None E w1 with
        | (Ret _, w2) => (Raise e, w2)
        | (Raise e', w2) => (Raise e', w2)
        | (Blocked, w2) => (Blocked, w2)
        end
    | (Blocked, w1) => (Blocked, w1)
    end.

(** The [try] block of one attempt [k]. It returns whether the loop
    continues, the [attempt_info] dict and the updated locals. *)
Definition attempt_body (stage : Stage) (run_id output_marker : string) (k : Z)
    (ai0 : AttemptInfo) (ls : LoopState) : M (bool * AttemptInfo * LoopState) :=
  let name := st_name stage in
  let processor := st_processor stage in
  ex <- gets (fun w => match w_fs w processor with Some _ => true | None => false end) ;;
  if negb ex then raise (FileNotFoundError ("Processor not found: " ++ processor)) else
  (if use_lock stage then FileLock_acquire (path_join LOCKS_DIR (name ++ ".lock"))
   else ret tt) ;;
  proc <- spawn processor name ;;
  let rc := pr_returncode proc in
  let ai1 := mkAttempt k (ai_startedAt ai0) (Some (pr_stdout proc)) (Some (pr_stderr proc))
               None None None None in
  if negb (rc =? 0) then
    let last_error :=
      if negb (String.eqb (pr_stderr proc) "") then pr_stderr proc
      else if negb (String.eqb (pr_stdout proc) "") then pr_stdout proc
      else "exit " ++ str_of_Z rc in
    let ai2 := mkAttempt k (ai_startedAt ai0) (Some (pr_stdout proc)) (Some (pr_stderr proc))
                 (Some "failed") (Some last_error) (Some rc) None in
    let ls' := mkLoop k (ls_status ls) (Some last_error) (ls_state ls) in
    audit_log run_id (Some name) "fail" last_error
      [("attempt", JInt k); ("exitCode", JInt rc)] ;;
    if should_retry stage k rc && (k <? max_attempts stage) then
      sleep k ;; ret (true, ai2, ls')
    else ret (false, ai2, ls')
  else
    let ai2 := mkAttempt k (ai_startedAt ai0) (Some (pr_stdout proc)) (Some (pr_stderr proc))
                 (Some "ok") None None None in
    write_marker output_marker ;;
    (if checkpoint_enabled stage then
       prog <- gets (fun w => w_progress w name) ;;
       match prog with
       | Some (PInt n) => write_checkpoint name n
       | Some PNoKey => write_checkpoint name 0
       | _ => ret tt
       end
     else ret tt) ;;
    ret (false, ai2, mkLoop k "ok" (ls_last_error ls) (ls_state ls)).

(** One iteration of [while attempts < max_attempts]: [attempts += 1], the
    [start] audit, the [try] block, and the [finally] block that appends
    [attempt_info] to the history and saves the StageState. *)
Definition run_attempt (stage : Stage) (run_id output_marker : string) (ls : LoopState)
    : M (bool * LoopState) :=
  let name := st_name stage in
  let k := ls_attempts ls + 1 in
  now <- env e_now ;;
  let ai0 := attempt_start k now in
  audit_log run_id (Some name) "start" ("Attempt " ++ str_of_Z k) [] ;;
  r <- try_finally (attempt_body stage run_id output_marker k ai0 ls)
         (fun res =>
            let ai := match res with Some (_, ai, _) => ai | None => ai0 end in
            let ai := mkAttempt (ai_attempt ai) (ai_startedAt ai) (ai_stdout ai) (ai_stderr ai)
                        (ai_status ai) (ai_error ai) (ai_exitCode ai) (Some now) in
            let ss := ls_state ls in
            let ss := mkStageState (Some (with_default (ss_history ss) [] ++ [ai])%list)
                        (ss_lastDurationSec ss) (ss_lastStatus ss) (ss_attempts ss)
                        (ss_idempotencyKey ss) in
            save_stage_state name ss ;; ret ss) ;;
  match r with
  | ((cont, _, ls'), ss) =>
      ret (cont, mkLoop (ls_attempts ls') (ls_status ls') (ls_last_error ls') ss)
  end.

(** [while attempts < max_attempts: ...]; [fuel] bounds the iterations
    (each one increments [attempts]). *)
Fixpoint attempt_loop (fuel : nat) (stage : Stage) (run_id output_marker : string)
    (ls : LoopState) : M LoopState :=
  match fuel with
  | O => ret ls
  | S f =>
      if ls_attempts ls <? max_attempts stage then
        r <- run_attempt stage run_id output_marker ls ;;
        let (cont, ls') := r in
        if cont then attempt_loop f stage run_id output_marker ls' else ret ls'
      else ret ls
  end.

(** The dict [run_stage] returns, by its [status]. *)
Inductive StageResult : Type :=
| StageOk (attempts : Z)
| StageSkipped
| StageFailed (error : option string).

(** The equality [stage_state.get("idempotencyKey") == idem_key]. *)
Definition key_eqb (a b : option string) : bool :=
  match a, b with
  | Some x, Some y => String.eqb x y
  | None, None => true
  | _, _ => false
  end.

(** The part of [run_stage] after the skip test: the checkpoint read, the
    retry loop, the final StageState update and the result. *)
Definition run_stage_execute (stage : Stage) (run_id : string) (stage_state : StageState)
    (idem_key : option string) (output_marker : string) : M StageResult :=
  let name := st_name stage in
  let idem := idem_enabled stage in
  _line_offset <- (if checkpoint_enabled stage then read_checkpoint name else ret 0) ;;
  start_ts <- gets w_clock ;;
  ls <- attempt_loop (Z.to_nat (max_attempts stage)) stage run_id output_marker
          (mkLoop 0 "failed" None stage_state) ;;
  end_ts <- gets w_clock ;;
  let duration := Z.of_nat (end_ts - start_ts) in
  let attempts := ls_attempts ls in
  let status := ls_status ls in
  let ss := ls_state ls in
  let ss := mkStageState (ss_history ss) (Some duration) (Some status) (Some attempts)
              (if idem then idem_key else ss_idempotencyKey ss) in
  save_stage_state name ss ;;
  if negb (String.eqb status "ok") then
    audit_log run_id (Some name) "fail" (with_default (ls_last_error ls) "unknown error")
      [("attempts", JInt attempts)] ;;
    ret (StageFailed (ls_last_error ls))
  else
    audit_log run_id (Some name) "done" ("Duration " ++ str_of_Z duration ++ "s") [] ;;
    ret (StageOk attempts).

(** [os.path.join(output_dir, f".{name}.done")] *)
Definition marker_path (stage : Stage) : string :=
  path_join (st_outputDir stage) ("." ++ st_name stage ++ ".done").

(** [stage_state.setdefault("history", [])] *)
Definition default_history (ss : StageState) : StageState :=
  mkStageState (Some (with_default (ss_history ss) [])) (ss_lastDurationSec ss)
    (ss_lastStatus ss) (ss_attempts ss) (ss_idempotencyKey ss).

(** [run_stage(stage, run_id)] *)
Definition run_stage (stage : Stage) (run_id : string) : M StageResult :=
  let name := st_name stage in
  let processor := st_processor stage in
  let inputs := stage_inputs stage in
  let params := stage_params stage in
  let idem := idem_enabled stage in
  makedirs (st_outputDir stage) ;;
  ss0 <- load_stage_state name ;;
  let stage_state := default_history ss0 in
  (if offline_guard stage then enforce_offline_guard processor else ret tt) ;;
  idem_key <- gets (fun w =>
    if idem then Some (compute_idempotency_key (w_fs w) inputs processor params)
    else None) ;;
  let output_marker := marker_path stage in
  mk <- marker_exists output_marker ;;
  if idem && key_eqb (ss_idempotencyKey stage_state) idem_key && mk then
    audit_log run_id (Some name) "skip" ("[SKIP] " ++ name ++ " (idempotent key matched)") [] ;;
    ret StageSkipped
  else run_stage_execute stage run_id stage_state idem_key output_marker.

Definition is_failed (r : StageResult) : bool :=
  match r with StageFailed _ => true | _ => false end.

(** The [for stage in pipeline["stages"]] loop of [run_pipeline], with its
    [else] branch: the results and the final run state. *)
Fixpoint run_stages (stages : list Stage) (run_id : string) (results : list StageResult)
    : M (list StageResult * string) :=
  match stages with
  | [] => ret (results, "completed")
  | stage :: rest =>
      res <- run_stage stage run_id ;;
      let results := (results ++ [res])%list in
      if is_failed res then ret (results, "failed")
      else run_stages rest run_id results
  end.

(** [aggregate_metrics(run_id, results)] *)
Definition aggregate_metrics (run_id : string) (results : list StageResult) : M unit :=
  modify (emit (EWriteMetrics run_id)).

(** [run_pipeline(pipeline_path, run_id)] after [load_pipeline]; it returns
    [run_state["state"]]. *)
Definition run_pipeline (pipeline : Pipeline) (run_id : string) : M string :=
  let stages := map validate_stage (p_stages pipeline) in
  audit_log run_id None "run_start"
    ("Pipeline " ++ with_default (p_name pipeline) "None") [] ;;
  (match p_name pipeline with None => raise (KeyError "name") | Some _ => ret tt end) ;;
  save_run_state run_id "running" ;;
  r <- run_stages stages run_id [] ;;
  let (results, state) := r in
  save_run_state run_id state ;;
  aggregate_metrics run_id results ;;
  audit_log run_id None "run_end" state [] ;;
  ret state.

(** [main()] as the process sees it: the exit status. [main] returns
    [None] (status 0); an uncaught exception ends the interpreter with
    status 1. *)
Definition main (pipeline : Pipeline) (run_id : string) : M Z :=
  fun E w =>
    match run_pipeline pipeline run_id E w with
    | (Ret _, w') => (Ret 0, w')
    | (Raise _, w') => (Ret 1, w')
    | (Blocked, w') => (Blocked, w')
    end.

(** ** Statements about the model *)

(** [n] is a node of the statement lists [l], at any depth. *)
Inductive occurs (n : stmt) : list stmt -> Prop :=
| occurs_here l : In n l -> occurs n l
| occurs_below b l : In (Block b) l -> occurs n b -> occurs n l.

(** The node is an import whose module name starts with a banned prefix. *)
Definition imports_banned (n : stmt) : bool :=
  match n with
  | Import names => existsb startswith_banned names
  | ImportFrom module _ => startswith_banned (with_default module "")
  | _ => false
  end.

(** The reading of the guard in the spec: a top-level import of a module in
    the closed set, matched exactly. *)
Definition spec_banned_set : list string :=
  ["requests"; "socket"; "http.client"; "urllib"; "urllib3"; "httpx"; "aiohttp"].

Definition spec_top_level_banned (body : list stmt) : bool :=
  existsb (fun n =>
    match n with
    | Import names => existsb (fun m => existsb (String.eqb m) spec_banned_set) names
    | ImportFrom (Some m) _ => existsb (String.eqb m) spec_banned_set
    | _ => false
    end) body.




(** The offline guard lets the stage's processor through: the guard is off,
    or the processor's source is readable and imports nothing banned. *)
Definition guard_ok (E : Env) (stage : Stage) : Prop :=
  offline_guard stage = false \/
  exists body, e_src E (st_processor stage) = Some body /\ scan_for_banned_imports body = [].

(** The StageState [run_stage] loads, with its history defaulted. *)
Definition loaded_state (stage : Stage) (w : World) : StageState :=
  default_history (with_default (w_stage_states w (st_name stage)) empty_stage_state).

(** The fingerprint of the stage in the working tree [w]. *)
Definition stage_key (stage : Stage) (w : World) : string :=
  compute_idempotency_key (w_fs w) (stage_inputs stage) (st_processor stage)
    (stage_params stage).

(** The lock file of a stage, [os.path.join(LOCKS_DIR, f"{name}.lock")]. *)
Definition lock_path (stage : Stage) : string :=
  path_join LOCKS_DIR (st_name stage ++ ".lock").

(** Reading a trace of the engine: [last] is the exit code of the most
    recent subprocess ([None] before the first one); a checkpoint write is
    allowed only while that exit code is 0. *)
Fixpoint cp_after_ok (last : option Z) (tr : list event) : bool :=
  match tr with
  | [] => true
  | ESpawn _ rc :: tr' => cp_after_ok (Some rc) tr'
  | EWriteCheckpoint _ :: tr' =>
      match last with
      | Some 0 => cp_after_ok last tr'
      | _ => false
      end
  | _ :: tr' => cp_after_ok last tr'
  end.

Definition is_spawn (e : event) : bool :=
  match e with ESpawn _ _ => true | _ => false end.
Definition is_cp_write (e : event) : bool :=
  match e with EWriteCheckpoint _ => true | _ => false end.

(** The exit code of the latest subprocess after the events [tr]. *)
Fixpoint last_rc (last : option Z) (tr : list event) : option Z :=
  match tr with
  | [] => last
  | ESpawn _ rc :: tr' => last_rc (Some rc) tr'
  | _ :: tr' => last_rc last tr'
  end.

(** Three properties of the events a computation adds to the trace. *)
Definition no_spawn_cp (l : list event) : Prop :=
  forallb (fun e => negb (is_spawn e || is_cp_write e)) l = true.
Definition no_spawn (l : list event) : Prop :=
  forallb (fun e => negb (is_spawn e)) l = true.
Definition cp_clean (l : list event) : Prop :=
  forall last, cp_after_ok last l = true.

(** A property of event lists that holds of [[]] and of concatenations. *)
Definition closed (P : list event -> Prop) : Prop :=
  P [] /\ forall a b, P a -> P b -> P (a ++ b)%list.

(** Whatever the outcome, the computation appends to the trace events that
    have the property [P]. *)
Definition ext_ok (P : list event -> Prop) {A : Type} (m : M A) : Prop :=
  forall E w, exists new, w_trace (snd (m E w)) = (w_trace w ++ new)%list /\ P new.

(** The order of [sort_keys=True] on the entries of a dict. *)
Definition key_lt (a b : string * json) : Prop := String.compare (fst a) (fst b) = Lt.

(** ** The metrics of [aggregate_metrics] *)

(** The dict [run_stage] returns for the stage [name]. *)
Definition stage_result_dict (name : string) (r : StageResult) : dict :=
  match r with
  | StageSkipped => [("stage", JStr name); ("status", JStr "skipped")]
  | StageFailed err =>
      [("stage", JStr name); ("status", JStr "failed");
       ("error", match err with Some e => JStr e | None => JNull end)]
  | StageOk a => [("stage", JStr name); ("status", JStr "ok"); ("attempts", JInt a)]
  end.

(** [sum(1 for r in results if r["status"] == s)]; [None] is the
    [KeyError] of a result without [status]. *)
Fixpoint count_status (s : string) (results : list dict) : option Z :=
  match results with
  | [] => Some 0
  | r :: rest =>
      match dict_get r "status" with
      | None => None
      | Some v =>
          match count_status s rest with
          | None => None
          | Some n =>
              Some ((match v with JStr t => if String.eqb t s then 1 else 0 | _ => 0 end) + n)
          end
      end
  end.

(** [sum(r.get("durationSec", 0) for r in results if isinstance(r, dict))];
    [None] is the [TypeError] of a value that is not a number ([bool] counts
    as 0 or 1). *)
Fixpoint sum_duration (results : list dict) : option Z :=
  match results with
  | [] => Some 0
  | r :: rest =>
      match with_default (dict_get r "durationSec") (JInt 0), sum_duration rest with
      | JInt d, Some n => Some (d + n)
      | JBool b, Some n => Some ((if b then 1 else 0) + n)
      | _, _ => None
      end
  end.

(** The [metrics] dict that [aggregate_metrics] writes, with [ts] the
    timestamp; [None] when building it raises. *)
Definition metrics_dict (run_id ts : string) (results : list dict) : option dict :=
  match count_status "failed" results, count_status "skipped" results,
        count_status "ok" results, sum_duration results with
  | Some f, Some sk, Some o, Some d =>
      Some [("runId", JStr run_id); ("timestamp", JStr ts);
            ("stages", JArr (map JObj results));
            ("totalStages", JInt (Z.of_nat (length results)));
            ("failedStages", JInt f); ("skippedStages", JInt sk);
            ("okStages", JInt o); ("durationSec", JInt d)]
  | _, _, _, _ => None
  end.

(** Hoare triples on the completion markers: run from a world whose
    markers satisfy [P], [m] returns, when it returns, a value [a] and a
    world whose markers satisfy [Q a]. *)
Definition mk_triple {A : Type} (P : list string -> Prop) (m : M A)
    (Q : A -> list string -> Prop) : Prop :=
  forall E w, P (w_markers w) ->
    match m E w with (Ret a, w') => Q a (w_markers w') | _ => True end.

(** [m] leaves the completion markers as they are. *)
Definition keeps_markers {A : Type} (m : M A) : Prop :=
  forall E w, w_markers (snd (m E w)) = w_markers w.

(** [m] leaves the RunState files as they are, whatever its outcome. *)
Definition keeps_run_states {A : Type} (m : M A) : Prop :=
  forall E w, w_run_states (snd (m E w)) = w_run_states w.

(** [m] runs at most [n] subprocesses, whatever its outcome. *)
Definition spawn_bound {A : Type} (n : nat) (m : M A) : Prop :=
  forall E w, (w_spawned (snd (m E w)) <= w_spawned w + n)%nat.

(** * Properties *)

(** ** Fingerprint *)

(** ** Helpers of the proofs about [json.dumps], [json.loads] and the audit file *)

(** A text that may follow a JSON value inside its enclosing array or object. *)
Definition ends_value (rest : string) : bool :=
  match rest with
  | EmptyString => true
  | String c _ => Ascii.eqb c "," || Ascii.eqb c "]" || Ascii.eqb c "}"
  end.

(** One member of a printed object. *)
Definition member_text (ea : bool) (kx : string * json) : string :=
  json_string_with ea (fst kx) ++ ": " ++ json_dumps_with ea (snd kx).


(** Induction on [json] with hypotheses for the elements of arrays and
    objects. *)
Fixpoint json_ind' (P : json -> Prop) (HNull : P JNull) (HBool : forall b, P (JBool b))
    (HInt : forall z, P (JInt z)) (HStr : forall s, P (JStr s))
    (HArr : forall l, Forall P l -> P (JArr l))
    (HObj : forall kv, Forall (fun kx => P (snd kx)) kv -> P (JObj kv)) (v : json) : P v :=
  let rec := json_ind' P HNull HBool HInt HStr HArr HObj in
  match v with
  | JNull => HNull
  | JBool b => HBool b
  | JInt z => HInt z
  | JStr s => HStr s
  | JArr l =>
      HArr l ((fix go (l : list json) : Forall P l :=
                 match l with
                 | [] => Forall_nil _
                 | x :: l' => Forall_cons _ (rec x) (go l')
                 end) l)
  | JObj kv =>
      HObj kv ((fix go (kv : dict) : Forall (fun kx => P (snd kx)) kv :=
                  match kv with
                  | [] => Forall_nil _
                  | kx :: kv' => Forall_cons _ (rec (snd kx)) (go kv')
                  end) kv)
  end.

(** Parsing the printed [v] gives [v] back, from any fuel large enough. *)
Definition RT (v : json) : Prop :=
  forall fuel rest, (String.length (json_dumps_with false v) <= fuel)%nat -> ends_value rest = true ->
  parse_value fuel (json_dumps_with false v ++ rest) = Some (v, rest).


(** Only whitespace of [str.isspace]. *)
Definition all_space (s : string) : bool := forallb py_isspace (list_ascii_of_string s).

Section JsonFacts.
Local Open Scope nat_scope.

Lemma sapp_assoc (a b c : string) : (a ++ b) ++ c = a ++ (b ++ c).
Proof. induction a as [|x a IH]; simpl; [reflexivity | now rewrite IH]. Qed.

Lemma sapp_nil_r (a : string) : a ++ EmptyString = a.
Proof. induction a as [|x a IH]; simpl; [reflexivity | now rewrite IH]. Qed.

Lemma slen_app (a b : string) : String.length (a ++ b) = (String.length a + String.length b)%nat.
Proof. induction a as [|x a IH]; simpl; [reflexivity | now rewrite IH]. Qed.

Lemma escape_char_parse (c : ascii) (t : string) :
  parse_string_body (json_escape_char_with false c ++ t) = cons_fst c (parse_string_body t).
Proof. destruct c as [[] [] [] [] [] [] [] []]; reflexivity. Qed.

Lemma escape_parse (s rest : string) :
  parse_string_body (json_escape_with false s ++ String dquote rest) = Some (s, rest).
Proof.
  induction s as [|c s IH]; [reflexivity|].
  cbn [json_escape_with]. rewrite sapp_assoc, escape_char_parse, IH. reflexivity.
Qed.

Lemma string_parse (s rest : string) :
  parse_string_body (json_escape_with false s ++ String dquote rest) = Some (s, rest).
Proof. apply escape_parse. Qed.



Lemma span_end (rest : string) : ends_value rest = true -> span_digits rest = (EmptyString, rest).
Proof.
  destruct rest as [|c r]; [reflexivity|]. intros H.
  destruct c as [[] [] [] [] [] [] [] []]; try discriminate H; reflexivity.
Qed.

Lemma float_follows_end (rest : string) : ends_value rest = true -> float_follows rest = false.
Proof.
  destruct rest as [|c r]; [reflexivity|]. intros H.
  destruct c as [[] [] [] [] [] [] [] []]; try discriminate H; reflexivity.
Qed.

Lemma span_uint (u : Decimal.uint) (rest : string) : ends_value rest = true ->
  span_digits (NilEmpty.string_of_uint u ++ rest) = (NilEmpty.string_of_uint u, rest).
Proof.
  intros H. induction u; simpl; try rewrite IHu; try reflexivity. now apply span_end.
Qed.

Lemma to_uint_head (p : positive) :
  match Pos.to_uint p with Decimal.Nil | Decimal.D0 _ => False | _ => True end.
Proof.
  pose proof (DecimalPos.Unsigned.to_of (Pos.to_uint p)) as H.
  rewrite DecimalPos.Unsigned.of_to in H. cbn [N.to_uint] in H.
  pose proof (DecimalPos.Unsigned.to_uint_nonzero p) as Hz.
  pose proof (DecimalPos.Unsigned.to_uint_nonnil p) as Hn.
  destruct (Pos.to_uint p) as [|u|u|u|u|u|u|u|u|u|u]; auto.
  rewrite DecimalFacts.unorm_D0 in H.
  destruct (Decimal.uint_eq_dec u Decimal.Nil) as [->|Hu]; [now apply Hz|].
  pose proof (DecimalFacts.nb_digits_unorm u Hu) as Hle.
  apply (f_equal Decimal.nb_digits) in H. cbn [Decimal.nb_digits] in H. lia.
Qed.

Lemma parse_int_uint (neg : bool) (u : Decimal.uint) (rest : string) :
  ends_value rest = true ->
  match u with Decimal.Nil => False | Decimal.D0 Decimal.Nil => True | Decimal.D0 _ => False | _ => True end ->
  parse_int ((if neg then String "-" EmptyString else EmptyString) ++
             (NilEmpty.string_of_uint u ++ rest)) =
  Some (JInt (Z.of_int (if neg then Decimal.Neg u else Decimal.Pos u)), rest).
Proof.
  intros H Hu.
  pose proof (span_uint u rest H) as Hs.
  pose proof (float_follows_end rest H) as Hf.
  assert (Hlz : leading_zero (NilEmpty.string_of_uint u) = false)
    by (destruct u as [|[]|u|u|u|u|u|u|u|u|u]; try contradiction; try reflexivity;
        unfold leading_zero; cbn [NilEmpty.string_of_uint];
        destruct (NilEmpty.string_of_uint u); reflexivity).
  assert (Hne : NilEmpty.string_of_uint u <> EmptyString)
    by (destruct u; try contradiction; discriminate).
  assert (Hhd : exists c t, NilEmpty.string_of_uint u = String c t /\ Ascii.eqb c "-" = false)
    by (destruct u; try contradiction; eexists; eexists; split; reflexivity).
  destruct Hhd as (c & t & Ht & Hc).
  destruct neg; unfold parse_int; cbn [append Ascii.eqb Bool.eqb andb].
  - rewrite Hs.
    destruct (NilEmpty.string_of_uint u) eqn:E; [contradiction|].
    rewrite Hlz, Hf. cbn [orb].
    rewrite <- E. change (String "-" (NilEmpty.string_of_uint u))
      with (NilEmpty.string_of_int (Decimal.Neg u)).
    rewrite NilEmpty.isi. reflexivity.
  - rewrite Ht. cbn [append]. rewrite Hc. cbv iota beta.
    change (String c (t ++ rest)) with (String c t ++ rest).
    rewrite <- Ht, Hs.
    destruct (NilEmpty.string_of_uint u) eqn:E; [contradiction|].
    rewrite Hlz, Hf, <- E. cbn [orb append].
    change (NilEmpty.string_of_uint u) with (NilEmpty.string_of_int (Decimal.Pos u)).
    rewrite NilEmpty.isi. reflexivity.
Qed.

Lemma parse_int_str (z : Z) (rest : string) :
  ends_value rest = true -> parse_int (str_of_Z z ++ rest) = Some (JInt z, rest).
Proof.
  intros H. destruct z as [|p|p].
  - exact (parse_int_uint false (Decimal.D0 Decimal.Nil) rest H I).
  - pose proof (to_uint_head p) as Hp.
    pose proof (parse_int_uint false (Pos.to_uint p) rest H) as Hr.
    cbv iota beta in Hr. change (Decimal.Pos (Pos.to_uint p)) with (Z.to_int (Zpos p)) in Hr.
    rewrite DecimalZ.of_to in Hr. apply Hr.
    destruct (Pos.to_uint p); try contradiction; exact I.
  - pose proof (to_uint_head p) as Hp.
    pose proof (parse_int_uint true (Pos.to_uint p) rest H) as Hr.
    cbv iota beta in Hr. change (Decimal.Neg (Pos.to_uint p)) with (Z.to_int (Zneg p)) in Hr.
    rewrite DecimalZ.of_to in Hr. apply Hr.
    destruct (Pos.to_uint p); try contradiction; exact I.
Qed.

Lemma dumps_arr (ea : bool) (l : list json) :
  json_dumps_with ea (JArr l) = "[" ++ String.concat ", " (map (json_dumps_with ea) l) ++ "]".
Proof.
  reflexivity.
Qed.

Lemma dumps_obj (ea : bool) (kv : dict) :
  json_dumps_with ea (JObj kv) = "{" ++ String.concat ", " (map (member_text ea) kv) ++ "}".
Proof.
  cbn [json_dumps_with]. do 3 f_equal.
  induction kv as [|[k x] kv IH]; [reflexivity|]. cbn [map]. rewrite <- IH. reflexivity.
Qed.


Lemma str_of_Z_head (z : Z) :
  exists c t, str_of_Z z = String c t /\ (Ascii.eqb c "-" = true \/ is_digit c = true).
Proof.
  destruct z as [|p|p]; [do 2 eexists; split; [reflexivity | right; reflexivity] | |];
  pose proof (to_uint_head p) as Hp; unfold str_of_Z; cbn [Z.to_int NilEmpty.string_of_int];
  [| do 2 eexists; split; [reflexivity | left; reflexivity]].
  destruct (Pos.to_uint p); try contradiction;
  do 2 eexists; (split; [reflexivity | right; reflexivity]).
Qed.

(** The printed value starts with a character that is not whitespace and
    not a closing bracket. *)
Lemma dumps_head (v : json) :
  exists c t, json_dumps_with false v = String c t /\ is_json_ws c = false /\
    Ascii.eqb c "]" = false /\ Ascii.eqb c "}" = false.
Proof.
  destruct v as [|[]|z|s|l|kv];
  try (do 2 eexists; split; [reflexivity | repeat split]; reflexivity).
  - destruct (str_of_Z_head z) as (c & t & Ht & Hc). exists c, t. cbn [json_dumps_with].
    rewrite Ht. split; [reflexivity|].
    destruct c as [[] [] [] [] [] [] [] []]; destruct Hc as [Hc|Hc]; try discriminate Hc;
      repeat split; reflexivity.
Qed.

Lemma skip_ws_dumps (v : json) (rest : string) :
  skip_ws (json_dumps_with false v ++ rest) = json_dumps_with false v ++ rest.
Proof.
  destruct (dumps_head v) as (c & t & Ht & Hws & _). rewrite Ht. cbn [append skip_ws].
  now rewrite Hws.
Qed.

Lemma parse_value_space (f : nat) (s : string) :
  parse_value f (String " " s) = parse_value f s.
Proof. destruct f; reflexivity. Qed.

Lemma parse_elements_space (f : nat) (s : string) (acc : list json) :
  parse_elements f (String " " s) acc = parse_elements f s acc.
Proof. destruct f; [reflexivity|]. cbn [parse_elements]. now rewrite parse_value_space. Qed.

Lemma parse_value_quote (f : nat) (s : string) :
  parse_value (S f) (String dquote s) =
  match parse_string_body s with Some (t, r') => Some (JStr t, r') | None => None end.
Proof. reflexivity. Qed.

Lemma parse_value_bracket (f : nat) (s : string) :
  parse_value (S f) (String "[" s) =
  match skip_ws s with
  | String c' r' => if Ascii.eqb c' "]" then Some (JArr [], r')
                    else parse_elements f (String c' r') []
  | EmptyString => None
  end.
Proof. reflexivity. Qed.

Lemma parse_value_brace (f : nat) (s : string) :
  parse_value (S f) (String "{" s) =
  match skip_ws s with
  | String c' r' => if Ascii.eqb c' "}" then Some (JObj [], r')
                    else parse_members f (String c' r') []
  | EmptyString => None
  end.
Proof. reflexivity. Qed.

Lemma parse_elements_step (f : nat) (s : string) (acc : list json) :
  parse_elements (S f) s acc =
  match parse_value f s with
  | Some (v, r1) =>
      match skip_ws r1 with
      | String c1 r2 =>
          if Ascii.eqb c1 "]" then Some (JArr (List.app acc [v]), r2)
          else if Ascii.eqb c1 "," then parse_elements f r2 (List.app acc [v])
          else None
      | EmptyString => None
      end
  | None => None
  end.
Proof. reflexivity. Qed.

Lemma parse_members_step (f : nat) (k r : string) (acc : dict) :
  parse_members (S f)
    (String dquote (json_escape_with false k ++ String dquote (String ":" (String " " r)))) acc =
  match parse_value f r with
  | Some (v, r3) =>
      match skip_ws r3 with
      | String c3 r4 =>
          if Ascii.eqb c3 "}" then Some (JObj (List.app acc [(k, v)]), r4)
          else if Ascii.eqb c3 "," then parse_members f (skip_ws r4) (List.app acc [(k, v)])
          else None
      | EmptyString => None
      end
  | None => None
  end.
Proof.
  cbn [parse_members]. change (Ascii.eqb dquote dquote) with true. cbv iota beta.
  rewrite escape_parse. cbn [skip_ws]. change (is_json_ws ":") with false.
  cbv iota beta. change (Ascii.eqb ":" ":") with true. cbv iota beta.
  now rewrite parse_value_space.
Qed.

Lemma elements_ok (l : list json) : forall x acc fuel rest,
  Forall RT (x :: l) ->
  String.length (String.concat ", " (map (json_dumps_with false) (x :: l)) ++ "]") <= fuel ->
  parse_elements fuel (String.concat ", " (map (json_dumps_with false) (x :: l)) ++ String "]" rest) acc
  = Some (JArr (List.app acc (x :: l)), rest).
Proof.
  induction l as [|y l IH]; intros x acc fuel rest HF Hlen;
    inversion HF as [|? ? Hx HF']; subst; rewrite slen_app in Hlen;
    destruct fuel as [|f]; try (cbn [String.length] in Hlen; lia);
    rewrite parse_elements_step.
  - cbn [map String.concat] in *.
    rewrite (Hx f) by (cbn [String.length] in *; try lia; reflexivity). reflexivity.
  - change (String.concat ", " (map (json_dumps_with false) (x :: y :: l)))
      with (json_dumps_with false x ++ ", " ++ String.concat ", " (map (json_dumps_with false) (y :: l)))
      in *.
    rewrite !slen_app in Hlen. cbn [String.length] in Hlen.
    rewrite !sapp_assoc. cbn [append].
    rewrite (Hx f) by (cbn [String.length] in *; try lia; reflexivity). cbn [skip_ws].
    change (is_json_ws ",") with false. cbv iota beta.
    change (Ascii.eqb "," "]") with false. change (Ascii.eqb "," ",") with true. cbv iota beta.
    rewrite parse_elements_space. rewrite IH; [| exact HF' | rewrite slen_app; cbn [String.length]; lia].
    now rewrite <- app_assoc.
Qed.

Lemma member_text_app (k : string) (x : json) (t : string) :
  member_text false (k, x) ++ t =
  String dquote (json_escape_with false k ++ String dquote (String ":" (String " "
    (json_dumps_with false x ++ t)))).
Proof.
  unfold member_text, json_string_with. cbn [fst snd append].
  rewrite !sapp_assoc. reflexivity.
Qed.

Lemma member_text_len (k : string) (x : json) :
  String.length (json_dumps_with false x) + 4 <= String.length (member_text false (k, x)).
Proof.
  pose proof (f_equal String.length (member_text_app k x EmptyString)) as H.
  rewrite sapp_nil_r in H. rewrite H. cbn [String.length]. rewrite slen_app.
  cbn [String.length]. rewrite sapp_nil_r. lia.
Qed.

Lemma members_head (kx : string * json) (kv : dict) :
  exists t, String.concat ", " (map (member_text false) (kx :: kv)) = String dquote t.
Proof.
  destruct kx as [k x]. destruct kv as [|ky kv]; cbn [map String.concat];
    [rewrite <- (sapp_nil_r (member_text false (k, x))) |];
    rewrite member_text_app; eexists; reflexivity.
Qed.

Lemma members_ok (kv : dict) : forall kx acc fuel rest,
  Forall (fun kx => RT (snd kx)) (kx :: kv) ->
  String.length (String.concat ", " (map (member_text false) (kx :: kv)) ++ "}") <= fuel ->
  parse_members fuel (String.concat ", " (map (member_text false) (kx :: kv)) ++ String "}" rest) acc
  = Some (JObj (List.app acc (kx :: kv)), rest).
Proof.
  induction kv as [|ky kv IH]; intros [k x] acc fuel rest HF Hlen;
    inversion HF as [|? ? Hx HF']; subst; rewrite slen_app in Hlen;
    pose proof (member_text_len k x) as Hm;
    destruct fuel as [|f]; try (cbn [String.length map String.concat] in *; lia).
  - cbn [map String.concat] in *. rewrite member_text_app, parse_members_step.
    cbn [snd] in Hx.
    rewrite (Hx f) by (cbn [String.length] in *; try lia; reflexivity). reflexivity.
  - change (String.concat ", " (map (member_text false) ((k, x) :: ky :: kv)))
      with (member_text false (k, x) ++ ", " ++ String.concat ", " (map (member_text false) (ky :: kv)))
      in *.
    rewrite !slen_app in Hlen. cbn [String.length] in Hlen.
    rewrite !sapp_assoc, member_text_app, parse_members_step. cbn [snd] in Hx.
    cbn [append].
    rewrite (Hx f) by (cbn [String.length] in *; try lia; reflexivity). cbn [skip_ws].
    change (is_json_ws ",") with false. cbv iota beta.
    change (Ascii.eqb "," "}") with false. change (Ascii.eqb "," ",") with true. cbv iota beta.
    cbn [skip_ws]. change (is_json_ws " ") with true. cbv iota beta.
    destruct (members_head ky kv) as (t & Ht). rewrite Ht. cbn [append skip_ws].
    change (is_json_ws dquote) with false. cbv iota beta.
    change (String dquote (t ++ String "}" rest)) with (String dquote t ++ String "}" rest).
    rewrite <- Ht.
    rewrite IH; [| exact HF' | rewrite slen_app; cbn [String.length]; lia].
    now rewrite <- app_assoc.
Qed.

Lemma dumps_len_pos (v : json) : 1 <= String.length (json_dumps_with false v).
Proof. destruct (dumps_head v) as (c & t & Ht & _). rewrite Ht. cbn [String.length]. lia. Qed.

Lemma elements_head (x : json) (l : list json) :
  exists c t, String.concat ", " (map (json_dumps_with false) (x :: l)) = String c t /\
    is_json_ws c = false /\ Ascii.eqb c "]" = false.
Proof.
  destruct (dumps_head x) as (c & t & Ht & Hws & Hb & _).
  destruct l as [|y l]; cbn [map String.concat]; rewrite Ht; cbn [append]; eauto.
Qed.

Lemma roundtrip (v : json) : RT v.
Proof.
  induction v as [| b | z | s | l Hl | kv Hkv] using json_ind'; intros fuel rest Hlen Hrest;
    destruct fuel as [|f];
    try (exfalso; match goal with
                  | H : String.length (json_dumps_with false ?w) <= 0 |- _ =>
                      pose proof (dumps_len_pos w); lia
                  end).
  - reflexivity.
  - destruct b; reflexivity.
  - destruct (str_of_Z_head z) as (c & t & Ht & Hc).
    cbn [json_dumps_with]. rewrite <- (parse_int_str z rest Hrest), Ht. cbn [append].
    destruct c as [[] [] [] [] [] [] [] []]; destruct Hc as [Hc|Hc]; try discriminate Hc;
      reflexivity.
  - cbn [json_dumps_with]. unfold json_string_with. cbn [append].
    rewrite parse_value_quote, sapp_assoc. cbn [append]. now rewrite escape_parse.
  - rewrite dumps_arr in *. destruct l as [|x l]; [reflexivity|].
    rewrite !sapp_assoc. cbn [append]. rewrite parse_value_bracket.
    destruct (elements_head x l) as (c & t & Ht & Hws & Hb).
    rewrite Ht. cbn [append skip_ws]. rewrite Hws. cbv iota beta. rewrite Hb. cbv iota beta.
    change (String c (t ++ String "]" rest)) with (String c t ++ String "]" rest).
    rewrite <- Ht. apply elements_ok; [exact Hl|].
    cbn [append String.length] in Hlen. lia.
  - rewrite dumps_obj in *. destruct kv as [|kx kv]; [reflexivity|].
    rewrite !sapp_assoc. cbn [append]. rewrite parse_value_brace.
    destruct (members_head kx kv) as (t & Ht).
    rewrite Ht. cbn [append skip_ws]. change (is_json_ws dquote) with false. cbv iota beta.
    change (Ascii.eqb dquote "}") with false. cbv iota beta.
    change (String dquote (t ++ String "}" rest)) with (String dquote t ++ String "}" rest).
    rewrite <- Ht. apply members_ok; [exact Hkv|].
    cbn [append String.length] in Hlen. lia.
Qed.

Lemma loads_dumps (v : json) : json_loads (json_dumps_with false v) = Some v.
Proof.
  unfold json_loads. rewrite <- (sapp_nil_r (json_dumps_with false v)) at 2.
  rewrite (roundtrip v (S (String.length (json_dumps_with false v))) EmptyString);
    [reflexivity | lia | reflexivity].
Qed.

(** UTF-8 *)

Lemma encode_cons (c : ascii) (s : string) :
  utf8_encode (String c s) = utf8_encode (String c EmptyString) ++ utf8_encode s.
Proof. cbn [utf8_encode]. destruct (Nat.ltb (nat_of_ascii c) 128); reflexivity. Qed.

Lemma decode_encode_char (c : ascii) (rest : string) :
  utf8_decode (utf8_encode (String c EmptyString) ++ rest) = String c (utf8_decode rest).
Proof. destruct c as [[] [] [] [] [] [] [] []]; reflexivity. Qed.

Lemma decode_encode (s rest : string) :
  utf8_decode (utf8_encode s ++ rest) = s ++ utf8_decode rest.
Proof.
  induction s as [|c s IH]; [reflexivity|].
  rewrite encode_cons, sapp_assoc, decode_encode_char, IH. reflexivity.
Qed.

Lemma decode_ascii_split (A : string) (c : ascii) (Y : string) :
  nat_of_ascii c < 128 ->
  exists P, utf8_decode (A ++ String c Y) = P ++ String c (utf8_decode Y).
Proof.
  intros Hc. assert (Hc' : Nat.ltb (nat_of_ascii c) 128 = true) by (apply Nat.ltb_lt; lia).
  assert (Hc2 : Nat.leb 128 (nat_of_ascii c) = false) by (apply Nat.leb_gt; lia).
  remember (String.length A) as n eqn:En. revert A En.
  induction n as [n IH] using (well_founded_induction lt_wf). intros A En.
  destruct A as [|a A'].
  - exists EmptyString. cbn [append utf8_decode]. rewrite Hc'. reflexivity.
  - cbn [append utf8_decode]. cbn [String.length] in En.
    destruct (Nat.ltb (nat_of_ascii a) 128).
    + destruct (IH (String.length A') ltac:(lia) A' eq_refl) as (P & HP).
      exists (String a P). rewrite HP. reflexivity.
    + destruct (Nat.leb 194 (nat_of_ascii a) && Nat.leb (nat_of_ascii a) 195)%bool.
      * destruct A' as [|a2 A''].
        -- exists EmptyString. cbn [append]. rewrite Hc2. cbn [andb].
           cbn [utf8_decode]. rewrite Hc'. reflexivity.
        -- cbn [append]. cbn [String.length] in En.
           destruct (Nat.leb 128 (nat_of_ascii a2) && Nat.ltb (nat_of_ascii a2) 192)%bool.
           ++ destruct (IH (String.length A'') ltac:(lia) A'' eq_refl) as (P & HP).
              rewrite HP. eexists. change (String ?x (P ++ ?y)) with (String x P ++ y).
              reflexivity.
           ++ destruct (IH (String.length (String a2 A'')) ltac:(cbn [String.length]; lia)
                           (String a2 A'') eq_refl) as (P & HP).
              exists P. exact HP.
      * destruct (IH (String.length A') ltac:(lia) A' eq_refl) as (P & HP).
        exists P. exact HP.
Qed.

(** Dropping bytes *)

Lemma str_drop_app (n : nat) (X Y : string) :
  n <= String.length X -> str_drop n (X ++ Y) = str_drop n X ++ Y.
Proof.
  revert n. induction X as [|x X IH]; intros n Hn; destruct n as [|n]; cbn in *;
    try reflexivity; try lia. apply IH. lia.
Qed.

Lemma str_drop_all (n : nat) (X : string) : String.length X <= n -> str_drop n X = EmptyString.
Proof.
  revert n. induction X as [|x X IH]; intros n Hn; destruct n as [|n]; cbn in *;
    try reflexivity; try lia. apply IH. lia.
Qed.

Lemma str_drop_nl (n : nat) (P : string) :
  str_drop n (P ++ String nl EmptyString) = EmptyString \/
  exists P', str_drop n (P ++ String nl EmptyString) = P' ++ String nl EmptyString.
Proof.
  destruct (Nat.le_gt_cases n (String.length P)) as [H|H].
  - right. exists (str_drop n P). now apply str_drop_app.
  - left. apply str_drop_all. rewrite slen_app. cbn [String.length]. lia.
Qed.

Lemma audit_bytes_end (nt : bool) (pre : list dict) :
  audit_file_bytes nt pre = EmptyString \/
  exists P, audit_file_bytes nt pre = P ++ String nl EmptyString.
Proof.
  induction pre as [|d pre IH]; [now left|]. right. cbn [audit_file_bytes].
  destruct IH as [-> | (P & ->)].
  - destruct nt; cbn [line_end].
    + exists (utf8_encode (audit_line_text d) ++ String cr EmptyString).
      rewrite !sapp_assoc. reflexivity.
    + exists (utf8_encode (audit_line_text d)). rewrite sapp_nil_r. reflexivity.
  - exists (utf8_encode (audit_line_text d) ++ line_end nt ++ P). rewrite !sapp_assoc. reflexivity.
Qed.

(** strip *)


Lemma rstrip_spaces (S : string) : all_space S = true -> rstrip S = EmptyString.
Proof.
  induction S as [|c S IH]; [reflexivity|]. cbn [all_space list_ascii_of_string forallb].
  intros H. apply andb_prop in H as [Hc HS]. cbn [rstrip]. fold (all_space S) in HS.
  rewrite (IH HS), Hc. reflexivity.
Qed.

Lemma rstrip_app_space (Q S : string) : all_space S = true -> rstrip (Q ++ S) = rstrip Q.
Proof.
  intros HS. induction Q as [|c Q IH]; [now apply rstrip_spaces|].
  cbn [append rstrip]. now rewrite IH.
Qed.

Lemma rstrip_last (Q : string) (c : ascii) :
  py_isspace c = false -> rstrip (Q ++ String c EmptyString) = Q ++ String c EmptyString.
Proof.
  intros Hc. induction Q as [|a Q IH].
  - cbn [append rstrip]. now rewrite Hc.
  - cbn [append rstrip]. rewrite IH. destruct Q; reflexivity.
Qed.

Lemma lstrip_nl (A L : string) :
  lstrip L = L ->
  (exists R, lstrip (A ++ String nl L) = R ++ String nl L) \/ lstrip (A ++ String nl L) = L.
Proof.
  intros HL. induction A as [|a A IH].
  - right. cbn [append lstrip]. change (py_isspace nl) with true. cbv iota beta. exact HL.
  - cbn [append lstrip]. destruct (py_isspace a); [exact IH|].
    left. exists (String a A). reflexivity.
Qed.

(** splitlines *)

Lemma splitlines_nobreak (L : string) :
  L <> EmptyString -> no_line_break L = true -> splitlines L = [L].
Proof.
  induction L as [|c L IH]; [congruence|]. intros _ H.
  unfold no_line_break in H. cbn [list_ascii_of_string existsb] in H.
  apply Bool.negb_true_iff, Bool.orb_false_iff in H as [Hc HL].
  cbn [splitlines]. rewrite Hc.
  destruct L as [|c' L']; [reflexivity|].
  rewrite IH; [reflexivity | discriminate | unfold no_line_break; now rewrite HL].
Qed.

Lemma splitlines_last (A L : string) :
  L <> EmptyString -> no_line_break L = true ->
  exists Q, splitlines (A ++ String nl L) = (Q ++ [L])%list /\ Q <> [].
Proof.
  intros HL HnL. pose proof (splitlines_nobreak L HL HnL) as Hs.
  remember (String.length A) as n eqn:En. revert A En.
  induction n as [n IH] using (well_founded_induction lt_wf). intros A En.
  destruct A as [|a A'].
  - exists [EmptyString]. split; [|discriminate]. cbn [append splitlines].
    change (is_line_break nl) with true. change (Nat.eqb (nat_of_ascii nl) 13) with false.
    cbv iota beta. now rewrite Hs.
  - cbn [String.length] in En. cbn [append splitlines].
    destruct (is_line_break a).
    + destruct (Nat.eqb (nat_of_ascii a) 13).
      * destruct A' as [|a2 A''].
        -- exists [EmptyString]. split; [|discriminate]. cbn [append].
           change (Nat.eqb (nat_of_ascii nl) 10) with true. cbv iota beta. now rewrite Hs.
        -- cbn [append]. cbn [String.length] in En.
           destruct (Nat.eqb (nat_of_ascii a2) 10).
           ++ destruct (IH (String.length A'') ltac:(lia) A'' eq_refl) as (Q & HQ & _).
              exists (EmptyString :: Q). split; [now rewrite HQ | discriminate].
           ++ destruct (IH (String.length (String a2 A'')) ltac:(cbn [String.length]; lia)
                         (String a2 A'') eq_refl) as (Q & HQ & _).
              exists (EmptyString :: Q). split; [cbn [append] in HQ; now rewrite HQ | discriminate].
      * destruct (IH (String.length A') ltac:(lia) A' eq_refl) as (Q & HQ & _).
        exists (EmptyString :: Q). split; [now rewrite HQ | discriminate].
    + destruct (IH (String.length A') ltac:(lia) A' eq_refl) as (Q & HQ & HQn).
      rewrite HQ. destruct Q as [|q Q]; [congruence|].
      exists (String a q :: Q). split; [reflexivity | discriminate].
Qed.

Lemma last_opt_snoc {A : Type} (Q : list A) (x : A) : last_opt (Q ++ [x])%list = Some x.
Proof.
  induction Q as [|a Q IH]; [reflexivity|]. cbn [List.app last_opt].
  destruct (Q ++ [x])%list eqn:E; [destruct Q; discriminate | exact IH].
Qed.

Lemma audit_line_shape (d : dict) :
  exists M, audit_line_text d = String "{" (M ++ String "}" EmptyString).
Proof. unfold audit_line_text. rewrite dumps_obj. eexists. reflexivity. Qed.

Lemma audit_bytes_app (nt : bool) (pre post : list dict) :
  audit_file_bytes nt (pre ++ post)%list = audit_file_bytes nt pre ++ audit_file_bytes nt post.
Proof.
  induction pre as [|d pre IH]; [reflexivity|]. cbn [List.app audit_file_bytes].
  rewrite IH, !sapp_assoc. reflexivity.
Qed.

Lemma all_space_line_end (nt : bool) : all_space (line_end nt) = true.
Proof. destruct nt; reflexivity. Qed.

Lemma decode_line_end (nt : bool) : utf8_decode (line_end nt) = line_end nt.
Proof. destruct nt; reflexivity. Qed.

(** The text [strip] and [splitlines] see ends with the last line. *)
Lemma audit_last_line (nt : bool) (d : dict) (D : string) :
  no_line_break (audit_line_text d) = true ->
  (D = audit_line_text d ++ line_end nt \/
   exists P, D = P ++ String nl (audit_line_text d ++ line_end nt)) ->
  last_opt (splitlines (py_strip D)) = Some (audit_line_text d).
Proof.
  intros Hnl HD. destruct (audit_line_shape d) as (M & HM).
  assert (Hne : audit_line_text d <> EmptyString) by (rewrite HM; discriminate).
  assert (Hl : lstrip (audit_line_text d) = audit_line_text d) by (rewrite HM; reflexivity).
  unfold py_strip. destruct HD as [-> | (P & ->)].
  - rewrite rstrip_app_space by apply all_space_line_end.
    assert (HR : rstrip (audit_line_text d) = audit_line_text d).
    { rewrite HM. change (String "{" (M ++ String "}" EmptyString))
        with (String "{" M ++ String "}" EmptyString).
      now rewrite rstrip_last. }
    rewrite HR, Hl, splitlines_nobreak by assumption. reflexivity.
  - change (String nl (audit_line_text d ++ line_end nt))
      with (String nl (audit_line_text d) ++ line_end nt).
    rewrite <- sapp_assoc, rstrip_app_space by apply all_space_line_end.
    assert (HR : rstrip (P ++ String nl (audit_line_text d)) = P ++ String nl (audit_line_text d)).
    { rewrite HM. replace (P ++ String nl (String "{" (M ++ String "}" EmptyString)))
        with ((P ++ String nl (String "{" M)) ++ String "}" EmptyString)
        by (rewrite sapp_assoc; reflexivity).
      now rewrite rstrip_last. }
    rewrite HR. destruct (lstrip_nl P (audit_line_text d) Hl) as [(R & HRl) | HRl];
      rewrite HRl.
    + destruct (splitlines_last R (audit_line_text d) Hne Hnl) as (Q & HQ & _).
      rewrite HQ. apply last_opt_snoc.
    + rewrite splitlines_nobreak by assumption. reflexivity.
Qed.

Lemma audit_prev_hash_last (nt : bool) (pre : list dict) (d : dict) :
  String.length (utf8_encode (audit_line_text d)) + String.length (line_end nt) <= 4096 ->
  no_line_break (audit_line_text d) = true ->
  audit_prev_hash nt (pre ++ [d])%list = with_default (dict_get_rev d "hash") (JStr EmptyString).
Proof.
  intros Hfit Hnl. unfold audit_prev_hash, audit_tail.
  rewrite audit_bytes_app. cbn [audit_file_bytes]. rewrite sapp_nil_r.
  set (X := audit_file_bytes nt pre).
  rewrite slen_app, slen_app.
  rewrite str_drop_app by lia.
  set (n := String.length X + (String.length (utf8_encode (audit_line_text d)) +
                               String.length (line_end nt)) - 4096).
  assert (HY : utf8_decode (utf8_encode (audit_line_text d) ++ line_end nt)
               = audit_line_text d ++ line_end nt)
    by (now rewrite decode_encode, decode_line_end).
  assert (HD : utf8_decode (str_drop n X ++ (utf8_encode (audit_line_text d) ++ line_end nt))
               = audit_line_text d ++ line_end nt \/
               exists P, utf8_decode (str_drop n X ++ (utf8_encode (audit_line_text d) ++ line_end nt))
                         = P ++ String nl (audit_line_text d ++ line_end nt)).
  { destruct (audit_bytes_end nt pre) as [HX | (P0 & HX)]; fold X in HX; rewrite HX.
    - left. destruct n; exact HY.
    - destruct (str_drop_nl n P0) as [H0 | (P' & H0)]; rewrite H0.
      + left. exact HY.
      + right. rewrite sapp_assoc. cbn [append].
        destruct (decode_ascii_split P' nl (utf8_encode (audit_line_text d) ++ line_end nt)
                    ltac:(cbv; lia)) as (P & HP).
        exists P. rewrite HP, HY. reflexivity. }
  rewrite (audit_last_line nt d _ Hnl HD). unfold audit_line_text. rewrite loads_dumps. reflexivity.
Qed.

End JsonFacts.


(** ** Offline guard *)

Lemma list_size_app (l1 l2 : list stmt) :
  list_size (l1 ++ l2) = (list_size l1 + list_size l2)%nat.
Proof. induction l1 as [|x l1 IH]; simpl; [reflexivity | rewrite IH; lia]. Qed.

Lemma stmt_size_children (x : stmt) : stmt_size x = S (list_size (children x)).
Proof.
  destruct x as [| |b|]; try reflexivity.
Qed.

Lemma list_size_nil (l : list stmt) : list_size l = 0%nat -> l = [].
Proof.
  destruct l as [|x l]; [reflexivity|]. simpl. rewrite stmt_size_children. lia.
Qed.

Lemma occurs_nil (n : stmt) : ~ occurs n [].
Proof. intros H. inversion H as [l Hin | b l Hin _]; destruct Hin. Qed.

Lemma occurs_app (n : stmt) (l1 l2 : list stmt) :
  occurs n (l1 ++ l2) <-> occurs n l1 \/ occurs n l2.
Proof.
  split.
  - intros H. inversion H as [l Hin | b l Hin Hb]; subst;
      apply in_app_or in Hin; destruct Hin as [Hin|Hin];
      [left | right | left | right]; eauto using occurs_here, occurs_below.
  - intros [H|H]; inversion H as [l Hin | b l Hin Hb]; subst;
      eauto using occurs_here, occurs_below, in_or_app.
Qed.

Lemma occurs_cons (n x : stmt) (l : list stmt) :
  occurs n (x :: l) <-> n = x \/ occurs n (children x) \/ occurs n l.
Proof.
  split.
  - intros H. inversion H as [l' Hin | b l' Hin Hb]; subst.
    + destruct Hin as [->|Hin]; [left; reflexivity | right; right; apply occurs_here; exact Hin].
    + destruct Hin as [Hx|Hin].
      * subst x. right; left; exact Hb.
      * right; right; eapply occurs_below; eauto.
  - intros [->|[H|H]].
    + apply occurs_here; left; reflexivity.
    + destruct x as [| |b|]; simpl in H; try (exfalso; exact (occurs_nil _ H)).
      eapply occurs_below; [left; reflexivity | exact H].
    + inversion H as [l' Hin | b l' Hin Hb]; subst.
      * apply occurs_here; right; exact Hin.
      * eapply occurs_below; [right; exact Hin | exact Hb].
Qed.

(** [walk] visits every node, at any depth, once its fuel covers the
    nodes still to visit. *)
Lemma walk_occurs (fuel : nat) (todo : list stmt) (n : stmt) :
  (list_size todo <= fuel)%nat -> (In n (walk fuel todo) <-> occurs n todo).
Proof.
  revert todo. induction fuel as [|f IH]; intros todo Hsz.
  - assert (todo = []) as -> by (apply list_size_nil; lia).
    simpl. split; [intros []|intros H; exact (occurs_nil _ H)].
  - destruct todo as [|x t].
    + simpl. split; [intros []|intros H; exact (occurs_nil _ H)].
    + simpl. rewrite occurs_cons, IH, occurs_app.
      * split; intros [H|H]; [left; symmetry; exact H | tauto | left; symmetry; exact H | tauto].
      * rewrite list_size_app. simpl in Hsz. rewrite stmt_size_children in Hsz. lia.
Qed.

Lemma banned_of_node_nonempty (n : stmt) :
  banned_of_node n <> [] <-> imports_banned n = true.
Proof.
  destruct n as [names|module names|b|]; simpl.
  - induction names as [|m names IH]; simpl.
    + split; [congruence | discriminate].
    + destruct (startswith_banned m); simpl; [split; [reflexivity | discriminate] | exact IH].
  - destruct module as [m|]; simpl.
    + destruct (startswith_banned m); split; congruence.
    + split; [intros H; exfalso; apply H; reflexivity | discriminate].
  - split; congruence.
  - split; congruence.
Qed.

(** Claim C9, as the code has it. The guard's scan reports a banned import
    exactly when some [import] or [from ... import] statement, at the top
    level or nested at any depth (inside a def, class, if, try, ...),
    names a module whose name starts with one of the prefixes requests,
    socket, http.client, urllib, urllib3, httpx, aiohttp or asyncio. No other
    statement (a string literal in particular) is ever reported. *)
Theorem scan_for_banned_imports_iff (body : list stmt) :
  scan_for_banned_imports body <> [] <->
  exists n, occurs n body /\ imports_banned n = true.
Proof.
  unfold scan_for_banned_imports, ast_walk.
  split.
  - intros H.
    destruct (flat_map banned_of_node (walk (list_size body) body)) as [|m ms] eqn:E;
      [congruence|].
    assert (Hin : In m (flat_map banned_of_node (walk (list_size body) body)))
      by (rewrite E; left; reflexivity).
    apply in_flat_map in Hin. destruct Hin as [n [Hn Hm]].
    exists n. split.
    + apply (walk_occurs (list_size body) body n); [lia | exact Hn].
    + apply banned_of_node_nonempty. intros Hnil. rewrite Hnil in Hm. destruct Hm.
  - intros [n [Hn Hb]].
    apply banned_of_node_nonempty in Hb.
    apply (walk_occurs (list_size body) body n (le_n _)) in Hn.
    destruct (banned_of_node n) as [|m ms] eqn:E; [congruence|].
    intros Hnil.
    assert (Hin : In m (flat_map banned_of_node (walk (list_size body) body)))
      by (apply in_flat_map; exists n; split; [exact Hn | rewrite E; left; reflexivity]).
    rewrite Hnil in Hin. destruct Hin.
Qed.

(** Claim C9, as stated, fails: [import asyncio] (outside the listed set),
    [import requests_toolbelt] (a name that only begins with a banned name)
    and an [import socket] nested in a function body are each reported by the
    scan, while none is a top-level import of a module of the closed set. *)
Lemma scan_for_banned_imports_claim_counterexample :
  ~ (forall body, scan_for_banned_imports body <> [] <-> spec_top_level_banned body = true).
Proof.
  intros H.
  assert (Ha := H [Import ["asyncio"]]).
  assert (Hr := H [Import ["requests_toolbelt"]]).
  assert (Hn := H [Block [Import ["socket"]]]).
  vm_compute in Ha, Hr, Hn.
  destruct Ha as [Ha _]. specialize (Ha ltac:(discriminate)). discriminate Ha.
Qed.

(** ** Audit log *)

Lemma dict_set_absent (d : dict) (k : string) (v : json) :
  ~ In k (map fst d) -> dict_set d k v = (d ++ [(k, v)])%list.
Proof.
  induction d as [|[k' v'] d IH]; simpl; intros Hn; [reflexivity|].
  destruct (String.eqb_spec k k') as [->|Hne]; [exfalso; tauto|].
  rewrite IH by tauto. reflexivity.
Qed.

Lemma dict_set_keys (d : dict) (k k' : string) (v : json) :
  In k' (map fst (dict_set d k v)) -> In k' (map fst d) \/ k' = k.
Proof.
  induction d as [|[k0 v0] d IH]; simpl.
  - intros [H|[]]. right; symmetry; exact H.
  - destruct (String.eqb k k0); simpl; [tauto|].
    intros [H|H]; [tauto|]. destruct (IH H); tauto.
Qed.

Lemma dict_update_keys (d extra : dict) (k : string) :
  In k (map fst (dict_update d extra)) -> In k (map fst d) \/ In k (map fst extra).
Proof.
  unfold dict_update. revert d.
  induction extra as [|[k1 v1] extra IH]; simpl; intros d H; [tauto|].
  destruct (IH _ H) as [H1|H1]; [|tauto].
  destruct (dict_set_keys d k1 k v1 H1); [tauto | subst; tauto].
Qed.





Lemma dict_get_app_absent (d d' : dict) (k : string) :
  ~ In k (map fst d) -> dict_get (d ++ d')%list k = dict_get d' k.
Proof.
  induction d as [|[k' v'] d IH]; simpl; intros Hn; [reflexivity|].
  destruct (String.eqb_spec k k') as [->|Hne]; [exfalso; tauto|]. apply IH. tauto.
Qed.

Lemma audit_entry_keys (ts : string) (stage : option string) (ev message : string)
    (extra : dict) (k : string) :
  In k (map fst (audit_entry ts stage ev message extra)) ->
  In k ["ts"; "stage"; "event"; "message"] \/ In k (map fst extra).
Proof.
  unfold audit_entry. destruct extra as [|kv extra]; [tauto|].
  intros H. apply dict_update_keys in H. exact H.
Qed.

Lemma audit_prev_hash_nil (nt : bool) : audit_prev_hash nt [] = JStr "".
Proof. destruct nt; reflexivity. Qed.

Lemma audit_readable_nil (nt : bool) : audit_readable nt [] = true.
Proof. unfold audit_readable. now rewrite audit_prev_hash_nil. Qed.

Lemma audit_readable_str (nt : bool) (lines : list dict) :
  audit_readable nt lines = true -> exists p, audit_prev_hash nt lines = JStr p.
Proof.
  unfold audit_readable. destruct (audit_prev_hash nt lines); try discriminate. eauto.
Qed.

Lemma audit_log_ok (run_id : string) (stage : option string) (ev message : string)
    (extra : dict) (E : Env) (w : World) (p : string) :
  audit_prev_hash (e_os_nt E) (w_audit w run_id) = JStr p ->
  audit_log run_id stage ev message extra E w =
  (Ret tt, emit (EAudit run_id stage ev)
             (set_w_audit w (upd (w_audit w) run_id
                (w_audit w run_id ++ [audit_stored p (audit_entry (e_now E) stage ev message extra)])%list))).
Proof. intros H. unfold audit_log. rewrite H. reflexivity. Qed.


(** [audit_log] returns normally exactly when the hash it reads is a
    string, and then appends one line to the run's audit file. *)
Lemma audit_log_Ret_inv (run_id : string) (stage : option string) (ev message : string)
    (extra : dict) (E : Env) (w : World) (u : unit) :
  fst (audit_log run_id stage ev message extra E w) = Ret u ->
  exists p, audit_prev_hash (e_os_nt E) (w_audit w run_id) = JStr p /\
    audit_log run_id stage ev message extra E w =
    (Ret tt, emit (EAudit run_id stage ev)
               (set_w_audit w (upd (w_audit w) run_id
                  (w_audit w run_id ++ [audit_stored p (audit_entry (e_now E) stage ev message extra)])%list))).
Proof.
  unfold audit_log. destruct (audit_prev_hash _ _) eqn:Hp; try discriminate.
  intros _. exists s. split; reflexivity.
Qed.

Lemma audit_log_run_states (run_id : string) (stage : option string) (ev message : string)
    (extra : dict) (E : Env) (w : World) :
  w_run_states (snd (audit_log run_id stage ev message extra E w)) = w_run_states w.
Proof. unfold audit_log. destruct (audit_prev_hash _ _); reflexivity. Qed.

Lemma audit_log_stage_states (run_id : string) (stage : option string)
    (ev message : string) (extra : dict) (E : Env) (w : World) :
  w_stage_states (snd (audit_log run_id stage ev message extra E w)) = w_stage_states w.
Proof. unfold audit_log. destruct (audit_prev_hash _ _); reflexivity. Qed.

(** The entry dict has no [hash] or [prevHash] key when [extra] has none. *)
Lemma audit_entry_no_chain_keys (ts : string) (stage : option string) (ev message : string)
    (extra : dict) :
  ~ In "hash" (map fst extra) -> ~ In "prevHash" (map fst extra) ->
  ~ In "hash" (map fst (audit_entry ts stage ev message extra)) /\
  ~ In "prevHash" (map fst (audit_entry ts stage ev message extra)).
Proof.
  intros Hh Hp. split; intros Hk; apply audit_entry_keys in Hk;
    destruct Hk as [Hk|Hk]; try contradiction; simpl in Hk;
    intuition discriminate.
Qed.

(** The stored line is the entry followed by [hash], then [prevHash]. *)
Lemma audit_stored_shape (prev : string) (entry : dict) :
  ~ In "hash" (map fst entry) -> ~ In "prevHash" (map fst entry) ->
  audit_stored prev entry =
    (entry ++ [("hash", JStr (chain_hash prev entry))] ++ [("prevHash", JStr prev)])%list.
Proof.
  intros Hnh Hnp. unfold audit_stored. rewrite (dict_set_absent entry "hash") by exact Hnh.
  rewrite dict_set_absent; [rewrite <- app_assoc; reflexivity|].
  rewrite map_app, in_app_iff. simpl. intros [H|[H|[]]]; [tauto | discriminate].
Qed.

Lemma audit_stored_hash (prev : string) (entry : dict) :
  ~ In "hash" (map fst entry) -> ~ In "prevHash" (map fst entry) ->
  dict_get (audit_stored prev entry) "hash" = Some (JStr (chain_hash prev entry)) /\
  dict_get_rev (audit_stored prev entry) "hash" = Some (JStr (chain_hash prev entry)).
Proof.
  intros Hnh Hnp. rewrite (audit_stored_shape _ _ Hnh Hnp). split.
  - rewrite dict_get_app_absent by exact Hnh. reflexivity.
  - unfold dict_get_rev. rewrite rev_app_distr. reflexivity.
Qed.


(** ** The skip decision *)

Lemma makedirs_world_fields (d : string) (w : World) :
  w_fs (makedirs_world d w) = w_fs w /\
  w_stage_states (makedirs_world d w) = w_stage_states w /\
  w_progress (makedirs_world d w) = w_progress w /\
  w_markers (makedirs_world d w) = w_markers w /\
  w_locks (makedirs_world d w) = w_locks w /\
  w_audit (makedirs_world d w) = w_audit w /\
  w_spawned (makedirs_world d w) = w_spawned w.
Proof. unfold makedirs_world. destruct (existsb _ _); repeat split. Qed.

Lemma key_eqb_some (a : option string) (b : string) :
  key_eqb a (Some b) = true <-> a = Some b.
Proof.
  destruct a as [x|]; simpl; [|split; congruence].
  rewrite String.eqb_eq. split; congruence.
Qed.

Lemma existsb_eqb_In (x : string) (l : list string) :
  existsb (String.eqb x) l = true <-> In x l.
Proof.
  rewrite existsb_exists. split.
  - intros [y [Hy Heq]]. apply String.eqb_eq in Heq. subst. exact Hy.
  - intros H. exists x. split; [exact H | apply String.eqb_refl].
Qed.

Lemma makedirs_ok (d : string) (E : Env) (w : World) :
  makedirs_error d w = None -> makedirs d E w = (Ret tt, makedirs_world d w).
Proof. intros H. unfold makedirs. rewrite H. reflexivity. Qed.

Lemma makedirs_raise (d : string) (E : Env) (w : World) (e : exn) :
  makedirs_error d w = Some e -> makedirs d E w = (Raise e, w).
Proof. intros H. unfold makedirs. rewrite H. reflexivity. Qed.

(** When [os.makedirs] fails, [run_stage] raises its exception and does
    nothing else. *)
Lemma run_stage_makedirs_raise (stage : Stage) (run_id : string) (E : Env) (w : World)
    (e : exn) :
  makedirs_error (st_outputDir stage) w = Some e -> run_stage stage run_id E w = (Raise e, w).
Proof.
  intros H. unfold run_stage, bind at 1. cbv beta zeta.
  rewrite (makedirs_raise _ _ _ _ H). reflexivity.
Qed.



(** When the output directory can be made and the guard lets the processor
    through, [run_stage] makes the output directory and then either skips
    or runs [run_stage_execute]. *)
Lemma run_stage_after_guard (stage : Stage) (run_id : string) (E : Env) (w : World) :
  makedirs_error (st_outputDir stage) w = None ->
  guard_ok E stage ->
  let w1 := makedirs_world (st_outputDir stage) w in
  let key := if idem_enabled stage then Some (stage_key stage w) else None in
  run_stage stage run_id E w =
  if idem_enabled stage && key_eqb (ss_idempotencyKey (loaded_state stage w)) key
     && existsb (String.eqb (marker_path stage)) (w_markers w)
  then (audit_log run_id (Some (st_name stage)) "skip"
          ("[SKIP] " ++ st_name stage ++ " (idempotent key matched)") [] ;;
        ret StageSkipped) E w1
  else run_stage_execute stage run_id (loaded_state stage w) key (marker_path stage) E w1.
Proof.
  intros Hmd Hg w1 key.
  destruct (makedirs_world_fields (st_outputDir stage) w) as (Hfs & Hss & _ & Hmk & _).
  unfold run_stage, bind at 1. cbv beta zeta.
  rewrite (makedirs_ok _ _ _ Hmd). fold w1.
  unfold bind at 1. cbn [load_stage_state gets].
  unfold bind at 1.
  assert (Hgd : (if offline_guard stage then enforce_offline_guard (st_processor stage)
                 else ret tt) E w1 = (Ret tt, w1)).
  { destruct Hg as [Hoff | [body [Hsrc Hscan]]].
    - rewrite Hoff. reflexivity.
    - destruct (offline_guard stage); [|reflexivity].
      unfold enforce_offline_guard. rewrite Hsrc, Hscan. reflexivity. }
  rewrite Hgd. unfold bind at 1. cbn [gets]. unfold bind at 1. cbn [marker_exists gets].
  subst w1 key. rewrite Hfs, Hmk. unfold loaded_state, stage_key. rewrite Hss.
  destruct (_ && _ && _); reflexivity.
Qed.

Lemma run_stage_execute_not_skipped (stage : Stage) (run_id : string) (ss : StageState)
    (key : option string) (marker : string) (E : Env) (w : World) :
  fst (run_stage_execute stage run_id ss key marker E w) <> Ret StageSkipped.
Proof.
  unfold run_stage_execute, bind.
  destruct (checkpoint_enabled stage); cbn [read_checkpoint gets ret];
    destruct (attempt_loop _ _ _ _ _ _ _) as [[ls|e|] w2]; simpl; try discriminate;
    destruct (negb _); simpl;
    destruct (audit_log _ _ _ _ _ _ _) as [[]]; simpl; discriminate.
Qed.

(** When the guard rejects the processor, [run_stage] raises right after
    making the output directory: no attempt, no StageState write. *)
Lemma run_stage_guard_rejects (stage : Stage) (run_id : string) (E : Env) (w : World) :
  makedirs_error (st_outputDir stage) w = None ->
  ~ guard_ok E stage ->
  exists e, run_stage stage run_id E w = (Raise e, makedirs_world (st_outputDir stage) w).
Proof.
  intros Hmd Hg. unfold run_stage, bind at 1. cbv beta zeta.
  rewrite (makedirs_ok _ _ _ Hmd).
  unfold bind. cbn [load_stage_state gets].
  destruct (offline_guard stage) eqn:Hoff.
  - unfold enforce_offline_guard.
    destruct (e_src E (st_processor stage)) as [body|] eqn:Hsrc.
    + destruct (scan_for_banned_imports body) as [|m ms] eqn:Hscan.
      * exfalso. apply Hg. right. exists body. split; assumption.
      * eexists. reflexivity.
    + eexists. reflexivity.
  - exfalso. apply Hg. left. exact Hoff.
Qed.


Lemma guard_ok_dec (E : Env) (stage : Stage) : guard_ok E stage \/ ~ guard_ok E stage.
Proof.
  unfold guard_ok.
  destruct (offline_guard stage) eqn:Hoff; [|left; left; reflexivity].
  destruct (e_src E (st_processor stage)) as [body|] eqn:Hsrc.
  - destruct (scan_for_banned_imports body) as [|m ms] eqn:Hscan.
    + left. right. exists body. split; [reflexivity | exact Hscan].
    + right. intros [H|[b [Hb Hs]]]; [discriminate|].
      assert (b = body) as -> by congruence. congruence.
  - right. intros [H|[b [Hb Hs]]]; [discriminate | congruence].
Qed.

(** Claim C10. When [run_stage] takes the skip path, the only effect is one
    appended audit line with event "skip": the StageState files, the
    checkpoint files, the completion markers, the files, the directories,
    the run states and the locks are unchanged, no subprocess is spawned,
    and the trace of writes grows by that one audit append. (The output
    directory exists already, as the directory of the existing marker.) *)
Theorem run_stage_skip_frame (stage : Stage) (run_id : string) (E : Env) (w : World) :
  (In (marker_path stage) (w_markers w) -> In (st_outputDir stage) (w_dirs w)) ->
  fst (run_stage stage run_id E w) = Ret StageSkipped ->
  let w' := snd (run_stage stage run_id E w) in
  w_stage_states w' = w_stage_states w /\
  w_progress w' = w_progress w /\
  w_markers w' = w_markers w /\
  w_fs w' = w_fs w /\
  w_dirs w' = w_dirs w /\
  w_run_states w' = w_run_states w /\
  w_locks w' = w_locks w /\
  w_spawned w' = w_spawned w /\
  w_trace w' = (w_trace w ++ [EAudit run_id (Some (st_name stage)) "skip"])%list /\
  (forall r, r <> run_id -> w_audit w' r = w_audit w r) /\
  exists e, w_audit w' run_id = (w_audit w run_id ++ [e])%list /\
            dict_get e "event" = Some (JStr "skip").
Proof.
  intros Hdir Hskip w'.
  destruct (makedirs_error (st_outputDir stage) w) as [e|] eqn:Hmd.
  { rewrite (run_stage_makedirs_raise stage run_id E w e Hmd) in Hskip. discriminate. }
  destruct (guard_ok_dec E stage) as [Hg|Hg].
  2: { destruct (run_stage_guard_rejects stage run_id E w Hmd Hg) as [e He].
       rewrite He in Hskip. discriminate. }
  subst w'. rewrite (run_stage_after_guard stage run_id E w Hmd Hg) in *.
  destruct (_ && _ && existsb (String.eqb (marker_path stage)) (w_markers w)) eqn:Hc.
  2: { exfalso. exact (run_stage_execute_not_skipped _ _ _ _ _ _ _ Hskip). }
  apply andb_true_iff in Hc. destruct Hc as [_ Hm].
  apply existsb_eqb_In in Hm.
  assert (Hw1 : makedirs_world (st_outputDir stage) w = w).
  { unfold makedirs_world. apply Hdir, existsb_eqb_In in Hm. rewrite Hm. reflexivity. }
  rewrite Hw1 in *. unfold bind in *.
  destruct (audit_log_Ret_inv run_id (Some (st_name stage)) "skip"
              ("[SKIP] " ++ st_name stage ++ " (idempotent key matched)") [] E w tt) as [p [_ Ha]].
  { destruct (audit_log _ _ _ _ _ E w) as [[[]| |] w2]; simpl in Hskip; try discriminate.
    reflexivity. }
  rewrite Ha. clear Hskip Ha. unfold ret. simpl.
  repeat split; try reflexivity.
  - intros r Hr. unfold upd. destruct (String.eqb_spec r run_id); [contradiction | reflexivity].
  - eexists. split.
    + unfold upd. rewrite String.eqb_refl. reflexivity.
    + reflexivity.
Qed.

(** ** Checkpoint writes *)

Lemma cp_after_ok_app (last : option Z) (a b : list event) :
  cp_after_ok last (a ++ b) = cp_after_ok last a && cp_after_ok (last_rc last a) b.
Proof.
  revert last. induction a as [|e a IH]; intros last; [reflexivity|].
  destruct e; simpl; try apply IH.
  destruct last as [[|p|p]|]; simpl; try reflexivity; apply IH.
Qed.

Lemma closed_no_spawn_cp : closed no_spawn_cp.
Proof.
  split; [reflexivity|]. unfold no_spawn_cp. intros a b Ha Hb.
  rewrite forallb_app, Ha, Hb. reflexivity.
Qed.

Lemma closed_no_spawn : closed no_spawn.
Proof.
  split; [reflexivity|]. unfold no_spawn. intros a b Ha Hb.
  rewrite forallb_app, Ha, Hb. reflexivity.
Qed.

Lemma closed_cp_clean : closed cp_clean.
Proof.
  split; [intros last; reflexivity|]. unfold cp_clean. intros a b Ha Hb last.
  rewrite cp_after_ok_app, Ha, Hb. reflexivity.
Qed.

Lemma no_spawn_cp_clean (l : list event) : no_spawn_cp l -> cp_clean l.
Proof.
  unfold no_spawn_cp, cp_clean. induction l as [|e l IH]; intros H last; [reflexivity|].
  simpl in H. apply andb_true_iff in H. destruct H as [He Hl].
  destruct e; simpl in He; try discriminate; simpl; apply IH; exact Hl.
Qed.

(** With no subprocess among the events, checkpoint writes are fine after
    a successful one. *)
Lemma no_spawn_after_ok (l : list event) : no_spawn l -> cp_after_ok (Some 0) l = true.
Proof.
  unfold no_spawn. induction l as [|e l IH]; intros H; [reflexivity|].
  simpl in H. apply andb_true_iff in H. destruct H as [He Hl].
  destruct e; simpl in He; try discriminate; simpl; apply IH; exact Hl.
Qed.

Lemma ext_bind (P : list event -> Prop) {A B : Type} (m : M A) (f : A -> M B) :
  closed P -> ext_ok P m -> (forall a, ext_ok P (f a)) -> ext_ok P (bind m f).
Proof.
  intros [Hnil Happ] Hm Hf E w. unfold bind.
  destruct (Hm E w) as [n1 [H1 P1]].
  destruct (m E w) as [[a|e|] w1]; simpl in *.
  - destruct (Hf a E w1) as [n2 [H2 P2]]. exists (n1 ++ n2)%list.
    rewrite H2, H1, app_assoc. split; [reflexivity | apply Happ; assumption].
  - exists n1. split; assumption.
  - exists n1. split; assumption.
Qed.

Lemma ext_try_finally (P : list event -> Prop) {A B : Type} (body : M A)
    (on_exit : option A -> M B) :
  closed P -> ext_ok P body -> (forall o, ext_ok P (on_exit o)) ->
  ext_ok P (try_finally body on_exit).
Proof.
  intros [Hnil Happ] Hb Hf E w. unfold try_finally.
  destruct (Hb E w) as [n1 [H1 P1]].
  destruct (body E w) as [[a|e|] w1]; simpl in *.
  - destruct (Hf (Some a) E w1) as [n2 [H2 P2]].
    destruct (on_exit (Some a) E w1) as [[b|e'|] w2]; simpl in *;
      exists (n1 ++ n2)%list; rewrite H2, H1, app_assoc;
      (split; [reflexivity | apply Happ; assumption]).
  - destruct (Hf None E w1) as [n2 [H2 P2]].
    destruct (on_exit None E w1) as [[b|e'|] w2]; simpl in *;
      exists (n1 ++ n2)%list; rewrite H2, H1, app_assoc;
      (split; [reflexivity | apply Happ; assumption]).
  - exists n1. split; assumption.
Qed.

Lemma ext_ret (P : list event -> Prop) {A : Type} (a : A) : closed P -> ext_ok P (ret a).
Proof. intros [Hnil _] E w. exists []. rewrite app_nil_r. split; [reflexivity | exact Hnil]. Qed.

Lemma ext_raise (P : list event -> Prop) {A : Type} (e : exn) :
  closed P -> ext_ok P (@raise A e).
Proof. intros [Hnil _] E w. exists []. rewrite app_nil_r. split; [reflexivity | exact Hnil]. Qed.

Lemma ext_gets (P : list event -> Prop) {A : Type} (f : World -> A) :
  closed P -> ext_ok P (gets f).
Proof. intros [Hnil _] E w. exists []. rewrite app_nil_r. split; [reflexivity | exact Hnil]. Qed.

Lemma ext_env (P : list event -> Prop) {A : Type} (f : Env -> A) :
  closed P -> ext_ok P (env f).
Proof. intros [Hnil _] E w. exists []. rewrite app_nil_r. split; [reflexivity | exact Hnil]. Qed.

Lemma ext_load_stage_state (P : list event -> Prop) (name : string) :
  closed P -> ext_ok P (load_stage_state name).
Proof. apply ext_gets. Qed.

Lemma ext_read_checkpoint (P : list event -> Prop) (name : string) :
  closed P -> ext_ok P (read_checkpoint name).
Proof. apply ext_gets. Qed.

Lemma ext_marker_exists (P : list event -> Prop) (path : string) :
  closed P -> ext_ok P (marker_exists path).
Proof. apply ext_gets. Qed.

Lemma ext_audit_log (P : list event -> Prop) (run_id : string) (stage : option string)
    (ev message : string) (extra : dict) :
  closed P -> P [EAudit run_id stage ev] -> ext_ok P (audit_log run_id stage ev message extra).
Proof.
  intros [Hnil _] H E w. unfold audit_log.
  destruct (audit_prev_hash _ _);
    first [eexists; split; [reflexivity | exact H]
          | exists []; rewrite app_nil_r; split; [reflexivity | exact Hnil]].
Qed.

Lemma ext_save_stage_state (P : list event -> Prop) (name : string) (ss : StageState) :
  P [EWriteStageState name] -> ext_ok P (save_stage_state name ss).
Proof. intros H E w. eexists. split; [reflexivity | exact H]. Qed.

Lemma ext_write_checkpoint (P : list event -> Prop) (name : string) (n : Z) :
  P [EWriteCheckpoint name] -> ext_ok P (write_checkpoint name n).
Proof. intros H E w. eexists. split; [reflexivity | exact H]. Qed.

Lemma ext_write_marker (P : list event -> Prop) (path : string) :
  P [EWriteMarker path] -> ext_ok P (write_marker path).
Proof. intros H E w. eexists. split; [reflexivity | exact H]. Qed.

Lemma ext_save_run_state (P : list event -> Prop) (run_id state : string) :
  P [EWriteRunState run_id state] -> ext_ok P (save_run_state run_id state).
Proof. intros H E w. eexists. split; [reflexivity | exact H]. Qed.

Lemma ext_aggregate_metrics (P : list event -> Prop) (run_id : string)
    (results : list StageResult) :
  P [EWriteMetrics run_id] -> ext_ok P (aggregate_metrics run_id results).
Proof. intros H E w. eexists. split; [reflexivity | exact H]. Qed.

Lemma ext_sleep (P : list event -> Prop) (k : Z) :
  P [ESleep k] -> ext_ok P (sleep k).
Proof. intros H E w. eexists. split; [reflexivity | exact H]. Qed.

Lemma ext_makedirs (P : list event -> Prop) (d : string) :
  closed P -> P [EMkdir d] -> ext_ok P (makedirs d).
Proof.
  intros [Hnil _] H E w. unfold makedirs.
  destruct (makedirs_error d w).
  - exists []. rewrite app_nil_r. split; [reflexivity | exact Hnil].
  - unfold makedirs_world. destruct (existsb _ _).
    + exists []. rewrite app_nil_r. split; [reflexivity | exact Hnil].
    + eexists. split; [reflexivity | exact H].
Qed.

Lemma ext_FileLock_acquire (P : list event -> Prop) (path : string) :
  P [EOpenLock path] -> ext_ok P (FileLock_acquire path).
Proof.
  intros H E w. unfold FileLock_acquire. simpl.
  destruct (e_os_nt E); [destruct (w_locks w path); [| destruct (Nat.ltb _ _) |]|
                         destruct (w_locks w path)];
    eexists; (split; [reflexivity | exact H]).
Qed.

Lemma ext_enforce_offline_guard (P : list event -> Prop) (path : string) :
  closed P -> ext_ok P (enforce_offline_guard path).
Proof.
  intros [Hnil _] E w. unfold enforce_offline_guard.
  destruct (e_src E path) as [body|]; [destruct (scan_for_banned_imports body)|];
    exists []; rewrite app_nil_r; (split; [reflexivity | exact Hnil]).
Qed.

(** A subprocess followed by a continuation that writes no checkpoint when
    the exit code is not 0, and spawns nothing. *)
Lemma ext_spawn_then {B : Type} (processor name : string) (k : ProcResult -> M B) :
  (forall r, pr_returncode r = 0 -> ext_ok no_spawn (k r)) ->
  (forall r, pr_returncode r <> 0 -> ext_ok no_spawn_cp (k r)) ->
  ext_ok cp_clean (bind (spawn processor name) k).
Proof.
  intros Hok Hfail E w. unfold bind, spawn. simpl.
  set (r := e_behaviour E (w_spawned w)).
  set (w1 := emit (ESpawn processor (pr_returncode r)) _).
  destruct (Z.eq_dec (pr_returncode r) 0) as [H0|H0].
  - destruct (Hok r H0 E w1) as [n [Hn Pn]].
    exists (ESpawn processor (pr_returncode r) :: n).
    destruct (k r E w1) as [o w2]. simpl in *. rewrite Hn. subst w1. simpl.
    rewrite <- app_assoc. split; [destruct (pr_progress r); reflexivity|].
    intros last. simpl. rewrite H0. apply no_spawn_after_ok. exact Pn.
  - destruct (Hfail r H0 E w1) as [n [Hn Pn]].
    exists (ESpawn processor (pr_returncode r) :: n).
    destruct (k r E w1) as [o w2]. simpl in *. rewrite Hn. subst w1. simpl.
    rewrite <- app_assoc. split; [destruct (pr_progress r); reflexivity|].
    intros last. simpl. apply (no_spawn_cp_clean n Pn).
Qed.

Create HintDb ext discriminated.
#[local] Hint Resolve closed_no_spawn_cp closed_no_spawn closed_cp_clean : ext.
#[local] Hint Resolve ext_ret ext_raise ext_gets ext_env ext_load_stage_state
  ext_read_checkpoint ext_marker_exists ext_audit_log ext_save_stage_state
  ext_write_checkpoint ext_write_marker ext_save_run_state ext_aggregate_metrics
  ext_sleep ext_makedirs ext_FileLock_acquire ext_enforce_offline_guard : ext.
#[local] Hint Extern 1 (no_spawn _) => reflexivity : ext.
#[local] Hint Extern 1 (no_spawn_cp _) => reflexivity : ext.
#[local] Hint Extern 1 (cp_clean _) => (intro; reflexivity) : ext.

(** Decomposes a computation into the primitives above. *)
Ltac ext_auto :=
  repeat (cbv beta zeta;
    match goal with
    | |- ext_ok _ (bind _ _) => apply ext_bind; [solve [auto with ext] | | intros ?]
    | |- ext_ok _ (try_finally _ _) =>
        apply ext_try_finally; [solve [auto with ext] | | intros ?]
    | |- ext_ok _ (if ?c then _ else _) => destruct c
    | |- ext_ok _ (match ?x with _ => _ end) => destruct x
    | |- ext_ok _ _ => solve [eauto with ext]
    end).

Lemma attempt_body_cp_clean (stage : Stage) (run_id output_marker : string) (k : Z)
    (ai0 : AttemptInfo) (ls : LoopState) :
  ext_ok cp_clean (attempt_body stage run_id output_marker k ai0 ls).
Proof.
  unfold attempt_body.
  apply ext_bind; [auto with ext | auto with ext | intros ex].
  destruct (negb ex); [auto with ext|].
  apply ext_bind; [auto with ext | destruct (use_lock stage); auto with ext | intros _].
  apply ext_spawn_then; intros r Hr; cbv beta zeta.
  - rewrite Hr. simpl negb. cbv iota. ext_auto.
  - apply Z.eqb_neq in Hr. rewrite Hr. simpl negb. cbv iota. ext_auto.
Qed.
#[local] Hint Resolve attempt_body_cp_clean : ext.

Lemma run_attempt_cp_clean (stage : Stage) (run_id output_marker : string) (ls : LoopState) :
  ext_ok cp_clean (run_attempt stage run_id output_marker ls).
Proof. unfold run_attempt. ext_auto. Qed.
#[local] Hint Resolve run_attempt_cp_clean : ext.

Lemma attempt_loop_cp_clean (fuel : nat) (stage : Stage) (run_id output_marker : string)
    (ls : LoopState) :
  ext_ok cp_clean (attempt_loop fuel stage run_id output_marker ls).
Proof.
  revert ls. induction fuel as [|f IH]; intros ls; simpl; ext_auto.
Qed.
#[local] Hint Resolve attempt_loop_cp_clean : ext.

Lemma run_stage_execute_cp_clean (stage : Stage) (run_id : string) (ss : StageState)
    (idem_key : option string) (output_marker : string) :
  ext_ok cp_clean (run_stage_execute stage run_id ss idem_key output_marker).
Proof. unfold run_stage_execute. ext_auto. Qed.
#[local] Hint Resolve run_stage_execute_cp_clean : ext.

Lemma run_stage_cp_clean (stage : Stage) (run_id : string) :
  ext_ok cp_clean (run_stage stage run_id).
Proof. unfold run_stage. ext_auto. Qed.

(** Claim C6. A checkpoint is written only after a successful attempt:
    among the events one call of [run_stage] adds to the trace, every
    checkpoint write comes after a subprocess and the latest subprocess
    before it exited with code 0; a failed attempt writes no checkpoint. *)
Theorem run_stage_checkpoint_only_after_success (stage : Stage) (run_id : string)
    (E : Env) (w : World) :
  exists new, w_trace (snd (run_stage stage run_id E w)) = (w_trace w ++ new)%list /\
              cp_after_ok None new = true.
Proof.
  destruct (run_stage_cp_clean stage run_id E w) as [new [Hn Pn]].
  exists new. split; [exact Hn | apply Pn].
Qed.

(** ** Offline guard violations *)

Lemma run_stage_guard_violation (stage : Stage) (run_id : string) (body : list stmt)
    (E : Env) (w : World) :
  makedirs_error (st_outputDir stage) w = None ->
  offline_guard stage = true -> e_src E (st_processor stage) = Some body ->
  scan_for_banned_imports body <> [] ->
  run_stage stage run_id E w =
  (Raise (RuntimeError ("Offline guard violation: " ++ st_processor stage
                        ++ " imports banned modules: "
                        ++ py_list_repr (scan_for_banned_imports body))),
   makedirs_world (st_outputDir stage) w).
Proof.
  intros Hmd Hoff Hsrc Hscan. unfold run_stage, bind at 1. cbv beta zeta.
  rewrite (makedirs_ok _ _ _ Hmd). unfold bind. cbn [load_stage_state gets].
  rewrite Hoff. unfold enforce_offline_guard. rewrite Hsrc.
  destruct (scan_for_banned_imports body) as [|m ms]; [contradiction|reflexivity].
Qed.

(** ** Locking *)

Lemma run_attempt_lock_stops (stage : Stage) (run_id output_marker : string)
    (ls : LoopState) (E : Env) (w : World) (o : outcome unit) :
  use_lock stage = true -> w_fs w (st_processor stage) <> None ->
  audit_readable (e_os_nt E) (w_audit w run_id) = true ->
  (forall w', w_locks w' = w_locks w -> fst (FileLock_acquire (lock_path stage) E w') = o) ->
  (o = Blocked -> fst (run_attempt stage run_id output_marker ls E w) = Blocked) /\
  (forall e, o = Raise e -> fst (run_attempt stage run_id output_marker ls E w) = Raise e).
Proof.
  intros Hlock Hfs Hr HL.
  destruct (audit_readable_str _ _ Hr) as [p Hp].
  destruct (w_fs w (st_processor stage)) as [f|] eqn:Hf; [|contradiction].
  split; [intros Ho | intros e Ho];
  unfold run_attempt, bind at 1; cbn [env]; unfold bind at 1;
  rewrite (audit_log_ok _ _ _ _ _ _ _ _ Hp);
  set (w1 := emit _ _);
  (assert (Hl1 : w_locks w1 = w_locks w) by reflexivity);
  (assert (Hf1 : w_fs w1 (st_processor stage) = Some f) by exact Hf);
  unfold bind at 1, try_finally, attempt_body, bind at 1; cbn [gets]; rewrite Hf1;
  cbn [negb]; unfold bind at 1; rewrite Hlock; unfold lock_path in HL;
  specialize (HL w1 Hl1);
  destruct (FileLock_acquire _ E w1) as [o1 w2]; simpl in HL; subst o1 o; reflexivity.
Qed.

Lemma attempt_loop_stops (fuel : nat) (stage : Stage) (run_id output_marker : string)
    (ls : LoopState) (E : Env) (w : World) :
  ls_attempts ls < max_attempts stage ->
  (fst (run_attempt stage run_id output_marker ls E w) = Blocked ->
   fst (attempt_loop (S fuel) stage run_id output_marker ls E w) = Blocked) /\
  (forall e, fst (run_attempt stage run_id output_marker ls E w) = Raise e ->
   fst (attempt_loop (S fuel) stage run_id output_marker ls E w) = Raise e).
Proof.
  intros Hlt. simpl. apply Z.ltb_lt in Hlt. rewrite Hlt. unfold bind.
  destruct (run_attempt stage run_id output_marker ls E w) as [o w1]. simpl.
  split; [intros ->; reflexivity | intros e ->; reflexivity].
Qed.

Lemma run_stage_execute_stops (stage : Stage) (run_id : string) (ss : StageState)
    (key : option string) (marker : string) (E : Env) (w : World) (o : outcome unit) :
  use_lock stage = true -> 0 < max_attempts stage ->
  w_fs w (st_processor stage) <> None ->
  audit_readable (e_os_nt E) (w_audit w run_id) = true ->
  (forall w', w_locks w' = w_locks w -> fst (FileLock_acquire (lock_path stage) E w') = o) ->
  (o = Blocked -> fst (run_stage_execute stage run_id ss key marker E w) = Blocked) /\
  (forall e, o = Raise e -> fst (run_stage_execute stage run_id ss key marker E w) = Raise e).
Proof.
  intros Hlock Hmax Hfs Hr HL.
  destruct (Z.to_nat (max_attempts stage)) as [|f] eqn:Hn; [lia|].
  destruct (run_attempt_lock_stops stage run_id marker (mkLoop 0 "failed" None ss) E w o
              Hlock Hfs Hr HL) as [HB HR].
  destruct (attempt_loop_stops f stage run_id marker (mkLoop 0 "failed" None ss) E w
              ltac:(simpl; exact Hmax)) as [LB LR].
  rewrite <- Hn in LB, LR.
  unfold run_stage_execute, bind.
  destruct (checkpoint_enabled stage); cbn [read_checkpoint gets ret];
    (split; [intros Ho; specialize (LB (HB Ho)) | intros e Ho; specialize (LR e (HR e Ho))]);
    destruct (attempt_loop _ _ _ _ _ _ _) as [o2 w2]; simpl in *; subst o2; reflexivity.
Qed.

(** ** Failed stages *)

Lemma run_stage_execute_saves_key (stage : Stage) (run_id : string) (ss : StageState)
    (key : option string) (marker : string) (E : Env) (w : World) (err : option string) :
  idem_enabled stage = true ->
  fst (run_stage_execute stage run_id ss key marker E w) = Ret (StageFailed err) ->
  exists ss', w_stage_states (snd (run_stage_execute stage run_id ss key marker E w))
                (st_name stage) = Some ss' /\
              ss_lastStatus ss' <> Some "ok" /\ ss_idempotencyKey ss' = key.
Proof.
  intros Hidem. unfold run_stage_execute, bind.
  destruct (checkpoint_enabled stage); cbn [read_checkpoint gets ret];
  (destruct (attempt_loop _ _ _ _ _ _ _) as [[ls|e|] w2]; simpl; try discriminate);
  (destruct (String.eqb (ls_status ls) "ok") eqn:Hst; simpl);
  intros H;
  match goal with |- context [audit_log ?a ?b ?c ?d ?e ?E0 ?w0] =>
    pose proof (audit_log_stage_states a b c d e E0 w0) as Hs;
    destruct (audit_log a b c d e E0 w0) as [o3 w3]; simpl in Hs |- *
  end;
  (destruct o3; simpl in H |- *; try discriminate); rewrite Hs;
  rewrite Hidem; eexists; unfold upd; rewrite String.eqb_refl;
  (split; [reflexivity|]); simpl;
  (split; [|reflexivity]);
  intros H2; injection H2 as H2; rewrite H2 in Hst; discriminate.
Qed.

(** ** The RunState files during the stages *)

Lemma krs_bind {A B : Type} (m : M A) (f : A -> M B) :
  keeps_run_states m -> (forall a, keeps_run_states (f a)) -> keeps_run_states (bind m f).
Proof.
  intros Hm Hf E w. unfold bind. specialize (Hm E w).
  destruct (m E w) as [[a|e|] w1]; simpl in *; [rewrite Hf; exact Hm | exact Hm | exact Hm].
Qed.

Lemma krs_try_finally {A B : Type} (body : M A) (on_exit : option A -> M B) :
  keeps_run_states body -> (forall o, keeps_run_states (on_exit o)) ->
  keeps_run_states (try_finally body on_exit).
Proof.
  intros Hb Hf E w. unfold try_finally. specialize (Hb E w).
  destruct (body E w) as [[a|e|] w1]; simpl in Hb.
  - specialize (Hf (Some a) E w1).
    destruct (on_exit (Some a) E w1) as [[b|e'|] w2]; simpl in *; congruence.
  - specialize (Hf None E w1). destruct (on_exit None E w1) as [[b|e'|] w2]; simpl in *; congruence.
  - exact Hb.
Qed.

Lemma krs_ret {A : Type} (a : A) : keeps_run_states (ret a).
Proof. intros E w. reflexivity. Qed.

Lemma krs_raise {A : Type} (e : exn) : keeps_run_states (@raise A e).
Proof. intros E w. reflexivity. Qed.

Lemma krs_gets {A : Type} (f : World -> A) : keeps_run_states (gets f).
Proof. intros E w. reflexivity. Qed.

Lemma krs_env {A : Type} (f : Env -> A) : keeps_run_states (env f).
Proof. intros E w. reflexivity. Qed.

Lemma krs_audit_log (run_id : string) (stage : option string) (ev message : string)
    (extra : dict) : keeps_run_states (audit_log run_id stage ev message extra).
Proof. intros E w. apply audit_log_run_states. Qed.

Lemma krs_save_stage_state (name : string) (ss : StageState) :
  keeps_run_states (save_stage_state name ss).
Proof. intros E w. reflexivity. Qed.

Lemma krs_write_checkpoint (name : string) (n : Z) : keeps_run_states (write_checkpoint name n).
Proof. intros E w. reflexivity. Qed.

Lemma krs_write_marker (path : string) : keeps_run_states (write_marker path).
Proof. intros E w. reflexivity. Qed.

Lemma krs_sleep (k : Z) : keeps_run_states (sleep k).
Proof. intros E w. reflexivity. Qed.

Lemma krs_load_stage_state (name : string) : keeps_run_states (load_stage_state name).
Proof. intros E w. reflexivity. Qed.

Lemma krs_read_checkpoint (name : string) : keeps_run_states (read_checkpoint name).
Proof. intros E w. reflexivity. Qed.

Lemma krs_marker_exists (path : string) : keeps_run_states (marker_exists path).
Proof. intros E w. reflexivity. Qed.

Lemma krs_spawn (processor name : string) : keeps_run_states (spawn processor name).
Proof. intros E w. unfold spawn. simpl. destruct (pr_progress _); reflexivity. Qed.

Lemma krs_FileLock_acquire (path : string) : keeps_run_states (FileLock_acquire path).
Proof.
  intros E w. unfold FileLock_acquire. simpl.
  destruct (e_os_nt E); destruct (w_locks w path); try destruct (Nat.ltb _ _); reflexivity.
Qed.

Lemma krs_makedirs (d : string) : keeps_run_states (makedirs d).
Proof.
  intros E w. unfold makedirs. destruct (makedirs_error d w); [reflexivity|].
  unfold makedirs_world. destruct (existsb _ _); reflexivity.
Qed.

Lemma krs_enforce_offline_guard (path : string) : keeps_run_states (enforce_offline_guard path).
Proof.
  intros E w. unfold enforce_offline_guard.
  destruct (e_src E path) as [body|]; [destruct (scan_for_banned_imports body)|]; reflexivity.
Qed.

Create HintDb runstates discriminated.
#[local] Hint Resolve krs_ret krs_raise krs_gets krs_env krs_audit_log krs_save_stage_state
  krs_write_checkpoint krs_write_marker krs_sleep krs_load_stage_state krs_read_checkpoint
  krs_marker_exists krs_spawn krs_FileLock_acquire krs_makedirs krs_enforce_offline_guard
  : runstates.

(** Proves [keeps_run_states] of a computation built from the primitives
    above. *)
Ltac krs_auto :=
  repeat (cbv beta zeta;
    match goal with
    | |- keeps_run_states (bind _ _) => apply krs_bind; [|intros ?]
    | |- keeps_run_states (try_finally _ _) => apply krs_try_finally; [|intros ?]
    | |- keeps_run_states (if ?c then _ else _) => destruct c
    | |- keeps_run_states (match ?x with _ => _ end) => destruct x
    | |- keeps_run_states _ => solve [auto with runstates]
    end).

Lemma attempt_body_run_states (stage : Stage) (run_id output_marker : string) (k : Z)
    (ai0 : AttemptInfo) (ls : LoopState) :
  keeps_run_states (attempt_body stage run_id output_marker k ai0 ls).
Proof. unfold attempt_body. krs_auto. Qed.
#[local] Hint Resolve attempt_body_run_states : runstates.

Lemma run_attempt_run_states (stage : Stage) (run_id output_marker : string) (ls : LoopState) :
  keeps_run_states (run_attempt stage run_id output_marker ls).
Proof. unfold run_attempt. krs_auto. Qed.
#[local] Hint Resolve run_attempt_run_states : runstates.

Lemma attempt_loop_run_states (fuel : nat) (stage : Stage) (run_id output_marker : string)
    (ls : LoopState) :
  keeps_run_states (attempt_loop fuel stage run_id output_marker ls).
Proof.
  revert ls. induction fuel as [|f IH]; intros ls; simpl; [apply krs_ret|].
  destruct (ls_attempts ls <? max_attempts stage); [|apply krs_ret].
  apply krs_bind; [apply run_attempt_run_states|]. intros [c ls1].
  destruct c; [apply IH | apply krs_ret].
Qed.
#[local] Hint Resolve attempt_loop_run_states : runstates.

Lemma run_stage_run_states (stage : Stage) (run_id : string) :
  keeps_run_states (run_stage stage run_id).
Proof. unfold run_stage, run_stage_execute. krs_auto. Qed.

Lemma run_stages_run_states (stages : list Stage) (run_id : string)
    (results : list StageResult) :
  keeps_run_states (run_stages stages run_id results).
Proof.
  revert results. induction stages as [|st stages IH]; intros results; simpl; [apply krs_ret|].
  apply krs_bind; [apply run_stage_run_states|]. intros r. cbv beta zeta.
  destruct (is_failed r); [apply krs_ret | apply IH].
Qed.

(** Once the stages of a prefix have all run without a failed result, the
    loop goes on with the rest. *)
Lemma run_stages_app (l1 l2 : list Stage) (run_id : string) (res res1 : list StageResult)
    (E : Env) (w w1 : World) :
  run_stages l1 run_id res E w = (Ret (res1, "completed"), w1) ->
  run_stages (l1 ++ l2) run_id res E w = run_stages l2 run_id res1 E w1.
Proof.
  revert res w. induction l1 as [|st l1 IH]; intros res w H.
  - simpl in H. injection H as -> ->. reflexivity.
  - simpl in *. unfold bind in *.
    destruct (run_stage st run_id E w) as [[r|e|] w2]; try discriminate.
    destruct (is_failed r); [discriminate|]. apply IH. exact H.
Qed.

(** [run_pipeline] of a named pipeline, once the [run_start] audit line
    and the "running" RunState are written. *)
Lemma run_pipeline_start (p : Pipeline) (run_id pname : string) (E : Env) (w : World) :
  p_name p = Some pname ->
  audit_readable (e_os_nt E) (w_audit w run_id) = true ->
  run_pipeline p run_id E w =
  (r <- run_stages (map validate_stage (p_stages p)) run_id [] ;;
   let (results, state) := r in
   save_run_state run_id state ;;
   aggregate_metrics run_id results ;;
   audit_log run_id None "run_end" state [] ;;
   ret state) E
  (snd (save_run_state run_id "running" E
          (snd (audit_log run_id None "run_start" ("Pipeline " ++ pname) [] E w)))).
Proof.
  intros Hn Hr. destruct (audit_readable_str _ _ Hr) as [h Hh].
  unfold run_pipeline, bind at 1. rewrite Hn. cbn [with_default].
  rewrite (audit_log_ok _ _ _ _ _ _ _ _ Hh). reflexivity.
Qed.

Lemma makedirs_world_run_states (d : string) (w : World) :
  w_run_states (makedirs_world d w) = w_run_states w.
Proof. unfold makedirs_world. destruct (existsb _ _); reflexivity. Qed.

(** Claim C2, as the code has it. Take a named pipeline whose stage [s]
    has the offline guard on and a processor that imports a banned module,
    and whose earlier stages all ran without a failed result (the run
    reached [s]; the audit hash read at [run_start] is a string). When
    [os.makedirs] of the output directory of [s] succeeds, the
    [RuntimeError] of the guard escapes [run_stage] and [run_pipeline]: no
    attempt starts, no subprocess runs and no StageState is written (the
    stage only makes its output directory), the RunState stays "running"
    (neither "failed" nor any later stage, metrics or [run_end] audit), and
    the process exits with status 1 because the exception is uncaught.
    When [os.makedirs] fails, its own error escapes the same way, before
    the guard. *)
Theorem run_pipeline_guard_violation (p : Pipeline) (run_id pname : string)
    (pre : list Stage) (s : Stage) (rest : list Stage) (body : list stmt) (E : Env) (w : World)
    (results : list StageResult) (w1 : World) :
  p_name p = Some pname -> p_stages p = (pre ++ s :: rest)%list -> offline_guard s = true ->
  e_src E (st_processor s) = Some body -> scan_for_banned_imports body <> [] ->
  audit_readable (e_os_nt E) (w_audit w run_id) = true ->
  let w0 := snd (save_run_state run_id "running" E
                   (snd (audit_log run_id None "run_start" ("Pipeline " ++ pname) [] E w))) in
  run_stages (map validate_stage pre) run_id [] E w0 = (Ret (results, "completed"), w1) ->
  (makedirs_error (st_outputDir s) w1 = None ->
   let w' := snd (run_pipeline p run_id E w) in
   fst (run_pipeline p run_id E w) =
     Raise (RuntimeError ("Offline guard violation: " ++ st_processor s
                          ++ " imports banned modules: "
                          ++ py_list_repr (scan_for_banned_imports body))) /\
   main p run_id E w = (Ret 1, w') /\
   w_run_states w' run_id = Some "running" /\
   w_spawned w' = w_spawned w1 /\
   w_stage_states w' = w_stage_states w1 /\
   w_trace w' = (w_trace w1 ++ (if existsb (String.eqb (st_outputDir s)) (w_dirs w1) then []
                                else [EMkdir (st_outputDir s)]))%list) /\
  (forall e, makedirs_error (st_outputDir s) w1 = Some e ->
   run_pipeline p run_id E w = (Raise e, w1) /\ main p run_id E w = (Ret 1, w1) /\
   w_run_states w1 run_id = Some "running").
Proof.
  intros Hn Hs Hoff Hsrc Hscan Hr w0 Hpre.
  assert (Hrs1 : w_run_states w1 run_id = Some "running").
  { pose proof (run_stages_run_states (map validate_stage pre) run_id [] E w0) as H.
    rewrite Hpre in H. simpl in H. rewrite H. subst w0. simpl.
    rewrite audit_log_run_states. unfold upd. rewrite String.eqb_refl. reflexivity. }
  pose proof (run_pipeline_start p run_id pname E w Hn Hr) as Hstart. fold w0 in Hstart.
  rewrite Hs, map_app in Hstart. unfold bind at 1 in Hstart.
  rewrite (run_stages_app _ _ _ _ _ _ _ _ Hpre) in Hstart.
  cbn [map run_stages] in Hstart. unfold bind at 1 in Hstart.
  split.
  - intros Hmd w'.
    rewrite (run_stage_guard_violation (validate_stage s) run_id body E w1 Hmd Hoff Hsrc Hscan)
      in Hstart.
    subst w'. rewrite Hstart. simpl snd.
    destruct (makedirs_world_fields (st_outputDir s) w1) as (_ & Hss & _ & _ & _ & _ & Hsp).
    split; [reflexivity|].
    split; [unfold main; rewrite Hstart; reflexivity|].
    split; [rewrite makedirs_world_run_states; exact Hrs1|].
    split; [exact Hsp|]. split; [exact Hss|].
    unfold makedirs_world. cbn [validate_stage st_outputDir].
    destruct (existsb (String.eqb (st_outputDir s)) (w_dirs w1)); simpl;
      [rewrite app_nil_r|]; reflexivity.
  - intros e Hmd.
    rewrite (run_stage_makedirs_raise (validate_stage s) run_id E w1 e Hmd) in Hstart.
    split; [exact Hstart|]. split; [unfold main; rewrite Hstart; reflexivity | exact Hrs1].
Qed.

(** Claim C5, as the code has it. Lock acquisition has no configurable
    timeout and no [LockUnavailable] error. When a stage runs with
    [useLock] (output directory made, guard passed, not skipped, at least
    one attempt, processor present, audit hash readable):
    - elsewhere than on Windows, [fcntl.flock] blocks: with the lock held
      by another process forever, [run_stage] never returns; with the lock
      released after [t] seconds, the acquisition returns after [t]
      seconds, however large [t] is;
    - on Windows, [msvcrt.locking(LK_LOCK)] retries for about 10 seconds:
      a lock released within them is acquired, and otherwise the [OSError]
      "Resource deadlock avoided" escapes [run_stage] as an exception (it
      does not become a failed stage result). *)
Theorem run_stage_lock_blocks_forever (stage : Stage) (run_id : string) (E : Env) (w : World) :
  use_lock stage = true -> makedirs_error (st_outputDir stage) w = None -> guard_ok E stage ->
  ~ (idem_enabled stage = true /\
     ss_idempotencyKey (loaded_state stage w) = Some (stage_key stage w) /\
     In (marker_path stage) (w_markers w)) ->
  0 < max_attempts stage -> w_fs w (st_processor stage) <> None ->
  audit_readable (e_os_nt E) (w_audit w run_id) = true ->
  (e_os_nt E = false -> w_locks w (lock_path stage) = HeldForever ->
   fst (run_stage stage run_id E w) = Blocked) /\
  (e_os_nt E = true ->
   (w_locks w (lock_path stage) = HeldForever \/
    exists t, w_locks w (lock_path stage) = HeldFor t /\ (LK_LOCK_TRIES <= t)%nat) ->
   fst (run_stage stage run_id E w) = Raise (OSError EDEADLOCK_MSG)) /\
  (forall (w0 : World) (t : nat), w_locks w0 (lock_path stage) = HeldFor t ->
   (e_os_nt E = false \/ (t < LK_LOCK_TRIES)%nat) ->
   FileLock_acquire (lock_path stage) E w0 =
   (Ret tt, set_w_locks (set_w_clock (emit (EOpenLock (lock_path stage)) w0) (w_clock w0 + t)%nat)
              (upd (w_locks w0) (lock_path stage) Free))).
Proof.
  intros Hlock Hmd Hg Hnot Hmax Hfs Hr.
  destruct (makedirs_world_fields (st_outputDir stage) w) as (Hfs' & _ & _ & _ & Hlk & Hau & _).
  assert (Hexec : forall o : outcome StageResult,
            (forall ss key, fst (run_stage_execute stage run_id ss key (marker_path stage) E
                                   (makedirs_world (st_outputDir stage) w)) = o) ->
            fst (run_stage stage run_id E w) = o).
  { intros o Ho. rewrite (run_stage_after_guard stage run_id E w Hmd Hg).
    destruct (idem_enabled stage) eqn:Hidem; simpl andb; [|apply Ho].
    destruct (key_eqb _ _) eqn:Hk; destruct (existsb _ _) eqn:Hm; simpl; try apply Ho.
    exfalso; apply Hnot; split; [reflexivity|].
    split; [apply key_eqb_some; exact Hk | apply existsb_eqb_In; exact Hm]. }
  assert (Hfs1 : w_fs (makedirs_world (st_outputDir stage) w) (st_processor stage) <> None)
    by (rewrite Hfs'; exact Hfs).
  assert (Hr1 : audit_readable (e_os_nt E) (w_audit (makedirs_world (st_outputDir stage) w) run_id)
                = true) by (rewrite Hau; exact Hr).
  split; [|split].
  - intros Hnt Hheld. apply Hexec. intros ss key.
    apply (run_stage_execute_stops stage run_id ss key (marker_path stage) E _ Blocked
             Hlock Hmax Hfs1 Hr1); [|reflexivity].
    intros w' Hw'. unfold FileLock_acquire. simpl. rewrite Hnt, Hw', Hlk, Hheld. reflexivity.
  - intros Hnt Hheld. apply Hexec. intros ss key.
    apply (run_stage_execute_stops stage run_id ss key (marker_path stage) E _
             (Raise (OSError EDEADLOCK_MSG)) Hlock Hmax Hfs1 Hr1); [|reflexivity].
    intros w' Hw'. unfold FileLock_acquire. simpl. rewrite Hnt, Hw', Hlk.
    destruct Hheld as [Hheld | (t & Ht & Hle)]; rewrite ?Hheld, ?Ht; [reflexivity|].
    destruct (Nat.ltb_spec t LK_LOCK_TRIES); [lia | reflexivity].
  - intros w0 t Ht Hc. unfold FileLock_acquire. simpl. rewrite Ht.
    destruct (e_os_nt E); [|reflexivity].
    destruct Hc as [Hc|Hc]; [discriminate|].
    destruct (Nat.ltb_spec t LK_LOCK_TRIES); [reflexivity | lia].
Qed.

(** Claim C4, as the code has it. When a stage with idempotency enabled
    runs (guard passed) and fails, the StageState it saves records the
    fingerprint computed for this run as [idempotencyKey], together with a
    status other than "ok": the key is not only set by successful runs. *)
Theorem run_stage_failure_records_key (stage : Stage) (run_id : string) (E : Env) (w : World)
    (err : option string) :
  idem_enabled stage = true -> guard_ok E stage ->
  fst (run_stage stage run_id E w) = Ret (StageFailed err) ->
  exists ss', w_stage_states (snd (run_stage stage run_id E w)) (st_name stage) = Some ss' /\
              ss_lastStatus ss' <> Some "ok" /\
              ss_idempotencyKey ss' = Some (stage_key stage w).
Proof.
  intros Hidem Hg H.
  destruct (makedirs_error (st_outputDir stage) w) as [e|] eqn:Hmd.
  { rewrite (run_stage_makedirs_raise stage run_id E w e Hmd) in H. discriminate. }
  revert H. rewrite (run_stage_after_guard stage run_id E w Hmd Hg). rewrite Hidem.
  simpl andb.
  destruct (key_eqb _ _ && existsb _ _).
  - unfold bind. destruct (audit_log _ _ _ _ _ _ _) as [[]]; cbn; discriminate.
  - apply run_stage_execute_saves_key. exact Hidem.
Qed.

(** Claim C3, as the code has it. Whatever state a run ends in, "completed"
    or "failed", [main] ignores the value [run_pipeline] returns, so the
    process exits with status 0. *)
Theorem main_exit_status_ignores_state (p : Pipeline) (run_id state : string)
    (E : Env) (w w' : World) :
  run_pipeline p run_id E w = (Ret state, w') -> main p run_id E w = (Ret 0, w').
Proof. intros H. unfold main. rewrite H. reflexivity. Qed.

(** ** Validation of the pipeline spec *)

Lemma pd_get_set (d : pydict) (k k' : string) (v : pyval) :
  pd_get (pd_set d k v) k' = if String.eqb k' k then Some v else pd_get d k'.
Proof.
  induction d as [|[k0 v0] d IH]; simpl.
  - destruct (String.eqb k' k); reflexivity.
  - destruct (String.eqb k k0) eqn:H1; simpl.
    + apply String.eqb_eq in H1. subst k0. destruct (String.eqb k' k); reflexivity.
    + rewrite IH. destruct (String.eqb k' k0) eqn:H3;
        destruct (String.eqb k' k) eqn:H2; try reflexivity.
      apply String.eqb_eq in H2, H3. subst. rewrite String.eqb_refl in H1. discriminate.
Qed.

Lemma pd_set_set (d : pydict) (k : string) (v : pyval) :
  pd_set (pd_set d k v) k v = pd_set d k v.
Proof.
  induction d as [|[k0 v0] d IH]; simpl.
  - rewrite String.eqb_refl. reflexivity.
  - destruct (String.eqb k k0) eqn:H1; simpl.
    + rewrite H1. reflexivity.
    + rewrite H1, IH. reflexivity.
Qed.

Lemma pd_get_app (d e : pydict) (k : string) :
  pd_get (d ++ e)%list k = match pd_get d k with Some v => Some v | None => pd_get e k end.
Proof.
  induction d as [|[k0 v0] d IH]; simpl; [reflexivity|].
  destruct (String.eqb k k0); [reflexivity | exact IH].
Qed.

Lemma pd_get_setdefault (d : pydict) (k k' : string) (v : pyval) :
  pd_get (setdefault d k v) k' =
  match pd_get d k' with
  | Some x => Some x
  | None => if String.eqb k' k then Some v else None
  end.
Proof.
  unfold setdefault. destruct (pd_get d k) as [x|] eqn:Hk.
  - destruct (pd_get d k') eqn:Hk'; [reflexivity|].
    destruct (String.eqb k' k) eqn:He; [|reflexivity].
    apply String.eqb_eq in He. subst k'. congruence.
  - rewrite pd_get_app. destruct (pd_get d k'); [reflexivity|]. simpl.
    destruct (String.eqb k' k); reflexivity.
Qed.

(** Setting defaults from a list keeps every key present and adds the first
    default of every absent key. *)
Lemma pd_get_fold_setdefault (defs d : pydict) (k : string) :
  pd_get (fold_left (fun d kv => setdefault d (fst kv) (snd kv)) defs d) k =
  match pd_get d k with Some v => Some v | None => pd_get defs k end.
Proof.
  revert d. induction defs as [|[k0 v0] defs IH]; intros d; simpl.
  - destruct (pd_get d k); reflexivity.
  - rewrite IH, pd_get_setdefault.
    destruct (pd_get d k); [reflexivity|].
    destruct (String.eqb k k0); reflexivity.
Qed.

Lemma fold_setdefault_present (defs d : pydict) :
  (forall kv, In kv defs -> pd_get d (fst kv) <> None) ->
  fold_left (fun d kv => setdefault d (fst kv) (snd kv)) defs d = d.
Proof.
  revert d. induction defs as [|[k0 v0] defs IH]; intros d H; simpl; [reflexivity|].
  unfold setdefault at 2. simpl in H.
  destruct (pd_get d k0) eqn:Hk.
  - apply IH. intros kv Hin. apply H. right. exact Hin.
  - exfalso. apply (H (k0, v0)); [left; reflexivity | exact Hk].
Qed.

Lemma set_stage_defaults_get (d : pydict) (k : string) :
  pd_get (set_stage_defaults d) k =
  match pd_get d k with Some v => Some v | None => pd_get stage_defaults k end.
Proof. apply pd_get_fold_setdefault. Qed.

Lemma set_stage_defaults_idem (d : pydict) :
  set_stage_defaults (set_stage_defaults d) = set_stage_defaults d.
Proof.
  apply fold_setdefault_present. intros [k v] Hin. simpl.
  rewrite set_stage_defaults_get. destruct (pd_get d k); [discriminate|].
  unfold stage_defaults in Hin.
  repeat (destruct Hin as [Hin|Hin]; [injection Hin as <- <-; discriminate|]).
  destruct Hin.
Qed.

Lemma missing_field_none (d : pydict) :
  missing_field d = None <->
  forall r, In r ["name"; "processor"; "outputDir"] -> pd_get d r <> None.
Proof.
  unfold missing_field, REQUIRED_FIELDS. simpl.
  destruct (pd_get d "name") eqn:H1; [|split; [discriminate | intros H; exfalso;
    apply (H "name"); [left; reflexivity | exact H1]]].
  destruct (pd_get d "processor") eqn:H2; [|split; [discriminate | intros H; exfalso;
    apply (H "processor"); [right; left; reflexivity | exact H2]]].
  destruct (pd_get d "outputDir") eqn:H3; [|split; [discriminate | intros H; exfalso;
    apply (H "outputDir"); [right; right; left; reflexivity | exact H3]]].
  split; [|reflexivity]. intros _ r Hr.
  destruct Hr as [<-|[<-|[<-|[]]]]; congruence.
Qed.

Lemma missing_field_set_stage_defaults (d : pydict) :
  missing_field d = None -> missing_field (set_stage_defaults d) = None.
Proof.
  rewrite !missing_field_none. intros H r Hr. rewrite set_stage_defaults_get.
  specialize (H r Hr). destruct (pd_get d r); [discriminate | contradiction].
Qed.

Lemma validate_stages_ok (l : list pyval) :
  (exists l', validate_stages l = inr l') <-> Forall stage_shape_ok l.
Proof.
  induction l as [|s l IH]; simpl.
  - split; [intros _; constructor | intros _; eexists; reflexivity].
  - destruct s as [| | | | | |sd];
      try (split; [intros [? H]; discriminate | intros H; inversion H as [|? ? Hs];
           destruct Hs as [? [Hs _]]; discriminate]).
    destruct (missing_field sd) as [r|] eqn:Hm.
    + split; [intros [? H]; discriminate|].
      intros H. inversion H as [|? ? Hs]. destruct Hs as [sd' [Heq Hreq]].
      injection Heq as <-. apply missing_field_none in Hreq. congruence.
    + destruct (validate_stages l) as [e|l''] eqn:Hv.
      * split; [intros [? H]; discriminate|].
        intros H. inversion H as [|? ? _ Hl]. apply IH in Hl. destruct Hl as [? Hl].
        discriminate.
      * split; [intros _|intros _; eexists; reflexivity].
        constructor; [|apply IH; eexists; reflexivity].
        exists sd. split; [reflexivity | apply missing_field_none; exact Hm].
Qed.

(** [validate_pipeline_spec] accepts a spec exactly when it is an object
    whose [stages] key holds a list of objects that each have the keys
    [name], [processor] and [outputDir]. *)
Theorem validate_pipeline_spec_accepts (spec : pyval) :
  (exists spec', validate_pipeline_spec spec = inr spec') <->
  exists d l, spec = PyDict d /\ pd_get d "stages" = Some (PyList l) /\
              Forall stage_shape_ok l.
Proof.
  destruct spec as [| | | | | |d]; simpl;
    try (split; [intros [? H]; discriminate | intros [? [? [H _]]]; discriminate]).
  destruct (pd_get d "stages") as [[| | | | |l|]|] eqn:Hs;
    try (split; [intros [? H]; discriminate |
                 intros [d' [l' [Hd [Hl _]]]]; injection Hd as <-; congruence]).
  split.
  - intros [spec' H]. destruct (validate_stages l) as [e|l'] eqn:Hv; [discriminate|].
    exists d, l. split; [reflexivity|]. split; [exact Hs|].
    apply validate_stages_ok. eexists; exact Hv.
  - intros [d' [l' [Hd [Hl Hf]]]]. injection Hd as <-.
    rewrite Hs in Hl. injection Hl as <-. apply validate_stages_ok in Hf.
    destruct Hf as [l'' Hv]. rewrite Hv. eexists. reflexivity.
Qed.

Lemma validate_stages_shape (l l' : list pyval) :
  validate_stages l = inr l' ->
  Forall2 (fun s s' => exists sd, s = PyDict sd /\ s' = PyDict (set_stage_defaults sd)) l l'.
Proof.
  revert l'. induction l as [|s l IH]; intros l' H; simpl in H.
  - injection H as <-. constructor.
  - destruct s as [| | | | | |sd]; try discriminate.
    destruct (missing_field sd); [discriminate|].
    destruct (validate_stages l) as [e|l''] eqn:Hv; [discriminate|].
    injection H as <-. constructor; [exists sd; split; reflexivity | apply IH; reflexivity].
Qed.

(** After a successful validation the spec keeps all its keys but
    [stages] as they were, and every stage keeps the value of every key it
    had and gains the [setdefault] value of every key it lacked, nothing
    else. *)
Theorem validate_pipeline_spec_defaults (spec spec' : pyval) :
  validate_pipeline_spec spec = inr spec' ->
  exists d d' l l',
    spec = PyDict d /\ spec' = PyDict d' /\
    pd_get d "stages" = Some (PyList l) /\ pd_get d' "stages" = Some (PyList l') /\
    (forall k, k <> "stages" -> pd_get d' k = pd_get d k) /\
    Forall2 (fun s s' => exists sd sd', s = PyDict sd /\ s' = PyDict sd' /\
               forall k, pd_get sd' k =
                         match pd_get sd k with
                         | Some v => Some v
                         | None => pd_get stage_defaults k
                         end) l l'.
Proof.
  destruct spec as [| | | | | |d]; simpl; try discriminate.
  destruct (pd_get d "stages") as [[| | | | |l|]|] eqn:Hs; try discriminate.
  destruct (validate_stages l) as [e|l'] eqn:Hv; [discriminate|].
  intros H. injection H as <-.
  exists d, (pd_set d "stages" (PyList l')), l, l'.
  split; [reflexivity|]. split; [reflexivity|]. split; [exact Hs|].
  split; [rewrite pd_get_set; reflexivity|].
  split.
  - intros k Hk. rewrite pd_get_set. apply String.eqb_neq in Hk. rewrite Hk. reflexivity.
  - apply validate_stages_shape in Hv. clear Hs.
    induction Hv as [|s s' l0 l0' [sd [-> ->]] _ IH]; [constructor|].
    constructor; [|exact IH].
    exists sd, (set_stage_defaults sd). split; [reflexivity|]. split; [reflexivity|].
    apply set_stage_defaults_get.
Qed.

Lemma validate_stages_idem (l l' : list pyval) :
  validate_stages l = inr l' -> validate_stages l' = inr l'.
Proof.
  revert l'. induction l as [|s l IH]; intros l' H; simpl in H.
  - injection H as <-. reflexivity.
  - destruct s as [| | | | | |sd]; try discriminate.
    destruct (missing_field sd) eqn:Hm; [discriminate|].
    destruct (validate_stages l) as [e|l''] eqn:Hv; [discriminate|].
    injection H as <-. simpl.
    rewrite (missing_field_set_stage_defaults sd Hm), (IH l'' eq_refl),
      set_stage_defaults_idem.
    reflexivity.
Qed.

(** Validating a validated spec again changes nothing. *)
Theorem validate_pipeline_spec_idempotent (spec spec' : pyval) :
  validate_pipeline_spec spec = inr spec' -> validate_pipeline_spec spec' = inr spec'.
Proof.
  destruct spec as [| | | | | |d]; simpl; try discriminate.
  destruct (pd_get d "stages") as [[| | | | |l|]|] eqn:Hs; try discriminate.
  destruct (validate_stages l) as [e|l'] eqn:Hv; [discriminate|].
  intros H. injection H as <-. simpl.
  rewrite pd_get_set, String.eqb_refl, (validate_stages_idem l l' Hv), pd_set_set.
  reflexivity.
Qed.

(** ** The canonical JSON of [params] *)

Lemma string_compare_lt_trans (a b c : string) :
  String.compare a b = Lt -> String.compare b c = Lt -> String.compare a c = Lt.
Proof.
  revert b c. induction a as [|x a IH]; intros [|y b] [|z c]; simpl; try discriminate; auto.
  unfold Ascii.compare.
  destruct (N.compare (N_of_ascii x) (N_of_ascii y)) eqn:Hxy; try discriminate; intros H1;
  destruct (N.compare (N_of_ascii y) (N_of_ascii z)) eqn:Hyz; try discriminate; intros H2.
  - apply N.compare_eq_iff in Hxy, Hyz. rewrite Hxy, Hyz, N.compare_refl. exact (IH _ _ H1 H2).
  - apply N.compare_eq_iff in Hxy. rewrite Hxy, Hyz. reflexivity.
  - apply N.compare_eq_iff in Hyz. rewrite <- Hyz, Hxy. reflexivity.
  - assert (H : N.compare (N_of_ascii x) (N_of_ascii z) = Lt).
    { apply N.compare_lt_iff. apply N.lt_trans with (N_of_ascii y);
        apply N.compare_lt_iff; assumption. }
    rewrite H. reflexivity.
Qed.

Lemma key_lt_trans (a b c : string * json) : key_lt a b -> key_lt b c -> key_lt a c.
Proof. unfold key_lt. apply string_compare_lt_trans. Qed.

Lemma key_lt_asym (a b : string * json) : key_lt a b -> key_lt b a -> False.
Proof.
  unfold key_lt. intros H1 H2. rewrite String.compare_antisym, H2 in H1. discriminate.
Qed.

Lemma insert_kv_perm (kv : string * json) (l : dict) :
  Permutation (insert_kv kv l) (kv :: l).
Proof.
  induction l as [|kv' l IH]; simpl; [reflexivity|].
  destruct (String.compare (fst kv) (fst kv')); try reflexivity.
  rewrite IH. apply perm_swap.
Qed.

Lemma sort_dict_perm (d : dict) : Permutation (sort_dict d) d.
Proof.
  induction d as [|kv d IH]; simpl; [reflexivity|].
  rewrite insert_kv_perm, IH. reflexivity.
Qed.

Lemma insert_kv_sorted (kv : string * json) (l : dict) :
  StronglySorted key_lt l -> ~ In (fst kv) (map fst l) ->
  StronglySorted key_lt (insert_kv kv l).
Proof.
  induction l as [|kv' l IH]; intros Hs Hin; simpl.
  - repeat constructor.
  - inversion Hs as [|? ? Hs' Hall]. subst.
    destruct (String.compare (fst kv) (fst kv')) eqn:Hc.
    + apply String.compare_eq_iff in Hc. exfalso. apply Hin. left. symmetry. exact Hc.
    + constructor; [exact Hs|]. constructor; [exact Hc|].
      eapply Forall_impl; [|exact Hall]. intros x Hx. eapply key_lt_trans; eassumption.
    + constructor.
      * apply IH; [exact Hs'|]. intros H. apply Hin. right. exact H.
      * apply (Permutation_Forall (Permutation_sym (insert_kv_perm kv l))).
        constructor; [|exact Hall].
        unfold key_lt. rewrite String.compare_antisym, Hc. reflexivity.
Qed.

Lemma sort_dict_sorted (d : dict) :
  NoDup (map fst d) -> StronglySorted key_lt (sort_dict d).
Proof.
  induction d as [|kv d IH]; intros Hnd; simpl; [constructor|].
  inversion Hnd as [|? ? Hnin Hnd']. subst.
  apply insert_kv_sorted; [apply IH; exact Hnd'|].
  intros H. apply Hnin.
  apply (Permutation_in _ (Permutation_map fst (sort_dict_perm d))). exact H.
Qed.

Lemma sorted_perm_eq (l1 l2 : dict) :
  StronglySorted key_lt l1 -> StronglySorted key_lt l2 -> Permutation l1 l2 -> l1 = l2.
Proof.
  revert l2. induction l1 as [|a l1 IH]; intros l2 H1 H2 Hp.
  - symmetry. apply Permutation_nil. exact Hp.
  - destruct l2 as [|b l2]; [apply Permutation_sym, Permutation_nil in Hp; discriminate|].
    inversion H1 as [|? ? H1' Hall1]. inversion H2 as [|? ? H2' Hall2]. subst.
    assert (Hab : a = b).
    { assert (Ha : In a (b :: l2)) by (apply (Permutation_in _ Hp); left; reflexivity).
      assert (Hb : In b (a :: l1))
        by (apply (Permutation_in _ (Permutation_sym Hp)); left; reflexivity).
      destruct Ha as [Ha|Ha]; [symmetry; exact Ha|].
      destruct Hb as [Hb|Hb]; [exact Hb|].
      exfalso. apply (key_lt_asym a b).
      - rewrite Forall_forall in Hall1. apply Hall1. exact Hb.
      - rewrite Forall_forall in Hall2. apply Hall2. exact Ha. }
    subst b. f_equal. apply IH; [exact H1' | exact H2' |].
    apply Permutation_cons_inv with a. exact Hp.
Qed.

Lemma sort_keys_obj (d : dict) :
  sort_keys (JObj d) = JObj (sort_dict (map (fun kv => (fst kv, sort_keys (snd kv))) d)).
Proof.
  simpl. f_equal. f_equal.
  induction d as [|[k x] d IH]; simpl; [reflexivity|]. rewrite IH. reflexivity.
Qed.

(** [json.dumps(params, sort_keys=True)] does not depend on the order of
    the keys of [params]. *)
Lemma dumps_sorted_perm (p1 p2 : dict) :
  Permutation p1 p2 -> NoDup (map fst p1) -> dumps_sorted p1 = dumps_sorted p2.
Proof.
  intros Hp Hnd. unfold dumps_sorted. rewrite !sort_keys_obj.
  set (f := fun kv : string * json => (fst kv, sort_keys (snd kv))).
  assert (Hf : forall d, map fst (map f d) = map fst d).
  { intros d. rewrite map_map. reflexivity. }
  assert (Hnd2 : NoDup (map fst p2))
    by (apply (Permutation_NoDup (Permutation_map fst Hp)); exact Hnd).
  f_equal. f_equal. apply sorted_perm_eq.
  - apply sort_dict_sorted. rewrite Hf. exact Hnd.
  - apply sort_dict_sorted. rewrite Hf. exact Hnd2.
  - rewrite !sort_dict_perm. apply Permutation_map. exact Hp.
Qed.

(** The fingerprint does not depend on the order in which the keys of
    [params] were written: reordering a params dict (whose keys are
    distinct, as a Python dict's are) gives the same idempotency key. *)
Theorem compute_idempotency_key_params_perm (w : fs) (inputs : list string)
    (processor_path : string) (p1 p2 : dict) :
  Permutation p1 p2 -> NoDup (map fst p1) ->
  compute_idempotency_key w inputs processor_path p1 =
  compute_idempotency_key w inputs processor_path p2.
Proof.
  intros Hp Hnd. unfold compute_idempotency_key.
  destruct p1 as [|kv1 p1]; destruct p2 as [|kv2 p2].
  - reflexivity.
  - apply Permutation_nil in Hp. discriminate.
  - apply Permutation_sym, Permutation_nil in Hp. discriminate.
  - rewrite (dumps_sorted_perm (kv1 :: p1) (kv2 :: p2) Hp Hnd). reflexivity.
Qed.

(** ** Completion markers and attempt counts *)

Lemma mk_bind {A B : Type} (P : list string -> Prop) (m : M A) (R : A -> list string -> Prop)
    (f : A -> M B) (Q : B -> list string -> Prop) :
  mk_triple P m R -> (forall a, mk_triple (R a) (f a) Q) -> mk_triple P (bind m f) Q.
Proof.
  intros Hm Hf E w HP. unfold bind. specialize (Hm E w HP).
  destruct (m E w) as [[a|e|] w1]; [|exact I|exact I]. exact (Hf a E w1 Hm).
Qed.

Lemma mk_keep {A : Type} (P : list string -> Prop) (m : M A) :
  keeps_markers m -> mk_triple P m (fun _ ms => P ms).
Proof.
  intros Hk E w HP. specialize (Hk E w).
  destruct (m E w) as [[a|e|] w1]; simpl in Hk; [rewrite Hk; exact HP | exact I | exact I].
Qed.

Lemma mk_ret {A : Type} (Q : A -> list string -> Prop) (a : A) :
  mk_triple (Q a) (ret a) Q.
Proof. intros E w H. exact H. Qed.

Lemma mk_raise {A : Type} (P : list string -> Prop) (Q : A -> list string -> Prop) (e : exn) :
  mk_triple P (raise e) Q.
Proof. intros E w _. exact I. Qed.

Lemma mk_write_marker (P : list string -> Prop) (path : string) :
  mk_triple P (write_marker path) (fun _ ms => In path ms).
Proof.
  intros E w _. unfold write_marker, modify. simpl.
  destruct (existsb (String.eqb path) (w_markers w)) eqn:He.
  - apply existsb_eqb_In. exact He.
  - apply in_or_app. right. left. reflexivity.
Qed.

Lemma mk_try_finally {A B : Type} (P : list string -> Prop) (body : M A)
    (R : A -> list string -> Prop) (on_exit : option A -> M B)
    (Q : A * B -> list string -> Prop) :
  mk_triple P body R -> (forall a, mk_triple (R a) (on_exit (Some a)) (fun b => Q (a, b))) ->
  mk_triple P (try_finally body on_exit) Q.
Proof.
  intros Hb Hf E w HP. unfold try_finally. specialize (Hb E w HP).
  destruct (body E w) as [[a|e|] w1]; [|destruct (on_exit None E w1) as [[]]; exact I|exact I].
  specialize (Hf a E w1 Hb). destruct (on_exit (Some a) E w1) as [[b|e'|] w2]; auto.
Qed.

Lemma keeps_bind {A B : Type} (m : M A) (f : A -> M B) :
  keeps_markers m -> (forall a, keeps_markers (f a)) -> keeps_markers (bind m f).
Proof.
  intros Hm Hf E w. unfold bind. specialize (Hm E w).
  destruct (m E w) as [[a|e|] w1]; simpl in *; [rewrite Hf; exact Hm | exact Hm | exact Hm].
Qed.

Lemma keeps_ret {A : Type} (a : A) : keeps_markers (ret a).
Proof. intros E w. reflexivity. Qed.

Lemma keeps_raise {A : Type} (e : exn) : keeps_markers (@raise A e).
Proof. intros E w. reflexivity. Qed.

Lemma keeps_gets {A : Type} (f : World -> A) : keeps_markers (gets f).
Proof. intros E w. reflexivity. Qed.

Lemma keeps_env {A : Type} (f : Env -> A) : keeps_markers (env f).
Proof. intros E w. reflexivity. Qed.

Lemma keeps_audit_log (run_id : string) (stage : option string) (ev message : string)
    (extra : dict) : keeps_markers (audit_log run_id stage ev message extra).
Proof. intros E w. unfold audit_log. destruct (audit_prev_hash _ _); reflexivity. Qed.

Lemma keeps_save_stage_state (name : string) (ss : StageState) :
  keeps_markers (save_stage_state name ss).
Proof. intros E w. reflexivity. Qed.

Lemma keeps_write_checkpoint (name : string) (n : Z) : keeps_markers (write_checkpoint name n).
Proof. intros E w. reflexivity. Qed.

Lemma keeps_sleep (k : Z) : keeps_markers (sleep k).
Proof. intros E w. reflexivity. Qed.

Lemma keeps_load_stage_state (name : string) : keeps_markers (load_stage_state name).
Proof. intros E w. reflexivity. Qed.

Lemma keeps_read_checkpoint (name : string) : keeps_markers (read_checkpoint name).
Proof. intros E w. reflexivity. Qed.

Lemma keeps_marker_exists (path : string) : keeps_markers (marker_exists path).
Proof. intros E w. reflexivity. Qed.

Lemma keeps_spawn (processor name : string) : keeps_markers (spawn processor name).
Proof. intros E w. unfold spawn. simpl. destruct (pr_progress _); reflexivity. Qed.

Lemma keeps_FileLock_acquire (path : string) : keeps_markers (FileLock_acquire path).
Proof.
  intros E w. unfold FileLock_acquire. simpl.
  destruct (e_os_nt E); destruct (w_locks w path); try destruct (Nat.ltb _ _); reflexivity.
Qed.

Lemma keeps_makedirs (d : string) : keeps_markers (makedirs d).
Proof.
  intros E w. unfold makedirs. destruct (makedirs_error d w); [reflexivity|].
  unfold makedirs_world. destruct (existsb _ _); reflexivity.
Qed.

Lemma keeps_enforce_offline_guard (path : string) : keeps_markers (enforce_offline_guard path).
Proof.
  intros E w. unfold enforce_offline_guard.
  destruct (e_src E path) as [body|]; [destruct (scan_for_banned_imports body)|]; reflexivity.
Qed.

Create HintDb keeps discriminated.
#[local] Hint Resolve keeps_ret keeps_raise keeps_gets keeps_env keeps_audit_log
  keeps_save_stage_state keeps_write_checkpoint keeps_sleep keeps_load_stage_state
  keeps_read_checkpoint keeps_marker_exists keeps_spawn keeps_FileLock_acquire
  keeps_makedirs keeps_enforce_offline_guard : keeps.

(** Proves [keeps_markers] of a computation built from the primitives
    above without [write_marker]. *)
Ltac keeps_auto :=
  repeat (cbv beta zeta;
    match goal with
    | |- keeps_markers (bind _ _) => apply keeps_bind; [|intros ?]
    | |- keeps_markers (if ?c then _ else _) => destruct c
    | |- keeps_markers (match ?x with _ => _ end) => destruct x
    | |- keeps_markers _ => solve [auto with keeps]
    end).

(** Runs a computation that keeps the markers, then continues. *)
Ltac mk_keep_step :=
  eapply mk_bind; [apply mk_keep; keeps_auto | intros ?; cbv beta zeta].

Lemma attempt_body_markers (stage : Stage) (run_id output_marker : string) (k : Z)
    (ai0 : AttemptInfo) (ls : LoopState) (M0 : list string) :
  mk_triple (fun ms => ms = M0) (attempt_body stage run_id output_marker k ai0 ls)
    (fun r ms =>
       let '(c, _, ls') := r in
       ls_attempts ls' = k /\
       ((ls_status ls' = ls_status ls /\ ms = M0) \/
        (c = false /\ ls_status ls' = "ok" /\ In output_marker ms))).
Proof.
  unfold attempt_body.
  mk_keep_step.
  match goal with |- mk_triple _ (if ?c then _ else _) _ => destruct c end;
    [apply mk_raise|].
  mk_keep_step. mk_keep_step.
  match goal with |- mk_triple _ (if ?c then _ else _) _ => destruct c end.
  - mk_keep_step.
    match goal with |- mk_triple _ (if ?c then _ else _) _ => destruct c end;
      [mk_keep_step|]; intros E w H; simpl;
      (split; [reflexivity | left; split; [reflexivity | exact H]]).
  - eapply mk_bind; [apply mk_write_marker | intros ?; cbv beta].
    mk_keep_step. intros E w H. simpl.
    split; [reflexivity | right; split; [reflexivity | split; [reflexivity | exact H]]].
Qed.

Lemma run_attempt_markers (stage : Stage) (run_id output_marker : string) (ls : LoopState)
    (M0 : list string) :
  mk_triple (fun ms => ms = M0) (run_attempt stage run_id output_marker ls)
    (fun r ms =>
       let '(c, ls') := r in
       ls_attempts ls' = ls_attempts ls + 1 /\
       ((ls_status ls' = ls_status ls /\ ms = M0) \/
        (c = false /\ ls_status ls' = "ok" /\ In output_marker ms))).
Proof.
  unfold run_attempt.
  mk_keep_step. mk_keep_step.
  eapply mk_bind.
  - eapply (mk_try_finally _ _ _ _
             (fun ab ms =>
                let '(c, _, ls') := fst ab in
                ls_attempts ls' = ls_attempts ls + 1 /\
                ((ls_status ls' = ls_status ls /\ ms = M0) \/
                 (c = false /\ ls_status ls' = "ok" /\ In output_marker ms))));
      [apply attempt_body_markers|].
    intros [[c ai] ls'].
    eapply (fun H => mk_bind _ _ _ _ _ (mk_keep _ _ H)); [keeps_auto|].
    intros _. cbv beta. intros E w H. exact H.
  - intros [[[c ai] ls'] ss]. cbv beta iota. intros E w H. exact H.
Qed.

Lemma attempt_loop_markers (fuel : nat) (stage : Stage) (run_id output_marker : string)
    (ls : LoopState) (M0 : list string) :
  mk_triple (fun ms => ms = M0) (attempt_loop fuel stage run_id output_marker ls)
    (fun ls' ms =>
       ls_attempts ls <= ls_attempts ls' <= Z.max (ls_attempts ls) (max_attempts stage) /\
       ((ls_status ls' = ls_status ls /\ ms = M0) \/
        (ls_status ls' = "ok" /\ ls_attempts ls < ls_attempts ls' /\ In output_marker ms))).
Proof.
  revert ls. induction fuel as [|f IH]; intros ls E w HP; simpl.
  - split; [lia | left; split; [reflexivity | exact HP]].
  - destruct (ls_attempts ls <? max_attempts stage) eqn:Hlt.
    + apply Z.ltb_lt in Hlt. unfold bind.
      pose proof (run_attempt_markers stage run_id output_marker ls M0 E w HP) as H1.
      destruct (run_attempt stage run_id output_marker ls E w) as [[[c ls1]|e|] w1];
        [|exact I|exact I].
      destruct H1 as [Ha [[Hs Hm]|[Hc [Hs Hin]]]].
      * destruct c.
        -- pose proof (IH ls1 E w1 Hm) as H2.
           destruct (attempt_loop f stage run_id output_marker ls1 E w1) as [[ls'|e|] w2];
             [|exact I|exact I].
           destruct H2 as [Hb [[Hs' Hm']|[Hs' [Hlt' Hin']]]].
           ++ split; [lia | left; split; [congruence | exact Hm']].
           ++ split; [lia | right; split; [exact Hs' | split; [lia | exact Hin']]].
        -- simpl. split; [lia | left; split; [exact Hs | exact Hm]].
      * subst c. simpl. split; [lia | right; split; [exact Hs | split; [lia | exact Hin]]].
    + split; [lia | left; split; [reflexivity | exact HP]].
Qed.

Lemma run_stage_execute_markers (stage : Stage) (run_id : string) (ss : StageState)
    (key : option string) (output_marker : string) (M0 : list string) :
  mk_triple (fun ms => ms = M0) (run_stage_execute stage run_id ss key output_marker)
    (fun r ms =>
       match r with
       | StageOk a => In output_marker ms /\ 1 <= a <= max_attempts stage
       | StageFailed _ => ms = M0
       | StageSkipped => False
       end).
Proof.
  unfold run_stage_execute. mk_keep_step. mk_keep_step.
  eapply mk_bind; [apply attempt_loop_markers|]. intros ls'. cbv beta.
  mk_keep_step. mk_keep_step. simpl.
  destruct (String.eqb (ls_status ls') "ok") eqn:Hok; simpl.
  - mk_keep_step. intros E w [Hb [[Hs Hm]|[Hs [Hlt Hin]]]].
    + apply String.eqb_eq in Hok. simpl in Hs. congruence.
    + simpl in *. split; [exact Hin | lia].
  - mk_keep_step. intros E w [Hb [[Hs Hm]|[Hs [Hlt Hin]]]].
    + exact Hm.
    + rewrite Hs in Hok. discriminate.
Qed.

Lemma run_stage_markers (stage : Stage) (run_id : string) (M0 : list string) :
  mk_triple (fun ms => ms = M0) (run_stage stage run_id)
    (fun r ms =>
       match r with
       | StageOk a => In (marker_path stage) ms /\ 1 <= a <= max_attempts stage
       | StageFailed _ => ms = M0
       | StageSkipped => True
       end).
Proof.
  unfold run_stage. mk_keep_step. mk_keep_step. mk_keep_step. mk_keep_step. mk_keep_step.
  match goal with |- mk_triple _ (if ?c then _ else _) _ => destruct c end.
  - mk_keep_step. intros E w H. exact I.
  - intros E w H. pose proof (run_stage_execute_markers stage run_id
      (default_history a0) a2 (marker_path stage) M0 E w H) as H1.
    destruct (run_stage_execute _ _ _ _ _ E w) as [[[n| |e]|e|] w1]; auto.
Qed.

(** A stage that returns "ok" has written its completion marker, and the
    number of attempts it reports is between 1 and [maxAttempts]. *)
Theorem run_stage_ok_marker_attempts (stage : Stage) (run_id : string) (E : Env) (w : World)
    (a : Z) :
  fst (run_stage stage run_id E w) = Ret (StageOk a) ->
  In (marker_path stage) (w_markers (snd (run_stage stage run_id E w))) /\
  1 <= a <= max_attempts stage.
Proof.
  intros H. pose proof (run_stage_markers stage run_id (w_markers w) E w eq_refl) as H1.
  destruct (run_stage stage run_id E w) as [o w1]. simpl in *. subst o. exact H1.
Qed.

(** A stage that returns "failed" writes no completion marker: the markers
    are those of before the run (a marker left by an earlier success stays). *)
Theorem run_stage_failed_keeps_markers (stage : Stage) (run_id : string) (E : Env)
    (w : World) (err : option string) :
  fst (run_stage stage run_id E w) = Ret (StageFailed err) ->
  w_markers (snd (run_stage stage run_id E w)) = w_markers w.
Proof.
  intros H. pose proof (run_stage_markers stage run_id (w_markers w) E w eq_refl) as H1.
  destruct (run_stage stage run_id E w) as [o w1]. simpl in *. subst o. exact H1.
Qed.

(** ** Number of subprocesses *)

Lemma sb_bind {A B : Type} (n k : nat) (m : M A) (f : A -> M B) :
  spawn_bound n m -> (forall a, spawn_bound k (f a)) -> spawn_bound (n + k) (bind m f).
Proof.
  intros Hm Hf E w. unfold bind. specialize (Hm E w).
  destruct (m E w) as [[a|e|] w1]; simpl in *; [specialize (Hf a E w1); lia | lia | lia].
Qed.

Lemma sb_weaken {A : Type} (n k : nat) (m : M A) :
  (n <= k)%nat -> spawn_bound n m -> spawn_bound k m.
Proof. intros Hle H E w. specialize (H E w). lia. Qed.

Lemma sb_bind0 {A B : Type} (k : nat) (m : M A) (f : A -> M B) :
  spawn_bound 0 m -> (forall a, spawn_bound k (f a)) -> spawn_bound k (bind m f).
Proof. intros Hm Hf. apply (sb_bind 0 k); assumption. Qed.

Lemma sb_try_finally {A B : Type} (n k : nat) (body : M A) (on_exit : option A -> M B) :
  spawn_bound n body -> (forall o, spawn_bound k (on_exit o)) ->
  spawn_bound (n + k) (try_finally body on_exit).
Proof.
  intros Hb Hf E w. unfold try_finally. specialize (Hb E w).
  destruct (body E w) as [[a|e|] w1]; simpl in Hb.
  - specialize (Hf (Some a) E w1). destruct (on_exit (Some a) E w1) as [[b|e'|] w2];
      simpl in *; lia.
  - specialize (Hf None E w1). destruct (on_exit None E w1) as [[b|e'|] w2]; simpl in *; lia.
  - simpl. lia.
Qed.

Lemma sb_ret {A : Type} (a : A) : spawn_bound 0 (ret a).
Proof. intros E w. simpl. lia. Qed.

Lemma sb_raise {A : Type} (e : exn) : spawn_bound 0 (@raise A e).
Proof. intros E w. simpl. lia. Qed.

Lemma sb_gets {A : Type} (f : World -> A) : spawn_bound 0 (gets f).
Proof. intros E w. simpl. lia. Qed.

Lemma sb_env {A : Type} (f : Env -> A) : spawn_bound 0 (env f).
Proof. intros E w. simpl. lia. Qed.

Lemma sb_audit_log (run_id : string) (stage : option string) (ev message : string)
    (extra : dict) : spawn_bound 0 (audit_log run_id stage ev message extra).
Proof. intros E w. unfold audit_log. destruct (audit_prev_hash _ _); simpl; lia. Qed.

Lemma sb_save_stage_state (name : string) (ss : StageState) :
  spawn_bound 0 (save_stage_state name ss).
Proof. intros E w. simpl. lia. Qed.

Lemma sb_save_run_state (run_id state : string) : spawn_bound 0 (save_run_state run_id state).
Proof. intros E w. simpl. lia. Qed.

Lemma sb_aggregate_metrics (run_id : string) (results : list StageResult) :
  spawn_bound 0 (aggregate_metrics run_id results).
Proof. intros E w. simpl. lia. Qed.

Lemma sb_write_checkpoint (name : string) (n : Z) : spawn_bound 0 (write_checkpoint name n).
Proof. intros E w. simpl. lia. Qed.

Lemma sb_write_marker (path : string) : spawn_bound 0 (write_marker path).
Proof. intros E w. simpl. lia. Qed.

Lemma sb_sleep (k : Z) : spawn_bound 0 (sleep k).
Proof. intros E w. simpl. lia. Qed.

Lemma sb_load_stage_state (name : string) : spawn_bound 0 (load_stage_state name).
Proof. intros E w. simpl. lia. Qed.

Lemma sb_read_checkpoint (name : string) : spawn_bound 0 (read_checkpoint name).
Proof. intros E w. simpl. lia. Qed.

Lemma sb_marker_exists (path : string) : spawn_bound 0 (marker_exists path).
Proof. intros E w. simpl. lia. Qed.

Lemma sb_FileLock_acquire (path : string) : spawn_bound 0 (FileLock_acquire path).
Proof.
  intros E w. unfold FileLock_acquire. simpl.
  destruct (e_os_nt E); destruct (w_locks w path); try destruct (Nat.ltb _ _); simpl; lia.
Qed.

Lemma sb_makedirs (d : string) : spawn_bound 0 (makedirs d).
Proof.
  intros E w. unfold makedirs. destruct (makedirs_error d w); [simpl; lia|].
  unfold makedirs_world. destruct (existsb _ _); simpl; lia.
Qed.

Lemma sb_enforce_offline_guard (path : string) : spawn_bound 0 (enforce_offline_guard path).
Proof.
  intros E w. unfold enforce_offline_guard.
  destruct (e_src E path) as [body|]; [destruct (scan_for_banned_imports body)|]; simpl; lia.
Qed.

Lemma sb_spawn (processor name : string) : spawn_bound 1 (spawn processor name).
Proof.
  intros E w. unfold spawn. simpl. destruct (pr_progress _); simpl; lia.
Qed.

Create HintDb spawns discriminated.
#[local] Hint Resolve sb_ret sb_raise sb_gets sb_env sb_audit_log sb_save_stage_state
  sb_save_run_state sb_aggregate_metrics sb_write_checkpoint sb_write_marker sb_sleep
  sb_load_stage_state sb_read_checkpoint sb_marker_exists sb_FileLock_acquire sb_makedirs
  sb_enforce_offline_guard : spawns.

(** Proves [spawn_bound 0] of a computation that does not spawn. *)
Ltac sb0_auto :=
  repeat (cbv beta zeta;
    match goal with
    | |- spawn_bound 0 (bind _ _) => apply sb_bind0; [|intros ?]
    | |- spawn_bound 0 (if ?c then _ else _) => destruct c
    | |- spawn_bound 0 (match ?x with _ => _ end) => destruct x
    | |- spawn_bound 0 _ => solve [auto with spawns]
    end).

Lemma attempt_body_spawns (stage : Stage) (run_id output_marker : string) (k : Z)
    (ai0 : AttemptInfo) (ls : LoopState) :
  spawn_bound 1 (attempt_body stage run_id output_marker k ai0 ls).
Proof.
  unfold attempt_body. apply sb_bind0; [sb0_auto | intros ex; cbv beta zeta].
  destruct (negb ex); [apply (sb_weaken 0); [lia | auto with spawns]|].
  apply sb_bind0; [sb0_auto | intros _; cbv beta zeta].
  apply (sb_bind 1 0); [apply sb_spawn | intros proc; cbv beta zeta].
  sb0_auto.
Qed.

Lemma run_attempt_spawns (stage : Stage) (run_id output_marker : string) (ls : LoopState) :
  spawn_bound 1 (run_attempt stage run_id output_marker ls).
Proof.
  unfold run_attempt. apply sb_bind0; [sb0_auto | intros now; cbv beta zeta].
  apply sb_bind0; [sb0_auto | intros _; cbv beta zeta].
  apply (sb_weaken (1 + 0 + 0)); [lia|].
  apply sb_bind; [apply sb_try_finally; [apply attempt_body_spawns | intros o; sb0_auto]|].
  intros [[[c ai] ls'] ss]. apply sb_ret.
Qed.

Lemma attempt_loop_spawns (fuel : nat) (stage : Stage) (run_id output_marker : string)
    (ls : LoopState) :
  spawn_bound fuel (attempt_loop fuel stage run_id output_marker ls).
Proof.
  revert ls. induction fuel as [|f IH]; intros ls; simpl.
  - apply sb_ret.
  - destruct (ls_attempts ls <? max_attempts stage).
    + apply (sb_bind 1 f); [apply run_attempt_spawns|].
      intros [c ls1]. destruct c; [apply IH | apply (sb_weaken 0); [lia | apply sb_ret]].
    + apply (sb_weaken 0); [lia | apply sb_ret].
Qed.

Lemma run_stage_spawns (stage : Stage) (run_id : string) :
  spawn_bound (Z.to_nat (max_attempts stage)) (run_stage stage run_id).
Proof.
  unfold run_stage.
  do 5 (apply sb_bind0; [sb0_auto | intros ?; cbv beta zeta]).
  match goal with |- spawn_bound _ (if ?c then _ else _) => destruct c end.
  - apply (sb_weaken 0); [lia | sb0_auto].
  - unfold run_stage_execute.
    do 2 (apply sb_bind0; [sb0_auto | intros ?; cbv beta zeta]).
    apply (sb_weaken (Z.to_nat (max_attempts stage) + 0)); [lia|].
    apply sb_bind; [apply attempt_loop_spawns | intros ?; cbv beta zeta; sb0_auto].
Qed.

(** Whatever its outcome (result, exception or a lock wait), [run_stage]
    starts at most [maxAttempts] processor subprocesses, and none when
    [maxAttempts <= 0]. *)
Theorem run_stage_spawn_at_most_max_attempts (stage : Stage) (run_id : string) (E : Env)
    (w : World) :
  (w_spawned (snd (run_stage stage run_id E w)) <=
   w_spawned w + Z.to_nat (max_attempts stage))%nat.
Proof. apply run_stage_spawns. Qed.

Lemma run_stages_spawns (stages : list Stage) (run_id : string) (results : list StageResult) :
  spawn_bound (fold_right (fun s n => Z.to_nat (max_attempts s) + n)%nat 0%nat stages)
    (run_stages stages run_id results).
Proof.
  revert results. induction stages as [|s rest IH]; intros results; simpl.
  - apply sb_ret.
  - apply sb_bind; [apply run_stage_spawns|]. intros res. cbv beta zeta.
    destruct (is_failed res); [apply (sb_weaken 0); [lia | apply sb_ret] | apply IH].
Qed.

(** [run_pipeline] starts at most the sum of the stages' [maxAttempts]
    (after the defaults of [validate_pipeline_spec]) processor subprocesses,
    whatever its outcome. *)
Theorem run_pipeline_spawn_bound (pipeline : Pipeline) (run_id : string) (E : Env)
    (w : World) :
  (w_spawned (snd (run_pipeline pipeline run_id E w)) <=
   w_spawned w + fold_right (fun s n => Z.to_nat (max_attempts (validate_stage s)) + n)%nat
                   0%nat (p_stages pipeline))%nat.
Proof.
  unfold run_pipeline.
  apply (sb_weaken (0 + (0 + (0 + (fold_right (fun s n => Z.to_nat (max_attempts s) + n)%nat
            0%nat (map validate_stage (p_stages pipeline)) + 0)))));
    [rewrite !Nat.add_0_l, Nat.add_0_r; induction (p_stages pipeline); simpl; lia|].
  apply sb_bind; [apply sb_audit_log | intros _].
  apply sb_bind; [destruct (p_name pipeline); [apply sb_ret | apply sb_raise] | intros _].
  apply sb_bind; [apply sb_save_run_state | intros _].
  apply sb_bind; [apply run_stages_spawns | intros [results state]; sb0_auto].
Qed.

(** ** The stage loop and the run state *)

Lemma run_stages_results (stages : list Stage) (run_id : string)
    (acc : list StageResult) (E : Env) (w : World) (results : list StageResult)
    (state : string) :
  fst (run_stages stages run_id acc E w) = Ret (results, state) ->
  exists new, results = (acc ++ new)%list /\
    ((state = "completed" /\ length new = length stages /\
      Forall (fun r => is_failed r = false) new) \/
     (state = "failed" /\ (length new <= length stages)%nat /\
      exists pre err, new = (pre ++ [StageFailed err])%list /\
        Forall (fun r => is_failed r = false) pre)).
Proof.
  revert acc w. induction stages as [|s rest IH]; intros acc w H; simpl in H.
  - inversion H; subst. exists []. rewrite app_nil_r.
    split; [reflexivity | left; split; [reflexivity | split; [reflexivity | constructor]]].
  - unfold bind in H.
    destruct (run_stage s run_id E w) as [[res|e|] w1]; simpl in H; try discriminate.
    destruct (is_failed res) eqn:Hf.
    + inversion H; subst. exists [res]. split; [reflexivity|]. right.
      split; [reflexivity | split; [simpl; lia|]].
      destruct res as [a| |err]; try discriminate.
      exists [], err. split; [reflexivity | constructor].
    + destruct (IH (acc ++ [res])%list w1 H) as [new [Hr Hs]].
      exists (res :: new). split; [rewrite Hr, <- app_assoc; reflexivity|].
      destruct Hs as [[Hst [Hl Hn]]|[Hst [Hl [pre [err [Hnew Hpre]]]]]].
      * left. split; [exact Hst | split; [simpl; lia | constructor; assumption]].
      * right. split; [exact Hst | split; [simpl; lia|]].
        exists (res :: pre), err. split; [rewrite Hnew; reflexivity | constructor; assumption].
Qed.

(** The [for stage in pipeline["stages"]] loop appends one result per stage
    it runs and stops at the first failed one: the run ends "completed" when
    every stage ran and none failed, and "failed" right after the first
    failed stage. *)
Theorem run_stages_outcome (stages : list Stage) (run_id : string)
    (acc : list StageResult) (E : Env) (w : World) (results : list StageResult)
    (state : string) :
  fst (run_stages stages run_id acc E w) = Ret (results, state) ->
  exists new, results = (acc ++ new)%list /\
    ((state = "completed" /\ length new = length stages /\
      Forall (fun r => is_failed r = false) new) \/
     (state = "failed" /\ (length new <= length stages)%nat /\
      exists pre err, new = (pre ++ [StageFailed err])%list /\
        Forall (fun r => is_failed r = false) pre)).
Proof. apply run_stages_results. Qed.

Lemma bind_Ret {A B : Type} (m : M A) (f : A -> M B) (E : Env) (w : World) (a : A)
    (w1 : World) :
  m E w = (Ret a, w1) -> bind m f E w = f a E w1.
Proof. intros H. unfold bind. rewrite H. reflexivity. Qed.

Lemma bind_Ret_inv {A B : Type} (m : M A) (f : A -> M B) (E : Env) (w : World) (b : B) :
  fst (bind m f E w) = Ret b -> exists a w1, m E w = (Ret a, w1) /\ fst (f a E w1) = Ret b.
Proof.
  unfold bind. destruct (m E w) as [[a|e|] w1]; simpl; try discriminate.
  intros H. exists a, w1. split; [reflexivity | exact H].
Qed.

Lemma audit_log_readable_Ret (run_id : string) (stage : option string) (ev message : string)
    (extra : dict) (E : Env) (w : World) :
  audit_readable (e_os_nt E) (w_audit w run_id) = true ->
  audit_log run_id stage ev message extra E w =
    (Ret tt, snd (audit_log run_id stage ev message extra E w)).
Proof.
  intros Hr. destruct (audit_readable_str _ _ Hr) as [h Hh].
  rewrite (audit_log_ok _ _ _ _ _ _ _ _ Hh). reflexivity.
Qed.

(** A [bind] after [audit_log] that returned: the audit line was written. *)
Lemma bind_audit_Ret {B : Type} (run_id : string) (stage : option string)
    (ev message : string) (extra : dict) (f : unit -> M B) (E : Env) (w : World) (b : B) :
  fst (bind (audit_log run_id stage ev message extra) f E w) = Ret b ->
  bind (audit_log run_id stage ev message extra) f E w =
    f tt E (snd (audit_log run_id stage ev message extra E w)) /\
  w_trace (snd (audit_log run_id stage ev message extra E w)) =
    (w_trace w ++ [EAudit run_id stage ev])%list.
Proof.
  intros H. destruct (bind_Ret_inv _ _ _ _ _ H) as [[] [w1 [H1 _]]].
  destruct (audit_log_Ret_inv run_id stage ev message extra E w tt (f_equal fst H1))
    as [p [_ Ha]].
  unfold bind at 1. rewrite Ha. split; reflexivity.
Qed.

(** When [run_pipeline] returns, the pipeline has a name, the run state it
    returns is "completed" or "failed", the RunState file records it, and
    the run ends by writing the RunState, then the metrics, then the
    [run_end] audit entry. *)
Theorem run_pipeline_final_state (pipeline : Pipeline) (run_id : string) (E : Env)
    (w : World) (state : string) :
  fst (run_pipeline pipeline run_id E w) = Ret state ->
  p_name pipeline <> None /\
  (state = "completed" \/ state = "failed") /\
  w_run_states (snd (run_pipeline pipeline run_id E w)) run_id = Some state /\
  exists tr, w_trace (snd (run_pipeline pipeline run_id E w)) =
             (tr ++ [EWriteRunState run_id state; EWriteMetrics run_id;
                     EAudit run_id None "run_end"])%list.
Proof.
  unfold run_pipeline. intros H.
  destruct (bind_Ret_inv _ _ _ _ _ H) as [u1 [w1 [H1 H1']]].
  rewrite (bind_Ret _ _ _ _ _ _ H1) in H |- *.
  destruct (p_name pipeline) as [n|]; [|discriminate].
  rewrite (bind_Ret _ _ _ _ _ _ (eq_refl : ret tt E w1 = (Ret tt, w1))) in H |- *.
  rewrite (bind_Ret _ _ _ _ _ _ (eq_refl : save_run_state run_id "running" E w1 =
                                   (Ret tt, snd (save_run_state run_id "running" E w1))))
    in H |- *.
  set (w2 := snd (save_run_state run_id "running" E w1)) in *.
  destruct (bind_Ret_inv _ _ _ _ _ H) as [[results st] [w3 [H3 _]]].
  rewrite (bind_Ret _ _ _ _ _ _ H3) in H |- *.
  pose proof (run_stages_results _ _ _ _ _ results st (f_equal fst H3)) as Ho.
  cbv iota in H |- *.
  rewrite (bind_Ret _ _ _ _ _ _ (eq_refl : save_run_state run_id st E w3 =
                                   (Ret tt, snd (save_run_state run_id st E w3))))
    in H |- *.
  set (w4 := snd (save_run_state run_id st E w3)) in *.
  rewrite (bind_Ret _ _ _ _ _ _ (eq_refl : aggregate_metrics run_id results E w4 =
                                   (Ret tt, snd (aggregate_metrics run_id results E w4))))
    in H |- *.
  set (w5 := snd (aggregate_metrics run_id results E w4)) in *.
  destruct (bind_audit_Ret _ _ _ _ _ _ _ _ _ H) as [Hb Htr].
  rewrite Hb in H |- *.
  unfold ret in H |- *. cbn [fst snd] in H |- *. injection H as <-.
  split; [discriminate|].
  split; [destruct Ho as [new [_ [[Hst _]|[Hst _]]]]; tauto|].
  rewrite audit_log_run_states, Htr.
  split; [unfold w5, w4; cbn; unfold upd; rewrite String.eqb_refl; reflexivity|].
  exists (w_trace w3). unfold w5, w4. cbn. rewrite <- !app_assoc. reflexivity.
Qed.

(** With a readable audit file, a pipeline without a [name] makes [run_pipeline]
    raise [KeyError] right
    after the [run_start] audit entry: no RunState is written, no stage
    runs, and [main] exits with status 1. *)
Theorem run_pipeline_missing_name (pipeline : Pipeline) (run_id : string) (E : Env)
    (w : World) :
  audit_readable (e_os_nt E) (w_audit w run_id) = true ->
  p_name pipeline = None ->
  fst (run_pipeline pipeline run_id E w) = Raise (KeyError "name") /\
  w_run_states (snd (run_pipeline pipeline run_id E w)) = w_run_states w /\
  w_spawned (snd (run_pipeline pipeline run_id E w)) = w_spawned w /\
  w_trace (snd (run_pipeline pipeline run_id E w)) =
    (w_trace w ++ [EAudit run_id None "run_start"])%list /\
  fst (main pipeline run_id E w) = Ret 1.
Proof.
  intros Hr Hn. unfold main, run_pipeline.
  rewrite (bind_Ret _ _ _ _ _ _ (audit_log_readable_Ret _ _ _ _ _ E w Hr)).
  rewrite Hn. unfold bind at 1. cbn [raise fst snd].
  destruct (audit_readable_str _ _ Hr) as [h Hh].
  rewrite (audit_log_ok _ _ _ _ _ _ _ _ Hh).
  repeat split; reflexivity.
Qed.

(** Every result of [run_stage] carries a [status], so [aggregate_metrics]
    builds its dict: [totalStages] is the number of results, the failed,
    skipped and ok counts add up to it, and [durationSec] is always 0,
    since no result carries a [durationSec]. *)
Theorem aggregate_metrics_counts (run_id ts : string) (named : list (string * StageResult)) :
  exists nf ns no,
    metrics_dict run_id ts (map (fun nr => stage_result_dict (fst nr) (snd nr)) named) =
      Some [("runId", JStr run_id); ("timestamp", JStr ts);
            ("stages", JArr (map JObj (map (fun nr => stage_result_dict (fst nr) (snd nr))
                                          named)));
            ("totalStages", JInt (Z.of_nat (length named)));
            ("failedStages", JInt nf); ("skippedStages", JInt ns);
            ("okStages", JInt no); ("durationSec", JInt 0)] /\
    nf = Z.of_nat (length (filter is_failed (map snd named))) /\
    nf + ns + no = Z.of_nat (length named).
Proof.
  induction named as [|[nm r] rest IH].
  - exists 0, 0, 0. split; [reflexivity | split; reflexivity].
  - destruct IH as [nf [ns [no [Hm [Hf Hsum]]]]].
    unfold metrics_dict in Hm |- *.
    destruct (count_status "failed" _) as [f|] eqn:Ef; [|discriminate].
    destruct (count_status "skipped" _) as [sk|] eqn:Es; [|discriminate].
    destruct (count_status "ok" _) as [o|] eqn:Eo; [|discriminate].
    destruct (sum_duration _) as [d|] eqn:Ed; [|discriminate].
    inversion Hm; subst f sk o d.
    destruct r as [a| |err]; simpl; rewrite Ef, Es, Eo, Ed; simpl;
      [exists nf, ns, (1 + no) | exists nf, (1 + ns), no | exists (1 + nf), ns, no];
      (split; [rewrite ?length_map; repeat f_equal; lia|]);
      cbn [length filter map snd is_failed]; rewrite ?Nat2Z.inj_succ; lia.
Qed.

Lemma dict_get_set_same (d : dict) (k : string) (v : json) :
  dict_get (dict_set d k v) k = Some v.
Proof.
  induction d as [|[k' v'] d IH]; simpl.
  - rewrite String.eqb_refl. reflexivity.
  - destruct (String.eqb k k') eqn:E; simpl.
    + apply String.eqb_eq in E. subst. rewrite String.eqb_refl. reflexivity.
    + rewrite E. exact IH.
Qed.

Lemma dict_get_set_other (d : dict) (k k' : string) (v : json) :
  k' <> k -> dict_get (dict_set d k v) k' = dict_get d k'.
Proof.
  intros Hne. induction d as [|[k0 v0] d IH]; simpl.
  - apply String.eqb_neq in Hne. rewrite Hne. reflexivity.
  - destruct (String.eqb k k0) eqn:E; simpl.
    + apply String.eqb_eq in E. subst.
      apply String.eqb_neq in Hne. rewrite Hne. reflexivity.
    + rewrite IH. reflexivity.
Qed.

(** Two consecutive [audit_log] calls of a run, the first with an [extra]
    dict without [hash] and [prevHash] keys, on an audit file whose last
    hash is a string: the first call appends a line [e1] with a string
    [hash] [h1]. When [e1], UTF-8 encoded with its line end, fits in the
    4096 bytes read back and holds no line break of [str.splitlines], the
    second call appends a line whose [prevHash] is [h1]. *)
Theorem audit_log_chain_link (run_id : string) (s1 s2 : option string)
    (ev1 ev2 m1 m2 : string) (x1 x2 : dict) (E1 E2 : Env) (w : World) :
  ~ In "hash" (map fst x1) -> ~ In "prevHash" (map fst x1) ->
  audit_readable (e_os_nt E1) (w_audit w run_id) = true ->
  e_os_nt E2 = e_os_nt E1 ->
  let w1 := snd (audit_log run_id s1 ev1 m1 x1 E1 w) in
  let w2 := snd (audit_log run_id s2 ev2 m2 x2 E2 w1) in
  exists e1 h1,
    w_audit w1 run_id = (w_audit w run_id ++ [e1])%list /\
    dict_get e1 "hash" = Some (JStr h1) /\
    ((String.length (utf8_encode (audit_line_text e1)) +
        String.length (line_end (e_os_nt E1)) <= 4096)%nat ->
     no_line_break (audit_line_text e1) = true ->
     exists e2,
       w_audit w2 run_id = (w_audit w run_id ++ [e1; e2])%list /\
       dict_get e2 "prevHash" = Some (JStr h1)).
Proof.
  intros Hh Hp Hr Hnt w1 w2.
  destruct (audit_readable_str _ _ Hr) as [p Hprev].
  set (entry := audit_entry (e_now E1) s1 ev1 m1 x1).
  destruct (audit_entry_no_chain_keys (e_now E1) s1 ev1 m1 x1 Hh Hp) as [Hnh Hnp].
  fold entry in Hnh, Hnp.
  destruct (audit_stored_hash p entry Hnh Hnp) as [Hg Hgr].
  assert (Hw1 : w_audit w1 run_id = (w_audit w run_id ++ [audit_stored p entry])%list).
  { unfold w1. rewrite (audit_log_ok _ _ _ _ _ _ _ _ Hprev). simpl.
    unfold upd. rewrite String.eqb_refl. reflexivity. }
  exists (audit_stored p entry), (chain_hash p entry).
  split; [exact Hw1|]. split; [exact Hg|].
  intros Hfit Hnl.
  assert (Hp2 : audit_prev_hash (e_os_nt E2) (w_audit w1 run_id) = JStr (chain_hash p entry)).
  { rewrite Hw1, Hnt, (audit_prev_hash_last _ _ _ Hfit Hnl), Hgr. reflexivity. }
  exists (audit_stored (chain_hash p entry) (audit_entry (e_now E2) s2 ev2 m2 x2)).
  split.
  - unfold w2. rewrite (audit_log_ok _ _ _ _ _ _ _ _ Hp2). simpl.
    unfold upd. rewrite String.eqb_refl, Hw1, <- app_assoc. reflexivity.
  - unfold audit_stored. apply dict_get_set_same.
Qed.

(** ** The attempt history *)

(** Peels the first computation of a [bind] that returned. *)
Ltac ret_step H :=
  let Hm := fresh "Hm" in
  let H' := fresh "H" in
  destruct (bind_Ret_inv _ _ _ _ _ H) as [? [? [Hm H']]];
  try rewrite (bind_Ret _ _ _ _ _ _ Hm); clear H; rename H' into H; cbv beta zeta in H |- *.

Lemma try_finally_Ret_inv {A B : Type} (body : M A) (on_exit : option A -> M B) (E : Env)
    (w w2 : World) (a : A) (b : B) :
  try_finally body on_exit E w = (Ret (a, b), w2) ->
  exists w1, body E w = (Ret a, w1) /\ fst (on_exit (Some a) E w1) = Ret b.
Proof.
  unfold try_finally. destruct (body E w) as [[a'|e|] w1].
  - destruct (on_exit (Some a') E w1) as [[b'|e'|] w3] eqn:Ho; intros H; inversion H; subst.
    exists w1. rewrite Ho. split; reflexivity.
  - destruct (on_exit None E w1) as [[]]; discriminate.
  - discriminate.
Qed.

Lemma run_attempt_history (stage : Stage) (run_id output_marker : string) (ls : LoopState)
    (E : Env) (w : World) (c : bool) (ls' : LoopState) :
  fst (run_attempt stage run_id output_marker ls E w) = Ret (c, ls') ->
  ls_attempts ls' = ls_attempts ls + 1 /\
  length (with_default (ss_history (ls_state ls')) []) =
    S (length (with_default (ss_history (ls_state ls)) [])).
Proof.
  intros H. split.
  - pose proof (run_attempt_markers stage run_id output_marker ls (w_markers w) E w eq_refl)
      as H1.
    destruct (run_attempt stage run_id output_marker ls E w) as [o w1].
    simpl in H. subst o. destruct H1 as [Ha _]. exact Ha.
  - unfold run_attempt in H. ret_step H. ret_step H. ret_step H.
    match goal with
    | Hm : try_finally _ _ _ _ = (Ret ?r, _) |- _ =>
        destruct r as [[[c0 ai] l1] ss];
        destruct (try_finally_Ret_inv _ _ _ _ _ _ _ Hm) as [w' [_ Hx]]
    end.
    cbn in H. injection H as <- <-. cbn.
    unfold bind, save_stage_state, modify, ret in Hx. cbn in Hx. injection Hx as <-.
    cbn. rewrite length_app. simpl. lia.
Qed.

Lemma attempt_loop_history (fuel : nat) (stage : Stage) (run_id output_marker : string)
    (ls : LoopState) (E : Env) (w : World) (ls' : LoopState) :
  fst (attempt_loop fuel stage run_id output_marker ls E w) = Ret ls' ->
  ls_attempts ls <= ls_attempts ls' /\
  Z.of_nat (length (with_default (ss_history (ls_state ls')) [])) =
    Z.of_nat (length (with_default (ss_history (ls_state ls)) [])) +
    (ls_attempts ls' - ls_attempts ls).
Proof.
  revert ls w. induction fuel as [|f IH]; intros ls w H; simpl in H.
  - injection H as <-. lia.
  - destruct (ls_attempts ls <? max_attempts stage).
    + ret_step H.
      match goal with
      | Hm : run_attempt _ _ _ _ _ _ = (Ret ?r, _) |- _ =>
          destruct r as [c ls1];
          destruct (run_attempt_history _ _ _ _ _ _ _ _ (f_equal fst Hm)) as [Ha Hl]
      end.
      destruct c.
      * destruct (IH _ _ H) as [Ha' Hl']. rewrite Hl', Hl. lia.
      * injection H as <-. rewrite Hl. lia.
    + injection H as <-. lia.
Qed.

Lemma run_stage_execute_history (stage : Stage) (run_id : string) (ss : StageState)
    (key : option string) (output_marker : string) (E : Env) (w : World) (r : StageResult) :
  fst (run_stage_execute stage run_id ss key output_marker E w) = Ret r ->
  r <> StageSkipped /\
  exists ss' n,
    w_stage_states (snd (run_stage_execute stage run_id ss key output_marker E w))
      (st_name stage) = Some ss' /\
    ss_attempts ss' = Some n /\
    ss_lastStatus ss' = Some (match r with StageOk _ => "ok" | _ => "failed" end) /\
    (forall a, r = StageOk a -> n = a) /\
    Z.of_nat (length (with_default (ss_history ss') [])) =
      Z.of_nat (length (with_default (ss_history ss) [])) + n.
Proof.
  unfold run_stage_execute. intros H.
  ret_step H. ret_step H. ret_step H.
  match goal with
  | Hm : attempt_loop ?f ?st ?rid ?om ?l0 ?E ?w = (Ret ?l, _) |- _ =>
      rename l into ls';
      destruct (attempt_loop_history _ _ _ _ _ _ _ _ (f_equal fst Hm)) as [Ha Hl];
      pose proof (attempt_loop_markers f st rid om l0 (w_markers w) E w eq_refl) as Hk;
      rewrite Hm in Hk; destruct Hk as [_ Hk]
  end.
  cbn [ls_attempts ls_state] in Ha, Hl.
  ret_step H. ret_step H.
  match goal with
  | Hm : save_stage_state _ _ _ _ = (Ret _, ?w5) |- _ =>
      unfold save_stage_state, modify in Hm; injection Hm; intros; subst w5
  end.
  destruct (String.eqb (ls_status ls') "ok") eqn:Hs; cbn [negb] in H |- *.
  - destruct (bind_audit_Ret _ _ _ _ _ _ _ _ _ H) as [Hb _]. rewrite Hb in H |- *.
    unfold ret in H |- *. cbn [fst snd] in H |- *. injection H as <-.
    split; [discriminate|].
    eexists _, _. split;
      [rewrite audit_log_stage_states; cbn; unfold upd; rewrite String.eqb_refl; reflexivity|].
    cbn. apply String.eqb_eq in Hs. rewrite Hs.
    split; [reflexivity | split; [reflexivity | split]].
    + intros a Ha'. injection Ha' as <-. reflexivity.
    + rewrite Hl. lia.
  - destruct (bind_audit_Ret _ _ _ _ _ _ _ _ _ H) as [Hb _]. rewrite Hb in H |- *.
    unfold ret in H |- *. cbn [fst snd] in H |- *. injection H as <-.
    split; [discriminate|].
    eexists _, _. split;
      [rewrite audit_log_stage_states; cbn; unfold upd; rewrite String.eqb_refl; reflexivity|].
    cbn. split; [reflexivity | split].
    + f_equal. apply String.eqb_neq in Hs.
      destruct Hk as [[Hk _]|[Hk _]]; [exact Hk | contradiction].
    + split; [intros a Ha'; discriminate | rewrite Hl; lia].
Qed.

(** Every executed attempt appends exactly one entry to the StageState
    history: when [run_stage] runs a stage (it is not skipped) and returns,
    the saved StageState records [lastStatus] and [attempts] = n, and its
    history is n entries longer than the one loaded at the start; for an
    "ok" result n is the reported number of attempts. *)
Theorem run_stage_history_grows (stage : Stage) (run_id : string) (E : Env) (w : World)
    (r : StageResult) :
  fst (run_stage stage run_id E w) = Ret r -> r <> StageSkipped ->
  exists ss' n,
    w_stage_states (snd (run_stage stage run_id E w)) (st_name stage) = Some ss' /\
    ss_attempts ss' = Some n /\
    ss_lastStatus ss' = Some (match r with StageOk _ => "ok" | _ => "failed" end) /\
    (forall a, r = StageOk a -> n = a) /\
    Z.of_nat (length (with_default (ss_history ss') [])) =
      Z.of_nat (length (with_default (ss_history (with_default (w_stage_states w
                  (st_name stage)) empty_stage_state)) [])) + n.
Proof.
  unfold run_stage. intros H Hns.
  ret_step H.
  match goal with
  | Hm : makedirs _ _ _ = (Ret _, ?w0) |- _ =>
      assert (Hs0 : w_stage_states w0 = w_stage_states w)
        by (unfold makedirs in Hm; destruct (makedirs_error _ _); [discriminate|];
            injection Hm; intros; subst;
            edestruct makedirs_world_fields as (_ & Hx & _); exact Hx)
  end.
  ret_step H.
  match goal with
  | Hm : load_stage_state _ _ _ = (Ret _, _) |- _ =>
      unfold load_stage_state, gets in Hm; injection Hm; intros; subst
  end.
  ret_step H.
  ret_step H.
  match goal with
  | Hm : gets _ _ _ = (Ret _, _) |- _ => unfold gets in Hm; injection Hm; intros; subst
  end.
  ret_step H.
  match goal with
  | Hm : marker_exists _ _ _ = (Ret _, _) |- _ =>
      unfold marker_exists, gets in Hm; injection Hm; intros; subst
  end.
  match goal with |- context [if ?c then _ else _] => destruct c end.
  - ret_step H. unfold ret in H. cbn in H. injection H as <-. contradiction.
  - destruct (run_stage_execute_history _ _ _ _ _ _ _ _ H) as [_ [ss' [n [H1 [H2 [H3 [H4 H5]]]]]]].
    exists ss', n.
    split; [exact H1 | split; [exact H2 | split; [exact H3 | split; [exact H4|]]]].
    rewrite H5. rewrite <- Hs0. unfold default_history. cbn [ss_history with_default].
    match goal with
    | |- context [ss_history (with_default (w_stage_states ?x _) _)] =>
        destruct (ss_history (with_default (w_stage_states x (st_name stage))
                                empty_stage_state)); reflexivity
    end.
Qed.

(** A rewrite of the processor that keeps the integer part of its mtime
    leaves the fingerprint unchanged, whatever the new source: the key
    reads the processor only through [int(os.path.getmtime(...))], never
    its contents. *)
Theorem compute_idempotency_key_processor_same_second (w : fs) (inputs : list string)
    (processor_path : string) (params : dict) (f f' : file) :
  ~ In processor_path inputs -> w processor_path = Some f ->
  int_of_Q (f_mtime f') = int_of_Q (f_mtime f) ->
  compute_idempotency_key
    (fun q => if String.eqb q processor_path then Some f' else w q)
    inputs processor_path params =
  compute_idempotency_key w inputs processor_path params.
Proof.
  intros Hin Hf Hm. unfold compute_idempotency_key, get_processor_version.
  rewrite String.eqb_refl, Hf, Hm.
  assert (Hmap : map (fun p => match (if String.eqb p processor_path then Some f' else w p)
                               with Some f0 => sha256_file f0 | None => "missing" end) inputs =
                 map (fun p => match w p with Some f0 => sha256_file f0 | None => "missing" end)
                   inputs).
  { apply map_ext_in. intros p Hp.
    destruct (String.eqb_spec p processor_path); [subst; contradiction | reflexivity]. }
  rewrite Hmap. reflexivity.
Qed.

End Engine.


(** * Instances on the sample configurations *)



(** Claim C2 on a pipeline whose second stage runs [bin/net.py], after a
    first stage that succeeds. *)
Lemma run_pipeline_guard_violation_witness :
  let P := sample_pipeline [sample_stage "extract" "bin/proc.py";
                            sample_stage "fetch" "bin/net.py"] in
  let E := sample_env (fun _ => proc_ok) in
  let w := sample_world (fun _ => Free) in
  fst (run_pipeline toy_sha P "r1" E w) =
    Raise (RuntimeError ("Offline guard violation: bin/net.py imports banned modules: "
                         ++ py_list_repr (scan_for_banned_imports [Block [Import ["socket"]]]))) /\
  main toy_sha P "r1" E w = (Ret 1, snd (run_pipeline toy_sha P "r1" E w)) /\
  w_run_states (snd (run_pipeline toy_sha P "r1" E w)) "r1" = Some "running".
Proof.
  intros P E w.
  assert (Hscan : scan_for_banned_imports [Block [Import ["socket"]]] <> [])
    by (vm_compute; discriminate).
  set (w0 := snd (save_run_state "r1" "running" E
                   (snd (audit_log toy_sha "r1" None "run_start" ("Pipeline " ++ "demo") [] E w)))).
  set (run0 := run_stages toy_sha (map validate_stage [sample_stage "extract" "bin/proc.py"])
                 "r1" [] E w0).
  set (results := match fst run0 with Ret (r, _) => r | _ => [] end).
  assert (Hpre : run0 = (Ret (results, "completed"), snd run0)).
  { rewrite (surjective_pairing run0) at 1. f_equal. all: vm_compute; reflexivity. }
  pose proof (run_pipeline_guard_violation toy_sha P "r1" "demo"
                [sample_stage "extract" "bin/proc.py"] (sample_stage "fetch" "bin/net.py") []
                [Block [Import ["socket"]]] E w results (snd run0)
                eq_refl eq_refl eq_refl eq_refl Hscan eq_refl Hpre) as H.
  destruct H as [HA _].
  assert (Hmd : makedirs_error (st_outputDir (sample_stage "fetch" "bin/net.py")) (snd run0) = None)
    by (vm_compute; reflexivity).
  destruct (HA Hmd) as (Hr & Hmain & Hrs & _).
  split; [exact Hr|]. split; [exact Hmain | exact Hrs].
Defined.

(** Claim C2 fails on the same pipeline: the violation escapes
    [run_stage] and [run_pipeline] as a [RuntimeError] instead of a failed
    stage result, and the run stays "running" instead of "failed". *)
Lemma run_pipeline_guard_claim_counterexample :
  let P := sample_pipeline [sample_stage "fetch" "bin/net.py";
                            sample_stage "extract" "bin/proc.py"] in
  let E := sample_env (fun _ => proc_ok) in
  let w := sample_world (fun _ => Free) in
  (exists msg, fst (run_stage toy_sha (sample_stage "fetch" "bin/net.py") "r1" E w) =
               Raise (RuntimeError msg)) /\
  (exists msg, fst (run_pipeline toy_sha P "r1" E w) = Raise (RuntimeError msg)) /\
  w_run_states (snd (run_pipeline toy_sha P "r1" E w)) "r1" = Some "running".
Proof.
  intros P E w. split; [eexists; vm_compute; reflexivity|].
  split; [eexists; vm_compute; reflexivity | vm_compute; reflexivity].
Qed.

(** Claim C3 on a pipeline whose only stage fails twice: the run ends
    "failed" and [main] exits with status 0. *)
Lemma main_exit_status_ignores_state_witness :
  let P := sample_pipeline [sample_stage "extract" "bin/proc.py"] in
  let E := sample_env (fun _ => proc_fail) in
  let w := sample_world (fun _ => Free) in
  run_pipeline toy_sha P "r1" E w = (Ret "failed", snd (run_pipeline toy_sha P "r1" E w)) /\
  main toy_sha P "r1" E w = (Ret 0, snd (run_pipeline toy_sha P "r1" E w)).
Proof.
  intros P E w.
  assert (H : run_pipeline toy_sha P "r1" E w =
              (Ret "failed", snd (run_pipeline toy_sha P "r1" E w))).
  { rewrite (surjective_pairing (run_pipeline toy_sha P "r1" E w)) at 1.
    f_equal; vm_compute; reflexivity. }
  split; [exact H|].
  exact (main_exit_status_ignores_state toy_sha P "r1" "failed" E w _ H).
Defined.

(** Claim C4 on three runs of one stage: the first succeeds, then
    [data/in.txt] is edited and the second run fails on both attempts,
    saving the fingerprint of the edited inputs; the third run, on the same
    edited inputs, is then skipped although they were never processed. *)
Lemma run_stage_failure_records_key_witness :
  let st := sample_stage "extract" "bin/proc.py" in
  let Eok := sample_env (fun _ => proc_ok) in
  let Efail := sample_env (fun _ => proc_fail) in
  let w1 := set_w_fs (snd (run_stage toy_sha st "r1" Eok (sample_world (fun _ => Free))))
              sample_fs_edited in
  let w2 := snd (run_stage toy_sha st "r2" Efail w1) in
  fst (run_stage toy_sha st "r2" Efail w1) = Ret (StageFailed (Some "boom")) /\
  (exists ss', w_stage_states w2 "extract" = Some ss' /\
               ss_lastStatus ss' <> Some "ok" /\
               ss_idempotencyKey ss' = Some (stage_key toy_sha st w1)) /\
  fst (run_stage toy_sha st "r3" Eok w2) = Ret StageSkipped.
Proof.
  intros st Eok Efail w1 w2.
  assert (H : fst (run_stage toy_sha st "r2" Efail w1) = Ret (StageFailed (Some "boom")))
    by (vm_compute; reflexivity).
  split; [exact H|]. split.
  - apply (run_stage_failure_records_key toy_sha st "r2" Efail w1 (Some "boom") eq_refl).
    + right. exists [Import ["os"]; Stmt]. split; reflexivity.
    + exact H.
  - vm_compute. reflexivity.
Defined.

(** Claim C5 on a stage whose lock file another process holds forever:
    [run_stage] never returns elsewhere than on Windows, and raises the
    [OSError] of [LK_LOCK] on Windows. *)
Lemma run_stage_lock_blocks_forever_witness :
  let st := sample_stage "extract" "bin/proc.py" in
  let w := sample_world (fun _ => HeldForever) in
  fst (run_stage toy_sha st "r1" (sample_env (fun _ => proc_ok)) w) = Blocked /\
  fst (run_stage toy_sha st "r1" (sample_env_nt (fun _ => proc_ok)) w) =
    Raise (OSError EDEADLOCK_MSG).
Proof.
  intros st w.
  assert (Hl : use_lock st = true) by reflexivity.
  assert (Hmd : makedirs_error (st_outputDir st) w = None) by (vm_compute; reflexivity).
  assert (Hnot : ~ (idem_enabled st = true /\
                    ss_idempotencyKey (loaded_state st w) = Some (stage_key toy_sha st w) /\
                    In (marker_path st) (w_markers w)))
    by (intros [_ [Hk _]]; vm_compute in Hk; discriminate).
  assert (Hmax : 0 < max_attempts st) by reflexivity.
  assert (Hfs : w_fs w (st_processor st) <> None) by (vm_compute; discriminate).
  split.
  - assert (Hg : guard_ok (sample_env (fun _ => proc_ok)) st)
      by (right; exists [Import ["os"]; Stmt]; split; reflexivity).
    destruct (run_stage_lock_blocks_forever toy_sha st "r1" (sample_env (fun _ => proc_ok)) w
                Hl Hmd Hg Hnot Hmax Hfs eq_refl) as [Ha _].
    apply Ha; reflexivity.
  - assert (Hg : guard_ok (sample_env_nt (fun _ => proc_ok)) st)
      by (right; exists [Import ["os"]; Stmt]; split; reflexivity).
    destruct (run_stage_lock_blocks_forever toy_sha st "r1" (sample_env_nt (fun _ => proc_ok)) w
                Hl Hmd Hg Hnot Hmax Hfs eq_refl) as [_ [Hb _]].
    apply Hb; [reflexivity | left; reflexivity].
Defined.

(** Claim C5 fails: with the lock held by another run, the stage neither
    fails with [LockUnavailable] nor returns at all elsewhere than on
    Windows; on Windows the [OSError] escapes [run_stage] instead of a
    failed stage result. *)
Lemma run_stage_lock_claim_counterexample :
  let st := sample_stage "load" "bin/proc.py" in
  let w := sample_world (fun p => if String.eqb p "locks/load.lock" then HeldForever
                                  else Free) in
  use_lock st = true /\ lock_path st = "locks/load.lock" /\
  fst (run_stage toy_sha st "r2" (sample_env (fun _ => proc_ok)) w) = Blocked /\
  fst (run_stage toy_sha st "r2" (sample_env_nt (fun _ => proc_ok)) w) =
    Raise (OSError "[Errno 36] Resource deadlock avoided").
Proof.
  intros st w. split; [reflexivity|]. split; [reflexivity|].
  split; vm_compute; reflexivity.
Qed.



(** Claim C10 on the skip of a stage that succeeded before: the run adds
    one audit line and nothing else to the trace. *)
Lemma run_stage_skip_frame_witness :
  let st := sample_stage "extract" "bin/proc.py" in
  let E := sample_env (fun _ => proc_ok) in
  let w := done_world "extract" (stage_key toy_sha st (sample_world (fun _ => Free)))
             (marker_path st) ["out"] in
  fst (run_stage toy_sha st "r1" E w) = Ret StageSkipped /\
  w_stage_states (snd (run_stage toy_sha st "r1" E w)) = w_stage_states w /\
  w_trace (snd (run_stage toy_sha st "r1" E w)) = [EAudit "r1" (Some "extract") "skip"].
Proof.
  intros st E w.
  assert (Hs : fst (run_stage toy_sha st "r1" E w) = Ret StageSkipped)
    by (vm_compute; reflexivity).
  assert (Hd : In (marker_path st) (w_markers w) -> In (st_outputDir st) (w_dirs w))
    by (intros _; simpl; left; reflexivity).
  pose proof (run_stage_skip_frame toy_sha st "r1" E w Hd Hs) as H.
  cbv zeta in H. destruct H as (Hss & _ & _ & _ & _ & _ & _ & _ & Ht & _).
  split; [exact Hs|]. split; [exact Hss | exact Ht].
Defined.

(** ** Witnesses of the further properties *)

Lemma validate_pipeline_spec_defaults_witness :
  validate_pipeline_spec sample_spec = inr sample_spec_validated /\
  exists d', sample_spec_validated = PyDict d' /\ pd_get d' "name" = Some (PyStr "demo").
Proof.
  assert (H : validate_pipeline_spec sample_spec = inr sample_spec_validated)
    by (vm_compute; reflexivity).
  split; [exact H|].
  destruct (validate_pipeline_spec_defaults _ _ H) as (d & d' & l & l' & Hd & Hd' & _ & _ & Hk & _).
  exists d'. split; [exact Hd'|]. rewrite Hk by discriminate.
  unfold sample_spec in Hd. injection Hd as <-. reflexivity.
Defined.

Lemma validate_pipeline_spec_idempotent_witness :
  validate_pipeline_spec sample_spec = inr sample_spec_validated /\
  validate_pipeline_spec sample_spec_validated = inr sample_spec_validated.
Proof.
  assert (H : validate_pipeline_spec sample_spec = inr sample_spec_validated)
    by (vm_compute; reflexivity).
  split; [exact H | exact (validate_pipeline_spec_idempotent _ _ H)].
Defined.

Lemma compute_idempotency_key_params_perm_witness :
  compute_idempotency_key toy_sha sample_fs ["data/in.txt"] "bin/proc.py"
    [("mode", JStr "fast"); ("n", JInt 2)] =
  compute_idempotency_key toy_sha sample_fs ["data/in.txt"] "bin/proc.py"
    [("n", JInt 2); ("mode", JStr "fast")].
Proof.
  apply compute_idempotency_key_params_perm; [apply perm_swap|].
  simpl. constructor; [intros [H|[]]; discriminate | constructor; [intros [] | constructor]].
Defined.

Lemma compute_idempotency_key_processor_same_second_witness :
  compute_idempotency_key toy_sha
    (fun q => if String.eqb q "bin/proc.py" then Some (mkFile "import sys" (Qmake 15 2))
              else sample_fs q)
    ["data/in.txt"] "bin/proc.py" [("mode", JStr "fast")] =
  compute_idempotency_key toy_sha sample_fs ["data/in.txt"] "bin/proc.py"
    [("mode", JStr "fast")].
Proof.
  apply (compute_idempotency_key_processor_same_second toy_sha sample_fs ["data/in.txt"]
           "bin/proc.py" [("mode", JStr "fast")] (mkFile "import os" (Qmake 7 1))).
  - simpl. intros [H|[]]. discriminate.
  - reflexivity.
  - vm_compute. reflexivity.
Defined.

(** One successful attempt: the stage reports 1 attempt and its marker exists. *)
Lemma run_stage_ok_marker_attempts_witness :
  let st := sample_stage "extract" "bin/proc.py" in
  let E := sample_env (fun _ => proc_ok) in
  let w := sample_world (fun _ => Free) in
  fst (run_stage toy_sha st "r1" E w) = Ret (StageOk 1) /\
  In (marker_path st) (w_markers (snd (run_stage toy_sha st "r1" E w))).
Proof.
  intros st E w.
  assert (H : fst (run_stage toy_sha st "r1" E w) = Ret (StageOk 1)) by (vm_compute; reflexivity).
  split; [exact H|].
  destruct (run_stage_ok_marker_attempts toy_sha st "r1" E w 1 H) as [Hin _]. exact Hin.
Defined.

(** A stage whose inputs changed since its success fails twice: the marker
    of the earlier success stays. *)
Lemma run_stage_failed_keeps_markers_witness :
  let st := sample_stage "extract" "bin/proc.py" in
  let E := sample_env (fun _ => proc_fail) in
  let w := done_world "extract" "old-key" (marker_path st) ["out"] in
  fst (run_stage toy_sha st "r1" E w) = Ret (StageFailed (Some "boom")) /\
  w_markers (snd (run_stage toy_sha st "r1" E w)) = [marker_path st].
Proof.
  intros st E w.
  assert (H : fst (run_stage toy_sha st "r1" E w) = Ret (StageFailed (Some "boom")))
    by (vm_compute; reflexivity).
  split; [exact H|]. exact (run_stage_failed_keeps_markers toy_sha st "r1" E w _ H).
Defined.

(** Two stages whose processor fails: the loop stops after the first one. *)
Lemma run_stages_outcome_witness :
  let sts := [sample_stage "extract" "bin/proc.py"; sample_stage "load" "bin/proc.py"] in
  let E := sample_env (fun _ => proc_fail) in
  let w := sample_world (fun _ => Free) in
  fst (run_stages toy_sha sts "r1" [] E w) = Ret ([StageFailed (Some "boom")], "failed") /\
  exists err, In (StageFailed err) [StageFailed (Some "boom")].
Proof.
  intros sts E w.
  assert (H : fst (run_stages toy_sha sts "r1" [] E w) =
              Ret ([StageFailed (Some "boom")], "failed")) by (vm_compute; reflexivity).
  split; [exact H|].
  destruct (run_stages_outcome toy_sha sts "r1" [] E w _ _ H)
    as [new [Hr [[Hs _]|[_ [_ [pre [err [Hn _]]]]]]]]; [discriminate|].
  exists err. rewrite Hr, Hn. apply in_or_app. right. apply in_or_app. right. left.
  reflexivity.
Defined.

Lemma run_pipeline_final_state_witness :
  let p := sample_pipeline [sample_stage "extract" "bin/proc.py"] in
  let E := sample_env (fun _ => proc_ok) in
  let w := sample_world (fun _ => Free) in
  fst (run_pipeline toy_sha p "r1" E w) = Ret "completed" /\
  w_run_states (snd (run_pipeline toy_sha p "r1" E w)) "r1" = Some "completed".
Proof.
  intros p E w.
  assert (H : fst (run_pipeline toy_sha p "r1" E w) = Ret "completed")
    by (vm_compute; reflexivity).
  split; [exact H|].
  destruct (run_pipeline_final_state toy_sha p "r1" E w _ H) as (_ & _ & Hr & _). exact Hr.
Defined.

Lemma run_pipeline_missing_name_witness :
  let p := mkPipeline None [sample_stage "extract" "bin/proc.py"] in
  let E := sample_env (fun _ => proc_ok) in
  let w := sample_world (fun _ => Free) in
  fst (main toy_sha p "r1" E w) = Ret 1.
Proof.
  intros p E w.
  assert (Hr : audit_readable (e_os_nt E) (w_audit w "r1") = true) by reflexivity.
  destruct (run_pipeline_missing_name toy_sha p "r1" E w Hr eq_refl) as (_ & _ & _ & _ & Hm).
  exact Hm.
Defined.

(** Two failed attempts from a fresh tree: the saved StageState is "failed". *)
Lemma run_stage_history_grows_witness :
  let st := sample_stage "extract" "bin/proc.py" in
  let E := sample_env (fun _ => proc_fail) in
  let w := sample_world (fun _ => Free) in
  fst (run_stage toy_sha st "r1" E w) = Ret (StageFailed (Some "boom")) /\
  exists ss, w_stage_states (snd (run_stage toy_sha st "r1" E w)) "extract" = Some ss /\
             ss_lastStatus ss = Some "failed".
Proof.
  intros st E w.
  assert (H : fst (run_stage toy_sha st "r1" E w) = Ret (StageFailed (Some "boom")))
    by (vm_compute; reflexivity).
  split; [exact H|].
  destruct (run_stage_history_grows toy_sha st "r1" E w _ H ltac:(discriminate))
    as (ss & n & Hs & _ & Hl & _). exists ss. split; [exact Hs | exact Hl].
Defined.

(** Two audit lines of a fresh run: the second is chained to the first. *)
Lemma audit_log_chain_link_witness :
  let E := sample_env (fun _ => proc_ok) in
  let w := sample_world (fun _ => Free) in
  let w1 := snd (audit_log toy_sha "r1" None "run_start" "Pipeline demo" [] E w) in
  let w2 := snd (audit_log toy_sha "r1" None "run_end" "done" [] E w1) in
  exists e1 e2 h1,
    w_audit w2 "r1" = [e1; e2] /\ dict_get e1 "hash" = Some (JStr h1) /\
    dict_get e2 "prevHash" = Some (JStr h1).
Proof.
  intros E w w1 w2.
  assert (Hn1 : ~ In "hash" (map fst (@nil (string * json)))) by (intros []).
  assert (Hn2 : ~ In "prevHash" (map fst (@nil (string * json)))) by (intros []).
  destruct (audit_log_chain_link toy_sha "r1" None None "run_start" "run_end" "Pipeline demo"
              "done" [] [] E E w Hn1 Hn2 eq_refl eq_refl) as (e1 & h1 & Hw1 & Hh & Hnext).
  assert (He1 : e1 = match w_audit w1 "r1" with [d] => d | _ => [] end)
    by (unfold w1; rewrite Hw1; reflexivity).
  assert (Hfit : (String.length (utf8_encode (audit_line_text e1)) +
                  String.length (line_end (e_os_nt E)) <= 4096)%nat)
    by (rewrite He1; apply Nat.leb_le; vm_compute; reflexivity).
  assert (Hnl : no_line_break (audit_line_text e1) = true)
    by (rewrite He1; vm_compute; reflexivity).
  destruct (Hnext Hfit Hnl) as (e2 & Hw2 & Hp).
  exists e1, e2, h1. split; [exact Hw2 | split; [exact Hh | exact Hp]].
Defined.
